(** * ChatService: the client-side session manager of [client/src/lib/chat.ts]

    A shallow embedding of the [ChatService] class.  The object's seven
    private fields form the record [ChatService]; the JavaScript runtime
    objects it talks to (Socket.IO sockets, timers created by [setTimeout],
    the promises returned by [getLastOffer], the clock) form the rest of
    [World].  Every method and every handler registered on a socket is a
    computation in a small state-and-output monad [M]: the state is the
    [World], the output is the list of externally visible [Effect]s
    (subscriber notifications, emitted wire events, transport opens and
    closes, console lines).

    Conventions of the embedding:
    - [auth.currentUser?.uid] is read from the environment at each call; it
      is the [currentUser : option string] component of [Env];
    - subscriber callbacks are opaque observers: calling one is the effect
      [Notify cb m]; they return normally and do not call back into the
      service;
    - the transport is external: its lifecycle and data events are inputs
      ([Event]s) addressed to a live socket; [socket.close()] retires the
      socket object, after which it delivers nothing;
    - [JSON.stringify] and [Date.prototype.toISOString] are builtins of the
      language; the class [Builtins] stands for them and every property is
      proved for every instance;
    - time is a clock in milliseconds; a timer fires no earlier than its
      deadline and at most once. *)

From Stdlib Require Import Ascii String.
From stdpp Require Import gmap strings list pretty.

Open Scope string_scope.
Open Scope list_scope.

(** ** Data model: [ChatMessage] (chat.ts, lines 4-18) *)

Inductive MessageType :=
| Message | ConnectionStatus | UserConnected | Typing | VoiceCall | IceCandidate.

Inductive ConnectionState := Connecting | Connected | Disconnected.

Inductive CallType := Request | Accepted | Rejected | Ended | Busy.

Inductive RTCSdpType := SdpAnswer | SdpOffer | SdpPranswer | SdpRollback.

(** The DOM dictionary [RTCSessionDescriptionInit]. *)
Record RTCSessionDescriptionInit := mkSdp {
  sdp_type : RTCSdpType;
  sdp : option string
}.

Record CallData := mkCallData {
  cd_type : CallType;
  offer : option RTCSessionDescriptionInit;
  answer : option RTCSessionDescriptionInit
}.

Record ChatMessage := mkChatMessage {
  type : MessageType;
  content : option string;
  senderId : option string;
  receiverId : option string;
  timestamp : option string;
  connectionStatus : option ConnectionState;
  userId : option string;
  isTyping : option bool;
  callData : option CallData
}.

#[global] Instance MessageType_eq_dec : EqDecision MessageType.
Proof. solve_decision. Defined.
#[global] Instance ConnectionState_eq_dec : EqDecision ConnectionState.
Proof. solve_decision. Defined.
#[global] Instance CallType_eq_dec : EqDecision CallType.
Proof. solve_decision. Defined.
#[global] Instance RTCSdpType_eq_dec : EqDecision RTCSdpType.
Proof. solve_decision. Defined.
#[global] Instance RTCSessionDescriptionInit_eq_dec :
  EqDecision RTCSessionDescriptionInit.
Proof. solve_decision. Defined.
#[global] Instance CallData_eq_dec : EqDecision CallData.
Proof. solve_decision. Defined.
#[global] Instance ChatMessage_eq_dec : EqDecision ChatMessage.
Proof. solve_decision. Defined.

(** The string of a [type] tag, which is also the name of the wire channel
    the event travels on ([socket.emit(message.type, message)], line 159). *)
Definition type_string (t : MessageType) : string :=
  match t with
  | Message => "message"
  | ConnectionStatus => "connection_status"
  | UserConnected => "user_connected"
  | Typing => "typing"
  | VoiceCall => "voice_call"
  | IceCandidate => "ice-candidate"
  end.

(** ** The session object and the runtime around it *)

(** The fields of [class ChatService] (lines 21-27).  [socket] is a
    reference to a Socket object, [messageCallbacks] a JavaScript [Set] of
    functions (insertion ordered, no duplicates), [typingTimeoutId] a timer
    handle; a handle is truthy, so [if (this.typingTimeoutId)] is the test
    against [null]. *)
Record ChatService := mkChatService {
  socket : option nat;
  messageCallbacks : list nat;
  connectionState : ConnectionState;
  reconnectAttempts : nat;
  maxReconnectAttempts : nat;
  messageSet : gset string;
  typingTimeoutId : option nat
}.

(** A Socket.IO socket: its [connected] flag, maintained by the transport,
    and the transient [handleOffer] listeners that [getLastOffer] adds to
    its [voice_call] channel, each identified by the promise it resolves and
    carrying the [senderId] it waits for.  The permanent listeners of
    [initializeConnection] are the same on every socket and are the
    function [dispatch] below. *)
Record Socket := mkSocket {
  connected : bool;
  offerListeners : list (nat * string)
}.

(** What a pending timer does when it fires: the closure of line 185 or the
    closure of line 210. *)
Inductive TimerAction :=
| AutoClearTyping (receiverId : string)
| OfferTimeout (pid : nat).

#[global] Instance TimerAction_eq_dec : EqDecision TimerAction.
Proof. solve_decision. Defined.

Record World := mkWorld {
  this : ChatService;
  (** live Socket objects, by reference *)
  sockets : gmap nat Socket;
  (** pending timers: deadline in milliseconds and action *)
  timers : gmap nat (N * TimerAction);
  (** settled [getLastOffer] promises with their value ([None] is [null]) *)
  promises : gmap nat (option RTCSessionDescriptionInit);
  (** milliseconds since the epoch *)
  clock : N;
  (** invocations of [initializeConnection] suspended at [await] *)
  suspended : nat;
  nextSocket : nat;
  nextTimer : nat;
  nextPromise : nat
}.

Inductive Exn :=
| TokenRejected (reason : string)
| TypeError (text : string)
| EmitError (reason : string).

Inductive Result (A : Type) :=
| Ok (a : A)
| Throw (e : Exn).
Arguments Ok {A} a.
Arguments Throw {A} e.

(** The options passed to [io(window.location.origin, ...)] (lines 66-76). *)
Record IoOptions := mkIoOptions {
  transports : list string;
  auth_token : string;
  auth_userId : string;
  reconnection : bool;
  reconnectionAttempts : nat;
  reconnectionDelay : N;
  timeout : N
}.

Inductive Effect :=
| Notify (cb : nat) (m : ChatMessage)
| Emit (sid : nat) (channel : string) (m : ChatMessage)
| Open (sid : nat) (opts : IoOptions)
| Close (sid : nat)
| Console (text : string).

(** What the environment decides at a call: who is signed in, and whether
    [socket.emit] raises. *)
Record Env := mkEnv {
  currentUser : option string;
  emitRaises : option Exn
}.

(** ** The monad of methods and handlers *)

Definition M (A : Type) : Type := World -> A * World * list Effect.

Definition ret {A} (a : A) : M A := fun w => (a, w, []).

Definition bind {A B} (m : M A) (k : A -> M B) : M B :=
  fun w =>
    let '(a, w1, o1) := m w in
    let '(b, w2, o2) := k a w1 in
    (b, w2, o1 ++ o2).

Notation "'let*' x ':=' m 'in' k" := (bind m (fun x => k))
  (at level 10, x name, m at level 100, k at level 200).

Definition gets {A} (f : World -> A) : M A := fun w => (f w, w, []).
Definition modify (f : World -> World) : M unit := fun w => (tt, f w, []).
Definition tell (o : list Effect) : M unit := fun w => (tt, w, o).

Definition value_of {A} (r : A * World * list Effect) : A := r.1.1.
Definition world_of {A} (r : A * World * list Effect) : World := r.1.2.
Definition effects_of {A} (r : A * World * list Effect) : list Effect := r.2.

(** [try { body } catch (e) { handler e }] *)
Definition try_catch {A} (body : M (Result A)) (handler : Exn -> M (Result A))
  : M (Result A) :=
  let* r := body in
  match r with
  | Ok a => ret (Ok a)
  | Throw e => handler e
  end.

(** *** Field updates *)

Definition with_this (f : ChatService -> ChatService) (w : World) : World :=
  mkWorld (f (this w)) (sockets w) (timers w) (promises w) (clock w)
          (suspended w) (nextSocket w) (nextTimer w) (nextPromise w).

Definition with_sockets (f : gmap nat Socket -> gmap nat Socket) (w : World)
  : World :=
  mkWorld (this w) (f (sockets w)) (timers w) (promises w) (clock w)
          (suspended w) (nextSocket w) (nextTimer w) (nextPromise w).

Definition with_timers
  (f : gmap nat (N * TimerAction) -> gmap nat (N * TimerAction))
  (w : World) : World :=
  mkWorld (this w) (sockets w) (f (timers w)) (promises w) (clock w)
          (suspended w) (nextSocket w) (nextTimer w) (nextPromise w).

Definition with_promises
  (f : gmap nat (option RTCSessionDescriptionInit) ->
       gmap nat (option RTCSessionDescriptionInit))
  (w : World) : World :=
  mkWorld (this w) (sockets w) (timers w) (f (promises w)) (clock w)
          (suspended w) (nextSocket w) (nextTimer w) (nextPromise w).

Definition with_clock (f : N -> N) (w : World) : World :=
  mkWorld (this w) (sockets w) (timers w) (promises w) (f (clock w))
          (suspended w) (nextSocket w) (nextTimer w) (nextPromise w).

Definition with_suspended (f : nat -> nat) (w : World) : World :=
  mkWorld (this w) (sockets w) (timers w) (promises w) (clock w)
          (f (suspended w)) (nextSocket w) (nextTimer w) (nextPromise w).

Definition with_nextSocket (f : nat -> nat) (w : World) : World :=
  mkWorld (this w) (sockets w) (timers w) (promises w) (clock w)
          (suspended w) (f (nextSocket w)) (nextTimer w) (nextPromise w).

Definition with_nextTimer (f : nat -> nat) (w : World) : World :=
  mkWorld (this w) (sockets w) (timers w) (promises w) (clock w)
          (suspended w) (nextSocket w) (f (nextTimer w)) (nextPromise w).

Definition with_nextPromise (f : nat -> nat) (w : World) : World :=
  mkWorld (this w) (sockets w) (timers w) (promises w) (clock w)
          (suspended w) (nextSocket w) (nextTimer w) (f (nextPromise w)).

Definition set_socket (v : option nat) (s : ChatService) : ChatService :=
  mkChatService v (messageCallbacks s) (connectionState s)
                (reconnectAttempts s) (maxReconnectAttempts s) (messageSet s)
                (typingTimeoutId s).

Definition set_messageCallbacks (v : list nat) (s : ChatService)
  : ChatService :=
  mkChatService (socket s) v (connectionState s)
                (reconnectAttempts s) (maxReconnectAttempts s) (messageSet s)
                (typingTimeoutId s).

Definition set_connectionState (v : ConnectionState) (s : ChatService)
  : ChatService :=
  mkChatService (socket s) (messageCallbacks s) v
                (reconnectAttempts s) (maxReconnectAttempts s) (messageSet s)
                (typingTimeoutId s).

Definition set_reconnectAttempts (v : nat) (s : ChatService) : ChatService :=
  mkChatService (socket s) (messageCallbacks s) (connectionState s)
                v (maxReconnectAttempts s) (messageSet s)
                (typingTimeoutId s).

Definition set_messageSet (v : gset string) (s : ChatService) : ChatService :=
  mkChatService (socket s) (messageCallbacks s) (connectionState s)
                (reconnectAttempts s) (maxReconnectAttempts s) v
                (typingTimeoutId s).

Definition set_typingTimeoutId (v : option nat) (s : ChatService)
  : ChatService :=
  mkChatService (socket s) (messageCallbacks s) (connectionState s)
                (reconnectAttempts s) (maxReconnectAttempts s) (messageSet s)
                v.

(** ** The methods and handlers of [ChatService] *)

(** [JSON.stringify] on a [callData] object and [new Date(t).toISOString()]:
    the builtins of the language the class relies on. *)
Class Builtins := mkBuiltins {
  JSON_stringify : CallData -> string;
  toISOString : N -> string
}.

Section Chat.

Context {js : Builtins}.

Definition quote : string := String "034"%char EmptyString.

(** How a template literal renders a possibly absent string field. *)
Definition template (o : option string) : string :=
  match o with
  | Some s => s
  | None => "undefined"
  end.

(** [x || ''] on a possibly absent string. *)
Definition or_empty (o : option string) : string :=
  match o with
  | Some s => s
  | None => EmptyString
  end.

(** Lines 33-35.  [JSON.stringify('')] is the two-character string made of
    two double quotes. *)
Definition generateMessageId (message : ChatMessage) : string :=
  type_string (type message) +:+ "-" +:+ template (senderId message) +:+ "-"
  +:+ template (receiverId message) +:+ "-"
  +:+ or_empty (timestamp message) +:+ "-"
  +:+ match callData message with
      | Some cd => JSON_stringify cd
      | None => quote +:+ quote
      end.

(** [this.messageCallbacks.forEach(callback => callback(m))] *)
Definition forEach_callback (m : ChatMessage) : M unit :=
  let* cbs := gets (fun w => messageCallbacks (this w)) in
  tell (map (fun cb => Notify cb m) cbs).

Definition statusMessage (st : ConnectionState) (now : N) : ChatMessage :=
  {| type := ConnectionStatus; content := None; senderId := None;
     receiverId := None; timestamp := Some (toISOString now);
     connectionStatus := Some st; userId := None; isTyping := None;
     callData := None |}.

(** Lines 37-44. *)
Definition notifyConnectionStatus : M unit :=
  let* st := gets (fun w => connectionState (this w)) in
  let* now := gets clock in
  forEach_callback (statusMessage st now).

(** [this.socket?.connected], read as a condition. *)
Definition socket_connected (w : World) : bool :=
  match socket (this w) with
  | Some sid =>
      match sockets w !! sid with
      | Some sk => connected sk
      | None => false
      end
  | None => false
  end.

(** [sk.close()]: the socket object is retired. *)
Definition socket_close (sid : nat) : M unit :=
  let* _ := modify (with_sockets (delete sid)) in
  tell [Close sid].

(** [if (this.socket) { this.socket.close(); this.socket = null; }] *)
Definition release_socket : M unit :=
  let* s := gets (fun w => socket (this w)) in
  match s with
  | Some sid =>
      let* _ := socket_close sid in
      modify (with_this (set_socket None))
  | None => ret tt
  end.

(** [this.socket.emit(channel, m)] on the socket [sid]. *)
Definition socket_emit (env : Env) (sid : nat) (channel : string)
  (m : ChatMessage) : M (Result unit) :=
  match emitRaises env with
  | Some e => ret (Throw e)
  | None => let* _ := tell [Emit sid channel m] in ret (Ok tt)
  end.

Inductive InitStatus := Returned | Awaiting.

(** [initializeConnection], lines 46-65: from the call to the suspension at
    [await auth.currentUser.getIdToken()]. *)
Definition initializeConnection (env : Env) : M InitStatus :=
  match currentUser env with
  | None =>
      let* _ := tell [Console "No authenticated user"] in
      ret Returned
  | Some _ =>
      let* c := gets socket_connected in
      if c then
        let* _ := tell [Console "Already connected"] in
        ret Returned
      else
        let* _ := modify (with_this (set_connectionState Connecting)) in
        let* _ := notifyConnectionStatus in
        let* _ := release_socket in
        let* _ := modify (with_suspended S) in
        ret Awaiting
  end.

Definition ioOptions (token uid : string) (attempts : nat) : IoOptions :=
  {| transports := ["websocket"]; auth_token := token; auth_userId := uid;
     reconnection := true; reconnectionAttempts := attempts;
     reconnectionDelay := 1000%N; timeout := 10000%N |}.

(** [io(window.location.origin, options)]: a new socket object, not yet
    connected, with no transient listener. *)
Definition io (opts : IoOptions) : M nat :=
  let* sid := gets nextSocket in
  let* _ := modify (with_nextSocket S) in
  let* _ := modify (with_sockets (insert sid (mkSocket false []))) in
  let* _ := tell [Open sid opts] in
  ret sid.

(** Lines 66-136: the rest of [initializeConnection] once the token promise
    has settled with [token]; [currentUser env] is the user at that moment,
    read for [auth.currentUser.uid].  The result is how the promise of
    [initializeConnection] settles. *)
Definition initializeConnection_resume (env : Env) (token : Result string)
  : M (Result unit) :=
  try_catch
    (match token with
     | Throw e => ret (Throw e)
     | Ok tok =>
         match currentUser env with
         | None => ret (Throw (TypeError "auth.currentUser is null"))
         | Some uid =>
             let* n := gets (fun w => maxReconnectAttempts (this w)) in
             let* sid := io (ioOptions tok uid n) in
             let* _ := modify (with_this (set_socket (Some sid))) in
             ret (Ok tt)
         end
     end)
    (fun error =>
       let* _ := tell [Console "Error in initializeConnection:"] in
       let* _ := modify (with_this (set_connectionState Disconnected)) in
       let* _ := notifyConnectionStatus in
       ret (Throw error)).

Definition user_connected_message (uid : string) (now : N) : ChatMessage :=
  {| type := UserConnected; content := None; senderId := Some uid;
     receiverId := None; timestamp := Some (toISOString now);
     connectionStatus := None; userId := None; isTyping := None;
     callData := None |}.

(** The [connect] listener, lines 78-92. *)
Definition on_connect (env : Env) : M unit :=
  let* _ := tell [Console "Socket.IO connected"] in
  let* _ := modify (with_this (set_connectionState Connected)) in
  let* _ := modify (with_this (set_reconnectAttempts 0)) in
  let* _ := notifyConnectionStatus in
  let* _ := modify (with_this (set_messageSet ∅)) in
  match currentUser env with
  | Some uid =>
      let* s := gets (fun w => socket (this w)) in
      match s with
      | Some sid =>
          let* now := gets clock in
          let* _ := socket_emit env sid "user_connected"
                      (user_connected_message uid now) in
          ret tt
      | None => ret tt
      end
  | None => ret tt
  end.

(** The [disconnect] listener, lines 94-98. *)
Definition on_disconnect : M unit :=
  let* _ := tell [Console "Socket.IO disconnected"] in
  let* _ := modify (with_this (set_connectionState Disconnected)) in
  notifyConnectionStatus.

(** The [connect_error] listener, lines 100-104. *)
Definition on_connect_error : M unit :=
  let* _ := tell [Console "Socket.IO connection error:"] in
  let* _ := modify (with_this (set_connectionState Disconnected)) in
  notifyConnectionStatus.

(** [handleMessage], lines 106-117. *)
Definition handleMessage (env : Env) (message : ChatMessage) : M unit :=
  if bool_decide (senderId message = currentUser env)
     && negb (bool_decide (type message = Typing))
  then ret tt
  else
    let messageId := generateMessageId message in
    let* seen := gets (fun w => bool_decide (messageId ∈ messageSet (this w))) in
    if negb seen then
      let* _ := modify (with_this (fun s =>
                  set_messageSet ({[messageId]} ∪ messageSet s) s)) in
      forEach_callback message
    else ret tt.

(** The [typing] listener, lines 125-129. *)
Definition on_typing (env : Env) (message : ChatMessage) : M unit :=
  if bool_decide (receiverId message = currentUser env)
  then forEach_callback message
  else ret tt.

(** A promise settles once: settling a settled promise changes nothing. *)
Definition settle (pid : nat) (v : option RTCSessionDescriptionInit)
  (ps : gmap nat (option RTCSessionDescriptionInit))
  : gmap nat (option RTCSessionDescriptionInit) :=
  match ps !! pid with
  | None => <[pid := v]> ps
  | Some _ => ps
  end.

(** [resolve(v)] on the promise [pid]. *)
Definition resolve (pid : nat) (v : option RTCSessionDescriptionInit)
  : M unit :=
  modify (with_promises (settle pid v)).

Definition remove_listener (pid : nat) (sk : Socket) : Socket :=
  mkSocket (connected sk)
           (filter (fun l => l.1 ≠ pid) (offerListeners sk)).

Definition add_listener (pid : nat) (sender : string) (sk : Socket) : Socket :=
  mkSocket (connected sk) (offerListeners sk ++ [(pid, sender)]).

(** [this.socket?.off('voice_call', handleOffer)] for the [handleOffer] of
    the call that owns promise [pid]: the listener leaves the socket that
    [this.socket] refers to now. *)
Definition off_handleOffer (pid : nat) : M unit :=
  let* s := gets (fun w => socket (this w)) in
  match s with
  | Some sid => modify (with_sockets (alter (remove_listener pid) sid))
  | None => ret tt
  end.

(** [handleOffer], lines 200-205, of the call that owns promise [pid] and
    waits for [sender]. *)
Definition handleOffer (pid : nat) (sender : string) (message : ChatMessage)
  : M unit :=
  match callData message with
  | Some cd =>
      match offer cd with
      | Some o =>
          if bool_decide (type message = VoiceCall)
             && bool_decide (senderId message = Some sender)
          then
            let* _ := off_handleOffer pid in
            resolve pid (Some o)
          else ret tt
      | None => ret tt
      end
  | None => ret tt
  end.

Fixpoint run_listeners (ls : list (nat * string)) (message : ChatMessage)
  : M unit :=
  match ls with
  | [] => ret tt
  | (pid, sender) :: rest =>
      let* _ := handleOffer pid sender message in
      run_listeners rest message
  end.

(** An event named [channel] arrives on socket [sid]: the listeners
    registered on that channel run in registration order (lines 120-129 and
    207).  Channels without a listener deliver nothing. *)
Definition dispatch (env : Env) (sid : nat) (channel : string)
  (message : ChatMessage) : M unit :=
  if bool_decide (channel = "message") then handleMessage env message
  else if bool_decide (channel = "voice_call") then
    let* ls := gets (fun w =>
                 match sockets w !! sid with
                 | Some sk => offerListeners sk
                 | None => []
                 end) in
    let* _ := handleMessage env message in
    run_listeners ls message
  else if bool_decide (channel = "ice-candidate") then
    handleMessage env message
  else if bool_decide (channel = "typing") then on_typing env message
  else ret tt.

(** An inbound event travels on the channel named after its type. *)
Definition receive (env : Env) (sid : nat) (message : ChatMessage) : M unit :=
  dispatch env sid (type_string (type message)) message.

(** [onMessage], lines 139-144: [Set.add]; the returned closure is
    [unsubscribe callback]. *)
Definition onMessage (callback : nat) : M unit :=
  modify (with_this (fun s =>
    if bool_decide (callback ∈ messageCallbacks s) then s
    else set_messageCallbacks (messageCallbacks s ++ [callback]) s)).

Definition unsubscribe (callback : nat) : M unit :=
  modify (with_this (fun s =>
    set_messageCallbacks
      (filter (fun cb => cb ≠ callback) (messageCallbacks s)) s)).

(** [sendMessage], lines 146-167.  The value is how the call completes. *)
Definition sendMessage (env : Env) (message : ChatMessage)
  : M (Result unit) :=
  let* c := gets socket_connected in
  if negb c then
    let* _ := tell [Console "Socket not connected, attempting to reconnect..."] in
    let* _ := initializeConnection env in
    ret (Ok tt)
  else
    try_catch
      (let messageId := generateMessageId message in
       let* seen := gets (fun w =>
                      bool_decide (messageId ∈ messageSet (this w))) in
       if negb seen || bool_decide (type message = Typing) then
         let* _ :=
           if negb (bool_decide (type message = Typing)) then
             modify (with_this (fun s =>
               set_messageSet ({[messageId]} ∪ messageSet s) s))
           else ret tt in
         let* s := gets (fun w => socket (this w)) in
         match s with
         | Some sid =>
             socket_emit env sid (type_string (type message)) message
         | None => ret (Throw (TypeError "this.socket is null"))
         end
       else ret (Ok tt))
      (fun error =>
         let* _ := tell [Console "Error sending message:"] in
         let* st := gets (fun w => connectionState (this w)) in
         let* _ :=
           if negb (bool_decide (st = Connected)) then
             let* _ := initializeConnection env in ret tt
           else ret tt in
         ret (Ok tt)).

Definition clearTimeout (tid : nat) : M unit :=
  modify (with_timers (delete tid)).

Definition setTimeout (action : TimerAction) (delay : N) : M nat :=
  let* tid := gets nextTimer in
  let* now := gets clock in
  let* _ := modify (with_nextTimer S) in
  let* _ := modify (with_timers (insert tid ((now + delay)%N, action))) in
  ret tid.

Definition typing_message (uid : option string) (receiver : string)
  (flag : bool) (now : N) : ChatMessage :=
  {| type := Typing; content := None; senderId := uid;
     receiverId := Some receiver; timestamp := Some (toISOString now);
     connectionStatus := None; userId := None; isTyping := Some flag;
     callData := None |}.

(** [sendTypingIndicator], lines 169-189. *)
Definition sendTypingIndicator (env : Env) (receiver : string) (flag : bool)
  : M unit :=
  let* t := gets (fun w => typingTimeoutId (this w)) in
  let* _ :=
    match t with
    | Some tid =>
        let* _ := clearTimeout tid in
        modify (with_this (set_typingTimeoutId None))
    | None => ret tt
    end in
  let* now := gets clock in
  let* _ := sendMessage env
              (typing_message (currentUser env) receiver flag now) in
  if flag then
    let* tid := setTimeout (AutoClearTyping receiver) 3000 in
    modify (with_this (set_typingTimeoutId (Some tid)))
  else ret tt.

(** [getLastOffer], lines 192-215: the value is the promise returned. *)
Definition getLastOffer (sender : string) : M nat :=
  let* pid := gets nextPromise in
  let* _ := modify (with_nextPromise S) in
  let* c := gets socket_connected in
  if negb c then
    let* _ := resolve pid None in
    ret pid
  else
    let* s := gets (fun w => socket (this w)) in
    let* _ :=
      match s with
      | Some sid =>
          modify (with_sockets (alter (add_listener pid sender) sid))
      | None => ret tt
      end in
    let* _ := setTimeout (OfferTimeout pid) 5000 in
    ret pid.

(** The closure of lines 210-213. *)
Definition offer_timeout (pid : nat) : M unit :=
  let* _ := off_handleOffer pid in
  resolve pid None.

(** [close], lines 217-230. *)
Definition close : M unit :=
  let* t := gets (fun w => typingTimeoutId (this w)) in
  let* _ :=
    match t with
    | Some tid =>
        let* _ := clearTimeout tid in
        modify (with_this (set_typingTimeoutId None))
    | None => ret tt
    end in
  let* _ := release_socket in
  let* _ := modify (with_this (set_messageCallbacks [])) in
  let* _ := modify (with_this (set_messageSet ∅)) in
  let* _ := modify (with_this (set_connectionState Disconnected)) in
  notifyConnectionStatus.

(** The object as the field initialisers leave it (lines 21-27), in a
    runtime with nothing pending, and the constructor (lines 29-31). *)
Definition fresh_service : ChatService :=
  {| socket := None; messageCallbacks := []; connectionState := Disconnected;
     reconnectAttempts := 0; maxReconnectAttempts := 5; messageSet := ∅;
     typingTimeoutId := None |}.

Definition fresh_world (now : N) : World :=
  {| this := fresh_service; sockets := ∅; timers := ∅; promises := ∅;
     clock := now; suspended := 0; nextSocket := 1; nextTimer := 1;
     nextPromise := 1 |}.

Definition constructor (env : Env) (now : N) : World * list Effect :=
  let r := initializeConnection env (fresh_world now) in
  (world_of r, effects_of r).

(** ** The event loop

    Everything that can happen to a session: calls of the application,
    events of the transport on a live socket, the settling of the token
    promise an [initializeConnection] waits for, the passing of time and
    the firing of a due timer. *)

Inductive Event :=
| Initialize
| TokenSettled (token : Result string)
| TransportConnect (sid : nat)
| TransportDisconnect (sid : nat)
| TransportConnectError (sid : nat)
| Inbound (sid : nat) (channel : string) (m : ChatMessage)
| Subscribe (cb : nat)
| Unsubscribe (cb : nat)
| Send (m : ChatMessage)
| SendTyping (receiver : string) (flag : bool)
| GetLastOffer (sender : string)
| CloseSession
| Tick (d : N)
| TimerFires (tid : nat).

Definition set_connected (b : bool) (sk : Socket) : Socket :=
  mkSocket b (offerListeners sk).

Definition void {A} (m : M A) : M unit := let* _ := m in ret tt.

(** A timer fires no earlier than its deadline, once. *)
Definition fire (env : Env) (tid : nat) : M unit :=
  let* t := gets (fun w => timers w !! tid) in
  let* now := gets clock in
  match t with
  | Some (deadline, action) =>
      if bool_decide (deadline ≤ now)%N then
        let* _ := modify (with_timers (delete tid)) in
        match action with
        | AutoClearTyping receiver =>
            sendTypingIndicator env receiver false
        | OfferTimeout pid => offer_timeout pid
        end
      else ret tt
  | None => ret tt
  end.

(** A transport event on [sid] reaches the listeners only while the
    socket object is live. *)
Definition on_socket (sid : nat) (k : M unit) : M unit :=
  let* s := gets (fun w => sockets w !! sid) in
  match s with
  | Some _ => k
  | None => ret tt
  end.

Definition step (env : Env) (e : Event) : M unit :=
  match e with
  | Initialize => void (initializeConnection env)
  | TokenSettled token =>
      let* n := gets suspended in
      match n with
      | O => ret tt
      | S _ =>
          let* _ := modify (with_suspended pred) in
          void (initializeConnection_resume env token)
      end
  | TransportConnect sid =>
      on_socket sid
        (let* _ := modify (with_sockets (alter (set_connected true) sid)) in
         on_connect env)
  | TransportDisconnect sid =>
      on_socket sid
        (let* _ := modify (with_sockets (alter (set_connected false) sid)) in
         on_disconnect)
  | TransportConnectError sid =>
      on_socket sid on_connect_error
  | Inbound sid channel m =>
      on_socket sid (dispatch env sid channel m)
  | Subscribe cb => onMessage cb
  | Unsubscribe cb => unsubscribe cb
  | Send m => void (sendMessage env m)
  | SendTyping receiver flag =>
      sendTypingIndicator env receiver flag
  | GetLastOffer sender => void (getLastOffer sender)
  | CloseSession => close
  | Tick d => modify (with_clock (fun t => (t + d)%N))
  | TimerFires tid => fire env tid
  end.

Fixpoint run (tr : list (Env * Event)) (w : World) : World * list Effect :=
  match tr with
  | [] => (w, [])
  | (env, e) :: rest =>
      let r := step env e w in
      let r' := run rest (world_of r) in
      (r'.1, effects_of r ++ r'.2)
  end.

Inductive reachable : World -> Prop :=
| reachable_new env now :
    reachable (constructor env now).1
| reachable_step env e w :
    reachable w -> reachable (world_of (step env e w)).

(** *** Observations on an output *)

Definition notifications (o : list Effect) : list (nat * ChatMessage) :=
  omap (fun e => match e with Notify cb m => Some (cb, m) | _ => None end) o.

Definition emissions (o : list Effect) : list (nat * string * ChatMessage) :=
  omap (fun e => match e with
                 | Emit sid ch m => Some (sid, ch, m)
                 | _ => None
                 end) o.

(** One notification of [m] per subscriber, in subscription order. *)
Definition fan_out (m : ChatMessage) (w : World) : list (nat * ChatMessage) :=
  map (fun cb => (cb, m)) (messageCallbacks (this w)).

Definition times_notified (cb : nat) (m : ChatMessage) (o : list Effect)
  : nat :=
  length (filter (fun x => x = (cb, m)) (notifications o)).

(** ** Notions used by the properties

    The worlds the handlers leave, written as plain functions on [World]
    (each one is proved equal to the world component of its handler in the
    lemmas named [..._spec]), and the invariants of the event loop. *)

(** The guard of line 108. *)
Definition self_sent (env : Env) (m : ChatMessage) : bool :=
  bool_decide (senderId m = currentUser env)
  && negb (bool_decide (type m = Typing)).

(** [this.messageSet.add(key)] *)
Definition record_key (key : string) (w : World) : World :=
  with_this (fun s => set_messageSet ({[key]} ∪ messageSet s) s) w.

(** A change confined to the sockets and the promises. *)
Definition runtime_update (sk : gmap nat Socket)
  (ps : gmap nat (option RTCSessionDescriptionInit)) (w : World) : World :=
  with_promises (fun _ => ps) (with_sockets (fun _ => sk) w).

(** The channels on which [handleMessage] listens. *)
Definition routed (channel : string) : bool :=
  bool_decide (channel = "message") || bool_decide (channel = "voice_call")
  || bool_decide (channel = "ice-candidate").

(** The event types whose channel [handleMessage] listens on. *)
Definition content_type (t : MessageType) : bool :=
  match t with
  | Message | VoiceCall | IceCandidate => true
  | _ => false
  end.

(** The world in which [initializeConnection] suspends. *)
Definition start_connecting (w : World) : World :=
  with_suspended S
    (world_of (release_socket (with_this (set_connectionState Connecting) w))).

(** The world once the dedup test of line 155 has passed. *)
Definition recorded (m : ChatMessage) (w : World) : World :=
  if bool_decide (type m = Typing) then w
  else record_key (generateMessageId m) w.

(** What the [catch] block of lines 131-136 leaves: the error rethrown, the
    state [Disconnected], the status fanned out. *)
Definition setup_failed (error : Exn) (w : World)
  (r : Result unit * World * list Effect) : Prop :=
  value_of r = Throw error
  /\ world_of r = with_this (set_connectionState Disconnected) w
  /\ notifications (effects_of r)
     = fan_out (statusMessage Disconnected (clock w)) w.

(** The timer [tid] is a pending auto-clear timer of line 185. *)
Definition typing_timer_pending (w : World) (tid : nat) : Prop :=
  exists deadline receiver,
    timers w !! tid = Some (deadline, AutoClearTyping receiver).

(** Every pending auto-clear timer is the one [typingTimeoutId] holds. *)
Definition typing_timer_inv (w : World) : Prop :=
  forall tid, typing_timer_pending w tid ->
    typingTimeoutId (this w) = Some tid.

(** The fields as [close] leaves them. *)
Definition closed_service (s : ChatService) : ChatService :=
  {| socket := None; messageCallbacks := []; connectionState := Disconnected;
     reconnectAttempts := reconnectAttempts s;
     maxReconnectAttempts := maxReconnectAttempts s; messageSet := ∅;
     typingTimeoutId := None |}.

(** Removing the entry a possibly null handle points to. *)
Definition drop_key {A} (o : option nat) (m : gmap nat A) : gmap nat A :=
  match o with
  | Some k => delete k m
  | None => m
  end.

(** The offer that makes [handleOffer] for [sender] act on [m]. *)
Definition qualifying (sender : string) (m : ChatMessage)
  : option RTCSessionDescriptionInit :=
  match callData m with
  | Some cd =>
      match offer cd with
      | Some o =>
          if bool_decide (type m = VoiceCall)
             && bool_decide (senderId m = Some sender)
          then Some o else None
      | None => None
      end
  | None => None
  end.

(** The world [off_handleOffer pid] leaves. *)
Definition off_world (pid : nat) (w : World) : World :=
  match socket (this w) with
  | Some sid => with_sockets (alter (remove_listener pid) sid) w
  | None => w
  end.

(** The world [resolve pid v] leaves. *)
Definition resolve_world (pid : nat) (v : option RTCSessionDescriptionInit)
  (w : World) : World :=
  with_promises (settle pid v) w.

(** The world [handleOffer pid sender m] leaves. *)
Definition handleOffer_world (pid : nat) (sender : string) (m : ChatMessage)
  (w : World) : World :=
  match qualifying sender m with
  | Some o => resolve_world pid (Some o) (off_world pid w)
  | None => w
  end.

(** The world [run_listeners ls m] leaves. *)
Fixpoint listeners_world (ls : list (nat * string)) (m : ChatMessage)
  (w : World) : World :=
  match ls with
  | [] => w
  | (pid, sender) :: rest =>
      listeners_world rest m (handleOffer_world pid sender m w)
  end.

(** The world [handleMessage env m] leaves. *)
Definition handleMessage_world (env : Env) (m : ChatMessage) (w : World)
  : World :=
  if self_sent env m then w
  else if bool_decide (generateMessageId m ∈ messageSet (this w)) then w
       else record_key (generateMessageId m) w.

(** The transient listeners on socket [sid]. *)
Definition listeners_on (sid : nat) (w : World) : list (nat * string) :=
  match sockets w !! sid with
  | Some sk => offerListeners sk
  | None => []
  end.

(** The world [dispatch env sid channel m] leaves. *)
Definition dispatch_world (env : Env) (sid : nat) (channel : string)
  (m : ChatMessage) (w : World) : World :=
  if bool_decide (channel = "voice_call") then
    listeners_world (listeners_on sid w) m (handleMessage_world env m w)
  else if routed channel then handleMessage_world env m w
  else w.

(** Lines 170-173 and 218-221: the timer [typingTimeoutId] holds is
    cleared. *)
Definition clear_typing_timer (w : World) : World :=
  match typingTimeoutId (this w) with
  | Some tid =>
      with_this (set_typingTimeoutId None) (with_timers (delete tid) w)
  | None => w
  end.

(** The world [setTimeout action delay] leaves. *)
Definition arm (action : TimerAction) (delay : N) (w : World) : World :=
  with_timers (insert (nextTimer w) ((clock w + delay)%N, action))
    (with_nextTimer S w).

(** The world [sendTypingIndicator env receiver flag] leaves. *)
Definition sendTypingIndicator_world (env : Env) (receiver : string)
  (flag : bool) (w : World) : World :=
  let w1 := clear_typing_timer w in
  let w2 := world_of (sendMessage env
              (typing_message (currentUser env) receiver flag (clock w1))
              w1) in
  if flag then
    with_this (set_typingTimeoutId (Some (nextTimer w2)))
      (arm (AutoClearTyping receiver) 3000 w2)
  else w2.

(** The world [getLastOffer sender] leaves. *)
Definition getLastOffer_world (sender : string) (w : World) : World :=
  let pid := nextPromise w in
  let w1 := with_nextPromise S w in
  if socket_connected w then
    arm (OfferTimeout pid) 5000
      (match socket (this w) with
       | Some sid =>
           with_sockets (alter (add_listener pid sender) sid) w1
       | None => w1
       end)
  else resolve_world pid None w1.

(** The world [offer_timeout pid] leaves. *)
Definition offer_timeout_world (pid : nat) (w : World) : World :=
  resolve_world pid None (off_world pid w).

(** The world [fire env tid] leaves. *)
Definition fire_world (env : Env) (tid : nat) (w : World) : World :=
  match timers w !! tid with
  | Some (deadline, action) =>
      if bool_decide (deadline ≤ clock w)%N then
        match action with
        | AutoClearTyping receiver =>
            sendTypingIndicator_world env receiver false
              (with_timers (delete tid) w)
        | OfferTimeout pid =>
            offer_timeout_world pid (with_timers (delete tid) w)
        end
      else w
  | None => w
  end.

(** The world [release_socket] leaves. *)
Definition release_world (w : World) : World :=
  match socket (this w) with
  | Some sid => with_this (set_socket None) (with_sockets (delete sid) w)
  | None => w
  end.

(** The world [initializeConnection env] leaves. *)
Definition initializeConnection_world (env : Env) (w : World) : World :=
  match currentUser env with
  | None => w
  | Some _ =>
      if socket_connected w then w
      else with_suspended S
             (release_world (with_this (set_connectionState Connecting) w))
  end.

(** The world [initializeConnection_resume env token] leaves. *)
Definition resume_world (env : Env) (token : Result string) (w : World)
  : World :=
  match token, currentUser env with
  | Ok _, Some _ =>
      with_this (set_socket (Some (nextSocket w)))
        (with_sockets (insert (nextSocket w) (mkSocket false []))
           (with_nextSocket S w))
  | _, _ => with_this (set_connectionState Disconnected) w
  end.

(** The world [sendMessage env m] leaves. *)
Definition sendMessage_world (env : Env) (m : ChatMessage) (w : World)
  : World :=
  if socket_connected w then
    if negb (bool_decide (generateMessageId m ∈ messageSet (this w)))
       || bool_decide (type m = Typing)
    then recorded m w else w
  else initializeConnection_world env w.

(** The world [on_connect] leaves. *)
Definition connect_world (w : World) : World :=
  with_this (fun s => set_messageSet ∅
               (set_reconnectAttempts 0 (set_connectionState Connected s))) w.

(** The world [on_disconnect] and [on_connect_error] leave. *)
Definition disconnect_world (w : World) : World :=
  with_this (set_connectionState Disconnected) w.

(** The world [close] leaves. *)
Definition close_world (w : World) : World :=
  with_this closed_service
    (with_sockets (drop_key (socket (this w)))
       (with_timers (drop_key (typingTimeoutId (this w))) w)).

(** The world [step env e] leaves. *)
Definition step_world (env : Env) (e : Event) (w : World) : World :=
  match e with
  | Initialize => initializeConnection_world env w
  | TokenSettled token =>
      match suspended w with
      | O => w
      | S _ => resume_world env token (with_suspended pred w)
      end
  | TransportConnect sid =>
      match sockets w !! sid with
      | Some _ =>
          connect_world (with_sockets (alter (set_connected true) sid) w)
      | None => w
      end
  | TransportDisconnect sid =>
      match sockets w !! sid with
      | Some _ =>
          disconnect_world (with_sockets (alter (set_connected false) sid) w)
      | None => w
      end
  | TransportConnectError sid =>
      match sockets w !! sid with
      | Some _ => disconnect_world w
      | None => w
      end
  | Inbound sid channel m =>
      match sockets w !! sid with
      | Some _ => dispatch_world env sid channel m w
      | None => w
      end
  | Subscribe cb => world_of (onMessage cb w)
  | Unsubscribe cb => world_of (unsubscribe cb w)
  | Send m => sendMessage_world env m w
  | SendTyping receiver flag => sendTypingIndicator_world env receiver flag w
  | GetLastOffer sender => getLastOffer_world sender w
  | CloseSession => close_world w
  | Tick d => with_clock (fun t => (t + d)%N) w
  | TimerFires tid => fire_world env tid w
  end.

(** The world after a trace of events. *)
Definition run_world (tr : list (Env * Event)) (w : World) : World :=
  (run tr w).1.

(** The dedup cache. *)
Definition cache (w : World) : gset string := messageSet (this w).

(** The events that empty the cache. *)
Definition clearing (e : Event) : bool :=
  match e with
  | TransportConnect _ | CloseSession => true
  | _ => false
  end.

(** What the timer arguments look at. *)
Definition timer_view (w : World)
  : gmap nat (N * TimerAction) * nat * option nat * N :=
  (timers w, nextTimer w, typingTimeoutId (this w), clock w).

(** [setTimeout] under a condition. *)
Definition arm_if (flag : bool) (tid : nat) (x : N * TimerAction)
  (tm : gmap nat (N * TimerAction)) : gmap nat (N * TimerAction) :=
  if flag then <[tid := x]> tm else tm.

(** Timer handles at or above [nextTimer] are not in use. *)
Definition timers_fresh (w : World) : Prop :=
  forall tid, (nextTimer w ≤ tid)%nat -> timers w !! tid = None.

(** [typing_timer_inv] on the components of [timer_view]. *)
Definition typing_timers_held (tm : gmap nat (N * TimerAction))
  (ty : option nat) : Prop :=
  forall tid deadline receiver,
    tm !! tid = Some (deadline, AutoClearTyping receiver) -> ty = Some tid.

(** Every settled promise of [ps] is settled in [ps'] with the same
    value. *)
Definition extends (ps ps' : gmap nat (option RTCSessionDescriptionInit))
  : Prop :=
  forall pid v, ps !! pid = Some v -> ps' !! pid = Some v.

(** *** A pending [getLastOffer]

    The call that owns promise [pid] waits for [sender]; its listener sits
    on socket [sid] and its timeout is the timer [tid], due at
    [deadline]. *)

Section Waiting.

Context (pid : nat) (sender : string) (sid tid : nat) (deadline : N).

(** The listener is on the connected socket [sid], and every listener of
    this call waits for [sender]. *)
Definition listening (sks : gmap nat Socket) : Prop :=
  (exists sk, sks !! sid = Some sk /\ connected sk = true
              /\ (pid, sender) ∈ offerListeners sk)
  /\ (forall sid' sk' s',
        sks !! sid' = Some sk' -> (pid, s') ∈ offerListeners sk' ->
        s' = sender).

(** The timeout of this call is the pending timer [tid], and no other. *)
Definition timing (tm : gmap nat (N * TimerAction)) : Prop :=
  tm !! tid = Some (deadline, OfferTimeout pid)
  /\ (forall tid' d, tm !! tid' = Some (d, OfferTimeout pid) -> tid' = tid).

(** The call is still waiting: promise pending, listener and timer in
    place, [this.socket] still the socket of the listener. *)
Definition waiting (w : World) : Prop :=
  socket (this w) = Some sid
  /\ listening (sockets w)
  /\ promises w !! pid = None
  /\ (pid < nextPromise w)%nat
  /\ timing (timers w)
  /\ (tid < nextTimer w)%nat
  /\ typingTimeoutId (this w) ≠ Some tid.

(** The events that leave the call waiting: everything except the settling
    of a token promise, [close], the disconnection of [sid], the firing of
    [tid] and a [voice_call] event that qualifies for [sender]. *)
Definition quiet (x : Env * Event) : bool :=
  match x.2 with
  | TokenSettled _ | CloseSession => false
  | TransportDisconnect s => negb (bool_decide (s = sid))
  | TimerFires t => negb (bool_decide (t = tid))
  | Inbound _ channel m =>
      negb (bool_decide (channel = "voice_call")
            && bool_decide (is_Some (qualifying sender m)))
  | _ => true
  end.

End Waiting.

(** Promise handles in use are below [nextPromise]; the timer handle that
    [typingTimeoutId] holds is below [nextTimer]. *)
Definition listeners_old (n : nat) (sks : gmap nat Socket) : Prop :=
  forall sid sk p s,
    sks !! sid = Some sk -> (p, s) ∈ offerListeners sk -> (p < n)%nat.

Definition timeouts_old (n : nat) (tm : gmap nat (N * TimerAction)) : Prop :=
  forall t d p, tm !! t = Some (d, OfferTimeout p) -> (p < n)%nat.

Definition wf_offers (w : World) : Prop :=
  (forall p, (nextPromise w ≤ p)%nat -> promises w !! p = None)
  /\ listeners_old (nextPromise w) (sockets w)
  /\ timeouts_old (nextPromise w) (timers w)
  /\ (forall t, typingTimeoutId (this w) = Some t -> (t < nextTimer w)%nat).

(** The call that owns [pid] has no listener on socket [sid]. *)
Definition not_listening (pid sid : nat) (w : World) : Prop :=
  forall sk s, sockets w !! sid = Some sk -> (pid, s) ∉ offerListeners sk.

(** ** Notions used by the further properties *)

(** What an output of a handler run from [w] may be: a notification to a
    subscriber of [w], an emission on the socket [this.socket] refers to in
    [w] and on the channel named after the type of the event, the opening
    of the next socket with the options of lines 66-76, the closing of
    [this.socket], a console line. *)
Definition effect_ok (w : World) (x : Effect) : Prop :=
  match x with
  | Notify cb _ => cb ∈ messageCallbacks (this w)
  | Emit sid channel m =>
      socket (this w) = Some sid /\ channel = type_string (type m)
  | Open sid opts =>
      sid = nextSocket w
      /\ exists token uid,
           opts = ioOptions token uid (maxReconnectAttempts (this w))
  | Close sid => socket (this w) = Some sid
  | Console _ => True
  end.

(** The presence announcement of lines 85-91. *)
Definition presence (env : Env) (w : World) : list Effect :=
  match currentUser env, socket (this w), emitRaises env with
  | Some uid, Some sid, None =>
      [Emit sid "user_connected" (user_connected_message uid (clock w))]
  | _, _, _ => []
  end.

(** The subscribers after an event. *)
Definition subscribers_after (e : Event) (cbs : list nat) : list nat :=
  match e with
  | Subscribe cb => if bool_decide (cb ∈ cbs) then cbs else cbs ++ [cb]
  | Unsubscribe cb => filter (fun c => c ≠ cb) cbs
  | CloseSession => []
  | _ => cbs
  end.

(** [cb] is not registered by any event of the trace. *)
Definition never_subscribes (cb : nat) (tr : list (Env * Event)) : Prop :=
  Forall (fun x => x.2 ≠ Subscribe cb) tr.

(** A live socket object that [this.socket] does not refer to. *)
Definition unreferenced (sid : nat) (w : World) : Prop :=
  is_Some (sockets w !! sid) /\ socket (this w) ≠ Some sid
  /\ (sid < nextSocket w)%nat.

(** The timer [typingTimeoutId] holds, while pending, is an auto-clear
    timer. *)
Definition typing_handle_typed (w : World) : Prop :=
  forall t d a,
    typingTimeoutId (this w) = Some t -> timers w !! t = Some (d, a) ->
    exists receiver, a = AutoClearTyping receiver.

(** Two events agree on the fields the dedup key is built from. *)
Definition same_dedup_fields (m m' : ChatMessage) : Prop :=
  type m = type m' /\ senderId m = senderId m'
  /\ receiverId m = receiverId m' /\ timestamp m = timestamp m'
  /\ callData m = callData m'.

(** The output of [step env e] in terms of the handler that runs. *)
Definition step_effects (env : Env) (e : Event) (w : World) : list Effect :=
  match e with
  | Initialize => effects_of (initializeConnection env w)
  | TokenSettled token =>
      match suspended w with
      | O => []
      | S _ =>
          effects_of (initializeConnection_resume env token
                        (with_suspended pred w))
      end
  | TransportConnect sid =>
      match sockets w !! sid with
      | Some _ =>
          effects_of (on_connect env
                        (with_sockets (alter (set_connected true) sid) w))
      | None => []
      end
  | TransportDisconnect sid =>
      match sockets w !! sid with
      | Some _ =>
          effects_of (on_disconnect
                        (with_sockets (alter (set_connected false) sid) w))
      | None => []
      end
  | TransportConnectError sid =>
      match sockets w !! sid with
      | Some _ => effects_of (on_connect_error w)
      | None => []
      end
  | Inbound sid channel m =>
      match sockets w !! sid with
      | Some _ => effects_of (dispatch env sid channel m w)
      | None => []
      end
  | Send m => effects_of (sendMessage env m w)
  | SendTyping receiver flag =>
      effects_of (sendTypingIndicator env receiver flag w)
  | CloseSession => effects_of (close w)
  | TimerFires tid => effects_of (fire env tid w)
  | Subscribe _ | Unsubscribe _ | GetLastOffer _ | Tick _ => []
  end.

(** What the socket arguments look at. *)
Definition socket_view (w : World) : gmap nat Socket * option nat * nat :=
  (sockets w, socket (this w), nextSocket w).

(** Two calls of [initializeConnection] that overlap: the second starts
    before the token of the first has arrived. *)
Definition overlapping_initialize (env : Env) (t1 t2 : string)
  : list (Env * Event) :=
  [(env, Initialize); (env, Initialize);
   (env, TokenSettled (Ok t1)); (env, TokenSettled (Ok t2))].

(** An event with the given sender and receiver, the fields of [m]
    otherwise. *)
Definition between (sender receiver : option string) (m : ChatMessage)
  : ChatMessage :=
  {| type := type m; content := content m; senderId := sender;
     receiverId := receiver; timestamp := timestamp m;
     connectionStatus := connectionStatus m; userId := userId m;
     isTyping := isTyping m; callData := callData m |}.

(** The event [m] with another timestamp. *)
Definition stamped (ts : option string) (m : ChatMessage) : ChatMessage :=
  {| type := type m; content := content m; senderId := senderId m;
     receiverId := receiverId m; timestamp := ts;
     connectionStatus := connectionStatus m; userId := userId m;
     isTyping := isTyping m; callData := callData m |}.

(** No event of the trace is the firing of timer [tid]. *)
Definition never_fires (tid : nat) (tr : list (Env * Event)) : Prop :=
  Forall (fun x => x.2 ≠ TimerFires tid) tr.

End Chat.

(** ** Stand-ins for the builtins, to run the model on examples

    The properties below hold for every instance of [Builtins]; the
    examples need one. *)
Definition sample_stringify (cd : CallData) : string :=
  let show_sdp o :=
    match o with
    | Some d => "{sdp:" +:+ default "null" (sdp d) +:+ "}"
    | None => "null"
    end in
  "{type:"
  +:+ match cd_type cd with
      | Request => "request"
      | Accepted => "accepted"
      | Rejected => "rejected"
      | Ended => "ended"
      | Busy => "busy"
      end
  +:+ ",offer:" +:+ show_sdp (offer cd)
  +:+ ",answer:" +:+ show_sdp (answer cd) +:+ "}".

Definition sample_toISOString (t : N) : string := "T+" +:+ pretty t.

Definition sample_builtins : Builtins :=
  {| JSON_stringify := sample_stringify; toISOString := sample_toISOString |}.

(** ** Example data: the scenario of the specification

    Identity "A" connects on socket 1 and two subscribers, 7 and 8,
    register; "B" is the peer. *)

Definition alice : Env := {| currentUser := Some "A"; emitRaises := None |}.

Definition nobody : Env := {| currentUser := None; emitRaises := None |}.

(** "A" on a transport whose [emit] raises. *)
Definition offline : Env :=
  {| currentUser := Some "A"; emitRaises := Some (EmitError "offline") |}.

Definition text_from (sender ts : string) : ChatMessage :=
  {| type := Message; content := Some "hi"; senderId := Some sender;
     receiverId := Some "A"; timestamp := Some ts; connectionStatus := None;
     userId := None; isTyping := None; callData := None |}.

(** Another text with the sender and the timestamp of [text_from]. *)
Definition other_text_from (sender ts : string) : ChatMessage :=
  {| type := Message; content := Some "something else";
     senderId := Some sender; receiverId := Some "A"; timestamp := Some ts;
     connectionStatus := None; userId := None; isTyping := None;
     callData := None |}.

Definition typing_from (sender : string) : ChatMessage :=
  {| type := Typing; content := None; senderId := Some sender;
     receiverId := Some "A"; timestamp := Some "T2";
     connectionStatus := None; userId := None; isTyping := Some true;
     callData := None |}.

Definition sample_offer : RTCSessionDescriptionInit :=
  {| sdp_type := SdpOffer; sdp := Some "v=0" |}.

Definition call_from (sender : string) : ChatMessage :=
  {| type := VoiceCall; content := None; senderId := Some sender;
     receiverId := Some "A"; timestamp := Some "T3";
     connectionStatus := None; userId := None; isTyping := None;
     callData := Some {| cd_type := Request; offer := Some sample_offer;
                         answer := None |} |}.

Definition connecting_trace : list (Env * Event) :=
  [(alice, Initialize); (alice, TokenSettled (Ok "token"));
   (alice, TransportConnect 1); (alice, Subscribe 7); (alice, Subscribe 8)].

Definition connected_session : World :=
  run_world (js := sample_builtins) connecting_trace (fresh_world 0).

(** * Properties *)

Section Properties.

Context {js : Builtins}.

(** ** Unfolding the monad *)

Ltac run_M :=
  unfold value_of, world_of, effects_of, void, try_catch, bind, gets,
    modify, tell, ret in *; cbn [fst snd] in *.

Ltac run_updates :=
  unfold with_this, with_sockets, with_timers, with_promises, with_clock,
    with_suspended, with_nextSocket, with_nextTimer, with_nextPromise,
    set_socket, set_messageCallbacks, set_connectionState,
    set_reconnectAttempts, set_messageSet, set_typingTimeoutId in *;
  cbn [this sockets timers promises clock suspended nextSocket nextTimer
       nextPromise socket messageCallbacks connectionState reconnectAttempts
       maxReconnectAttempts messageSet typingTimeoutId fst snd] in *.

Lemma notifications_app o1 o2 :
  notifications (o1 ++ o2) = notifications o1 ++ notifications o2.
Proof. unfold notifications. apply omap_app. Qed.

Lemma emissions_app o1 o2 :
  emissions (o1 ++ o2) = emissions o1 ++ emissions o2.
Proof. unfold emissions. apply omap_app. Qed.

Lemma notifications_fan_out m w :
  notifications (map (fun cb => Notify cb m) (messageCallbacks (this w)))
  = fan_out m w.
Proof.
  unfold fan_out, notifications.
  induction (messageCallbacks (this w)) as [|cb cbs IH]; [reflexivity|].
  cbn. by rewrite IH.
Qed.

Lemma emissions_notify m (cbs : list nat) :
  emissions (map (fun cb => Notify cb m) cbs) = [].
Proof. induction cbs as [|cb cbs IH]; [reflexivity | exact IH]. Qed.

(** *** [forEach_callback] and [notifyConnectionStatus] *)

Lemma forEach_callback_spec m w :
  forEach_callback m w
  = (tt, w, map (fun cb => Notify cb m) (messageCallbacks (this w))).
Proof. reflexivity. Qed.

Lemma notifyConnectionStatus_spec w :
  notifyConnectionStatus w
  = (tt, w, map (fun cb => Notify cb
                   (statusMessage (connectionState (this w)) (clock w)))
                (messageCallbacks (this w))).
Proof. reflexivity. Qed.

(** *** The [typing] listener *)

Lemma on_typing_spec env m w :
  on_typing env m w
  = (tt, w, if bool_decide (receiverId m = currentUser env)
            then map (fun cb => Notify cb m) (messageCallbacks (this w))
            else []).
Proof. unfold on_typing. by case_bool_decide. Qed.

Lemma dispatch_typing env sid m w :
  dispatch env sid "typing" m w = on_typing env m w.
Proof. reflexivity. Qed.

(** *** Counting the notifications a subscriber gets *)

Lemma times_notified_app cb m o1 o2 :
  times_notified cb m (o1 ++ o2)
  = times_notified cb m o1 + times_notified cb m o2.
Proof.
  unfold times_notified.
  by rewrite notifications_app, filter_app, length_app.
Qed.

Lemma times_notified_nil cb m o :
  notifications o = [] -> times_notified cb m o = 0.
Proof. unfold times_notified. by intros ->. Qed.

Lemma count_fan_out_absent (cb : nat) (m : ChatMessage) (cbs : list nat) :
  cb ∉ cbs ->
  length (filter (fun x => x = (cb, m)) (map (fun c => (c, m)) cbs)) = 0.
Proof.
  induction cbs as [|c cbs IH]; intros Hin; [reflexivity|].
  apply not_elem_of_cons in Hin as [Hne Hin].
  cbn [map]. rewrite filter_cons_False; [by apply IH | congruence].
Qed.

Lemma count_fan_out_present (cb : nat) (m : ChatMessage) (cbs : list nat) :
  NoDup cbs -> cb ∈ cbs ->
  length (filter (fun x => x = (cb, m)) (map (fun c => (c, m)) cbs)) = 1.
Proof.
  induction 1 as [|c cbs Hc Hnd IH]; intros Hin.
  - by apply elem_of_nil in Hin.
  - cbn [map]. apply elem_of_cons in Hin as [->|Hin].
    + rewrite filter_cons_True by done. cbn [length].
      by rewrite count_fan_out_absent.
    + rewrite filter_cons_False; [by apply IH|].
      intros [=]; subst. contradiction.
Qed.

Lemma times_notified_fan_out cb m w o :
  notifications o = fan_out m w ->
  NoDup (messageCallbacks (this w)) ->
  cb ∈ messageCallbacks (this w) ->
  times_notified cb m o = 1.
Proof.
  unfold times_notified, fan_out. intros -> Hnd Hin.
  by apply count_fan_out_present.
Qed.

(** C3.  An event arriving on the [typing] channel never reads or writes the
    dedup cache: the whole [World] is left as it was, the event is fanned
    out to every subscriber exactly when its [receiverId] is the local
    identity, and a second delivery of the same payload is fanned out again
    in the same way, so that each subscriber has then been notified twice.
    An event of type [Typing] travels on that channel. *)
Theorem typing_bypasses_dedup env sid m w :
  let r1 := dispatch env sid "typing" m w in
  let r2 := dispatch env sid "typing" m (world_of r1) in
  (type m = Typing -> receive env sid m w = r1)
  /\ world_of r1 = w /\ world_of r2 = w
  /\ notifications (effects_of r1)
     = (if bool_decide (receiverId m = currentUser env)
        then fan_out m w else [])
  /\ notifications (effects_of r2) = notifications (effects_of r1)
  /\ (receiverId m = currentUser env ->
      NoDup (messageCallbacks (this w)) ->
      forall cb, cb ∈ messageCallbacks (this w) ->
        times_notified cb m (effects_of r1 ++ effects_of r2) = 2).
Proof.
  cbn zeta. rewrite !dispatch_typing, !on_typing_spec. run_M.
  assert (Hn : notifications
            (if bool_decide (receiverId m = currentUser env)
             then map (fun cb => Notify cb m) (messageCallbacks (this w))
             else [])
          = if bool_decide (receiverId m = currentUser env)
            then fan_out m w else []).
  { case_bool_decide; [apply notifications_fan_out | reflexivity]. }
  split; [|split; [|split; [|split; [|split]]]]; try done.
  - intros Ht. unfold receive. rewrite Ht. cbn [type_string].
    by rewrite dispatch_typing, on_typing_spec.
  - intros Hr Hnd cb Hin. rewrite times_notified_app.
    rewrite bool_decide_eq_true_2 in Hn |- * by done.
    by rewrite (times_notified_fan_out cb m w _ Hn Hnd Hin).
Qed.

(** *** [handleMessage] *)

Lemma handleMessage_spec env m w :
  handleMessage env m w
  = if self_sent env m then (tt, w, [])
    else if bool_decide (generateMessageId m ∈ messageSet (this w))
         then (tt, w, [])
         else (tt, record_key (generateMessageId m) w,
               map (fun cb => Notify cb m) (messageCallbacks (this w))).
Proof.
  unfold handleMessage, self_sent.
  destruct (bool_decide (senderId m = currentUser env)
            && negb (bool_decide (type m = Typing))); [reflexivity|].
  run_M. by case_bool_decide.
Qed.

Lemma record_key_elem key w :
  key ∈ messageSet (this (record_key key w)).
Proof. cbn. set_solver. Qed.

Lemma record_key_mono key k w :
  k ∈ messageSet (this w) -> k ∈ messageSet (this (record_key key w)).
Proof. cbn. set_solver. Qed.

Lemma record_key_callbacks key w :
  messageCallbacks (this (record_key key w)) = messageCallbacks (this w).
Proof. reflexivity. Qed.

(** *** The transient [handleOffer] listeners touch sockets and promises
    only *)

Lemma runtime_update_id w : runtime_update (sockets w) (promises w) w = w.
Proof. by destruct w. Qed.

Lemma runtime_update_twice sk ps sk' ps' w :
  runtime_update sk' ps' (runtime_update sk ps w) = runtime_update sk' ps' w.
Proof. reflexivity. Qed.

Lemma off_handleOffer_spec pid w :
  exists sk, off_handleOffer pid w = (tt, with_sockets (fun _ => sk) w, []).
Proof.
  unfold off_handleOffer. run_M.
  destruct (socket (this w)) as [sid|].
  - by eexists.
  - exists (sockets w). by destruct w.
Qed.

Lemma resolve_spec pid v w :
  exists ps, resolve pid v w = (tt, with_promises (fun _ => ps) w, []).
Proof. unfold resolve, modify. by eexists. Qed.

Lemma handleOffer_runtime pid sender m w :
  exists sk ps, handleOffer pid sender m w = (tt, runtime_update sk ps w, []).
Proof.
  assert (Hid : exists sk ps, (tt, w, @nil Effect)
                              = (tt, runtime_update sk ps w, [])).
  { exists (sockets w), (promises w). by rewrite runtime_update_id. }
  unfold handleOffer.
  destruct (callData m) as [cd|]; [|exact Hid].
  destruct (offer cd) as [o|]; [|exact Hid].
  destruct (bool_decide (type m = VoiceCall)
            && bool_decide (senderId m = Some sender)); [|exact Hid].
  run_M.
  destruct (off_handleOffer_spec pid w) as [sk ->].
  destruct (resolve_spec pid (Some o) (with_sockets (fun _ => sk) w))
    as [ps ->].
  by exists sk, ps.
Qed.

Lemma run_listeners_runtime ls m w :
  exists sk ps, run_listeners ls m w = (tt, runtime_update sk ps w, []).
Proof.
  revert w. induction ls as [|[pid sender] ls IH]; intros w.
  - exists (sockets w), (promises w). by rewrite runtime_update_id.
  - cbn [run_listeners]. run_M.
    destruct (handleOffer_runtime pid sender m w) as (sk & ps & ->).
    destruct (IH (runtime_update sk ps w)) as (sk' & ps' & ->).
    exists sk', ps'. by rewrite runtime_update_twice.
Qed.

Lemma routed_type_string t : routed (type_string t) = content_type t.
Proof. by destruct t. Qed.

(** On a routed channel the session fields and the output are those of
    [handleMessage]; the transient listeners of [voice_call] add changes to
    sockets and promises only. *)
Lemma dispatch_routed env sid channel m w :
  routed channel = true ->
  exists sk ps,
    dispatch env sid channel m w
    = (tt, runtime_update sk ps (world_of (handleMessage env m w)),
       effects_of (handleMessage env m w)).
Proof.
  intros Hr. unfold dispatch.
  assert (Hsame : exists sk ps, handleMessage env m w
            = (tt, runtime_update sk ps (world_of (handleMessage env m w)),
               effects_of (handleMessage env m w))).
  { destruct (handleMessage env m w) as [[[] w1] o1].
    exists (sockets w1), (promises w1). run_M.
    by rewrite runtime_update_id. }
  case_bool_decide; [exact Hsame|].
  case_bool_decide.
  - run_M. destruct (handleMessage env m w) as [[[] w1] o1]. cbn.
    destruct (run_listeners_runtime
                match sockets w !! sid with
                | Some sk => offerListeners sk
                | None => []
                end m w1) as (sk & ps & ->).
    exists sk, ps. by rewrite app_nil_r.
  - case_bool_decide; [exact Hsame|].
    unfold routed in Hr. repeat case_bool_decide; done.
Qed.

Lemma dispatch_unrouted env sid channel m w :
  routed channel = false -> channel ≠ "typing" ->
  dispatch env sid channel m w = (tt, w, []).
Proof.
  intros Hr Ht. unfold dispatch, routed in *.
  repeat case_bool_decide; done.
Qed.

Lemma self_sent_true env m :
  senderId m = currentUser env -> type m ≠ Typing -> self_sent env m = true.
Proof.
  intros Hs Ht. unfold self_sent.
  by rewrite bool_decide_eq_true_2, bool_decide_eq_false_2.
Qed.

Lemma self_sent_typing env m : type m = Typing -> self_sent env m = false.
Proof.
  intros Ht. unfold self_sent.
  rewrite (bool_decide_eq_true_2 (type m = Typing)) by done.
  apply andb_false_r.
Qed.

Lemma self_sent_other env m :
  senderId m ≠ currentUser env -> self_sent env m = false.
Proof. intros Hs. unfold self_sent. by rewrite bool_decide_eq_false_2. Qed.

(** C2.  An event whose [senderId] is the local identity and whose type is
    not [Typing] is dropped by [handleMessage] before the dedup cache is
    looked at: nothing is notified and the session is unchanged, on the
    channel of its type and on every channel other than [typing].  A
    self-originated event of type [Typing] is not caught by that rule: the
    [typing] listener fans it out whenever its [receiverId] is the local
    identity, and [handleMessage] itself lets it through to the dedup
    check. *)
Theorem self_sent_events_dropped env sid m w :
  senderId m = currentUser env ->
  (type m ≠ Typing ->
     handleMessage env m w = (tt, w, [])
     /\ notifications (effects_of (receive env sid m w)) = []
     /\ this (world_of (receive env sid m w)) = this w
     /\ forall channel, channel ≠ "typing" ->
          notifications (effects_of (dispatch env sid channel m w)) = [])
  /\ (type m = Typing ->
        notifications (effects_of (receive env sid m w))
        = (if bool_decide (receiverId m = currentUser env)
           then fan_out m w else [])
        /\ (generateMessageId m ∉ messageSet (this w) ->
            notifications (effects_of (handleMessage env m w))
            = fan_out m w)).
Proof.
  intros Hs. split.
  - intros Ht.
    assert (Hh : handleMessage env m w = (tt, w, [])).
    { by rewrite handleMessage_spec, self_sent_true. }
    assert (Hd : forall channel, channel ≠ "typing" ->
               notifications (effects_of (dispatch env sid channel m w)) = []
               /\ this (world_of (dispatch env sid channel m w)) = this w).
    { intros channel Hc. destruct (routed channel) eqn:Hr.
      - destruct (dispatch_routed env sid channel m w Hr) as (sk & ps & ->).
        rewrite Hh. by run_M.
      - by rewrite dispatch_unrouted. }
    assert (Hc : type_string (type m) ≠ "typing").
    { by destruct (type m). }
    split; [exact Hh|]. unfold receive.
    split; [apply Hd, Hc|]. split; [apply Hd, Hc|].
    intros channel Hch. by apply Hd.
  - intros Ht. split.
    + unfold receive. rewrite Ht. cbn [type_string].
      rewrite dispatch_typing, on_typing_spec. run_M.
      case_bool_decide; [apply notifications_fan_out | reflexivity].
    + intros Hfresh.
      rewrite handleMessage_spec, self_sent_typing by done.
      rewrite bool_decide_eq_false_2 by done. run_M.
      apply notifications_fan_out.
Qed.

(** C1, as the code has it.  An inbound [Message], [VoiceCall] or
    [IceCandidate] event whose [senderId] is not the local identity and
    whose dedup key is not yet in the cache is fanned out once: the first
    delivery records the key and notifies every subscriber, the second
    finds the key, produces no output at all and leaves the session as it
    was; over both deliveries every subscriber is notified exactly once. *)
Theorem duplicate_delivered_once env sid m w :
  content_type (type m) = true ->
  senderId m ≠ currentUser env ->
  generateMessageId m ∉ messageSet (this w) ->
  let r1 := receive env sid m w in
  let r2 := receive env sid m (world_of r1) in
  notifications (effects_of r1) = fan_out m w
  /\ messageSet (this (world_of r1))
     = {[generateMessageId m]} ∪ messageSet (this w)
  /\ effects_of r2 = []
  /\ this (world_of r2) = this (world_of r1)
  /\ (NoDup (messageCallbacks (this w)) ->
      forall cb, cb ∈ messageCallbacks (this w) ->
        times_notified cb m (effects_of r1 ++ effects_of r2) = 1).
Proof.
  intros Hty Hs Hfresh. cbn zeta. unfold receive.
  assert (Hr : routed (type_string (type m)) = true).
  { by rewrite routed_type_string. }
  destruct (dispatch_routed env sid _ m w Hr) as (sk & ps & ->).
  assert (Hh : handleMessage env m w
               = (tt, record_key (generateMessageId m) w,
                  map (fun cb => Notify cb m) (messageCallbacks (this w)))).
  { rewrite handleMessage_spec, self_sent_other by done.
    by rewrite bool_decide_eq_false_2. }
  rewrite Hh. run_M.
  set (w1 := runtime_update sk ps (record_key (generateMessageId m) w)).
  destruct (dispatch_routed env sid _ m w1 Hr) as (sk' & ps' & ->).
  assert (Hh' : handleMessage env m w1 = (tt, w1, [])).
  { rewrite handleMessage_spec, self_sent_other by done.
    rewrite bool_decide_eq_true_2; [done|]. cbn. set_solver. }
  rewrite Hh'. run_M.
  split; [apply notifications_fan_out|]. split; [done|].
  split; [done|]. split; [done|].
  intros Hnd cb Hin. rewrite app_nil_r.
  eapply times_notified_fan_out; [apply notifications_fan_out|done..].
Qed.

(** *** The [connect] listener *)

Lemma on_connect_this env w :
  this (world_of (on_connect env w))
  = set_messageSet ∅
      (set_reconnectAttempts 0 (set_connectionState Connected (this w))).
Proof.
  unfold on_connect, socket_emit, notifyConnectionStatus, forEach_callback.
  run_M. run_updates.
  destruct (currentUser env) as [uid|]; [|reflexivity].
  destruct (socket (this w)) as [s|]; [|reflexivity].
  by destruct (emitRaises env).
Qed.

Lemma on_connect_notifications env w :
  notifications (effects_of (on_connect env w))
  = map (fun cb => (cb, statusMessage Connected (clock w)))
        (messageCallbacks (this w)).
Proof.
  unfold on_connect, socket_emit, notifyConnectionStatus, forEach_callback.
  run_M. run_updates.
  assert (Hn : notifications
            (map (fun cb => Notify cb (statusMessage Connected (clock w)))
                 (messageCallbacks (this w)))
          = map (fun cb => (cb, statusMessage Connected (clock w)))
                (messageCallbacks (this w))).
  { induction (messageCallbacks (this w)) as [|cb cbs IH]; [done|].
    cbn. by rewrite <- IH. }
  destruct (currentUser env) as [uid|]; cbn;
    [destruct (socket (this w)) as [s|]; cbn;
       [destruct (emitRaises env); cbn|]|];
    rewrite ?notifications_app, ?app_nil_r; cbn; rewrite ?app_nil_r;
    exact Hn.
Qed.

Lemma step_connect env sid sk w :
  sockets w !! sid = Some sk ->
  step env (TransportConnect sid) w
  = on_connect env (with_sockets (alter (set_connected true) sid) w).
Proof.
  intros Hsk. unfold step, on_socket. run_M. rewrite Hsk.
  by destruct (on_connect env _) as [[[] w1] o1].
Qed.

Lemma fresh_key_delivered env sid m w :
  content_type (type m) = true ->
  senderId m ≠ currentUser env ->
  generateMessageId m ∉ messageSet (this w) ->
  notifications (effects_of (receive env sid m w)) = fan_out m w.
Proof.
  intros Hty Hs Hfresh. unfold receive.
  assert (Hr : routed (type_string (type m)) = true).
  { by rewrite routed_type_string. }
  destruct (dispatch_routed env sid _ m w Hr) as (sk & ps & ->).
  rewrite handleMessage_spec, self_sent_other by done.
  rewrite bool_decide_eq_false_2 by done. run_M.
  apply notifications_fan_out.
Qed.

(** C4.  The [connect] event of a live socket leaves the dedup cache empty
    (and the state [Connected], the subscribers as they were).  Whatever
    was delivered before, any content event from another sender that
    arrives next is fanned out to every subscriber; in particular an event
    delivered in [w], followed by anything at all (a disconnection, say),
    is delivered again right after the next [connect]. *)
Theorem connect_clears_dedup_cache env sid sk w :
  sockets w !! sid = Some sk ->
  let w' := world_of (step env (TransportConnect sid) w) in
  messageSet (this w') = ∅
  /\ connectionState (this w') = Connected
  /\ messageCallbacks (this w') = messageCallbacks (this w)
  /\ (forall env' sid' m,
        content_type (type m) = true ->
        senderId m ≠ currentUser env' ->
        notifications (effects_of (receive env' sid' m w')) = fan_out m w')
  /\ (forall env0 m w0 tr,
        content_type (type m) = true ->
        senderId m ≠ currentUser env0 ->
        w = (run tr (world_of (receive env0 sid m w0))).1 ->
        notifications (effects_of (receive env0 sid m w')) = fan_out m w').
Proof.
  intros Hsk. cbn zeta. rewrite (step_connect env sid sk w Hsk).
  set (w1 := with_sockets (alter (set_connected true) sid) w).
  assert (Hset : messageSet (this (world_of (on_connect env w1))) = ∅).
  { by rewrite on_connect_this. }
  split; [exact Hset|]. split; [by rewrite on_connect_this|].
  split; [by rewrite on_connect_this|].
  split.
  - intros env' sid' m Hty Hs. apply fresh_key_delivered; [done..|].
    rewrite Hset. set_solver.
  - intros env0 m w0 tr Hty Hs _. apply fresh_key_delivered; [done..|].
    rewrite Hset. set_solver.
Qed.

(** *** [initializeConnection] up to the suspension *)

Lemma release_socket_spec w :
  release_socket w
  = match socket (this w) with
    | Some sid =>
        (tt, with_this (set_socket None) (with_sockets (delete sid) w),
         [Close sid])
    | None => (tt, w, [])
    end.
Proof.
  unfold release_socket, socket_close. run_M.
  by destruct (socket (this w)).
Qed.

Lemma initializeConnection_spec env w :
  initializeConnection env w
  = match currentUser env with
    | None => (Returned, w, [Console "No authenticated user"])
    | Some _ =>
        if socket_connected w
        then (Returned, w, [Console "Already connected"])
        else (Awaiting, start_connecting w,
              map (fun cb => Notify cb (statusMessage Connecting (clock w)))
                  (messageCallbacks (this w))
              ++ effects_of (release_socket
                    (with_this (set_connectionState Connecting) w)))
    end.
Proof.
  unfold initializeConnection, start_connecting.
  destruct (currentUser env) as [uid|]; [|reflexivity].
  run_M. destruct (socket_connected w); [reflexivity|].
  rewrite notifyConnectionStatus_spec.
  destruct (release_socket _) as [[[] w1] o1]. cbn.
  by rewrite !app_nil_r.
Qed.

Lemma emissions_release_socket w :
  emissions (effects_of (release_socket w)) = [].
Proof. rewrite release_socket_spec. by destruct (socket (this w)). Qed.

Lemma initializeConnection_emissions env w :
  emissions (effects_of (initializeConnection env w)) = [].
Proof.
  rewrite initializeConnection_spec.
  destruct (currentUser env); [|reflexivity].
  destruct (socket_connected w); [reflexivity|].
  unfold effects_of at 1. cbn [snd].
  by rewrite emissions_app, emissions_notify, emissions_release_socket.
Qed.

Lemma initializeConnection_connected env w :
  socket_connected w = true ->
  world_of (initializeConnection env w) = w
  /\ notifications (effects_of (initializeConnection env w)) = [].
Proof.
  intros Hc. rewrite initializeConnection_spec, Hc.
  by destruct (currentUser env).
Qed.

Lemma socket_connected_Some w :
  socket_connected w = true -> exists sid, socket (this w) = Some sid.
Proof.
  unfold socket_connected. destruct (socket (this w)); [eauto|done].
Qed.

Lemma socket_connected_record_key key w :
  socket_connected (record_key key w) = socket_connected w.
Proof. reflexivity. Qed.

(** *** [sendMessage] *)

Lemma sendMessage_disconnected env m w :
  socket_connected w = false ->
  sendMessage env m w
  = (Ok tt, world_of (initializeConnection env w),
     Console "Socket not connected, attempting to reconnect..."
     :: effects_of (initializeConnection env w)).
Proof.
  intros Hc. unfold sendMessage. run_M. rewrite Hc. cbn.
  destruct (initializeConnection env w) as [[st w1] o1]. cbn.
  by rewrite app_nil_r.
Qed.

Lemma sendMessage_connected env m sid w :
  socket_connected w = true ->
  socket (this w) = Some sid ->
  sendMessage env m w
  = if negb (bool_decide (generateMessageId m ∈ messageSet (this w)))
       || bool_decide (type m = Typing)
    then match emitRaises env with
         | None => (Ok tt, recorded m w, [Emit sid (type_string (type m)) m])
         | Some e =>
             (Ok tt, recorded m w,
              Console "Error sending message:"
              :: if bool_decide (connectionState (this w) = Connected)
                 then []
                 else effects_of (initializeConnection env (recorded m w)))
         end
    else (Ok tt, w, []).
Proof.
  intros Hc Hs.
  destruct w as [[s cbs st ra mra ms ty] sks tms ps ck su ns nt np].
  cbn in Hs. subst s.
  unfold sendMessage, socket_emit, recorded. run_M.
  rewrite Hc. cbn [negb this socket messageSet].
  destruct (negb (bool_decide (generateMessageId m ∈ ms))
            || bool_decide (type m = Typing)); [|reflexivity].
  destruct (bool_decide (type m = Typing)) eqn:Ht; cbn [negb].
  - destruct (emitRaises env) as [e|]; [|reflexivity].
    run_updates.
    destruct (bool_decide (st = Connected)); cbn [negb]; [reflexivity|].
    match goal with
    | |- context [initializeConnection env ?w0] =>
        destruct (initializeConnection_connected env w0 Hc) as [Hw _];
        destruct (initializeConnection env w0) as [[st' w1] o1]
    end.
    run_M. subst w1. by rewrite !app_nil_r.
  - destruct (emitRaises env) as [e|]; [|reflexivity].
    run_updates.
    destruct (bool_decide (st = Connected)); cbn [negb]; [reflexivity|].
    unfold record_key. run_updates.
    match goal with
    | |- context [initializeConnection env ?w0] =>
        destruct (initializeConnection_connected env w0 Hc) as [Hw _];
        destruct (initializeConnection env w0) as [[st' w1] o1]
    end.
    run_M. subst w1. by rewrite !app_nil_r.
Qed.

(** C7.  [sendMessage] always completes normally.  While the transport is
    connected and [emit] does not raise, an event that is not of type
    [Typing] is emitted, on the channel of its type, exactly when its dedup
    key is not in the cache, and the key is in the cache afterwards; an
    event of type [Typing] is always emitted and leaves the cache alone.
    The key is recorded before the transmission: when [emit] raises, the
    key is in the cache although nothing was emitted, and the exception
    stops in the handler.  While the transport is not connected nothing is
    emitted and the call is that of [initializeConnection]. *)
Theorem sendMessage_transmits_once env m w :
  let r := sendMessage env m w in
  let key := generateMessageId m in
  value_of r = Ok tt
  /\ (socket_connected w = false ->
        emissions (effects_of r) = []
        /\ world_of r = world_of (initializeConnection env w))
  /\ (socket_connected w = true ->
        exists sid, socket (this w) = Some sid
        /\ (emitRaises env = None -> type m ≠ Typing ->
              (key ∉ messageSet (this w) ->
                 effects_of r = [Emit sid (type_string (type m)) m]
                 /\ messageSet (this (world_of r))
                    = {[key]} ∪ messageSet (this w))
              /\ (key ∈ messageSet (this w) ->
                    effects_of r = [] /\ world_of r = w))
        /\ (emitRaises env = None -> type m = Typing ->
              effects_of r = [Emit sid "typing" m] /\ world_of r = w)
        /\ (forall e, emitRaises env = Some e ->
              emissions (effects_of r) = []
              /\ (type m ≠ Typing -> key ∈ messageSet (this (world_of r))))).
Proof.
  cbn zeta. split; [|split].
  - destruct (socket_connected w) eqn:Hc.
    + destruct (socket_connected_Some w Hc) as [sid Hs].
      rewrite (sendMessage_connected env m sid w Hc Hs).
      destruct (_ || _); [|reflexivity].
      by destruct (emitRaises env).
    + by rewrite sendMessage_disconnected.
  - intros Hc. rewrite sendMessage_disconnected by done. run_M.
    split; [|reflexivity]. cbn. apply initializeConnection_emissions.
  - intros Hc. destruct (socket_connected_Some w Hc) as [sid Hs].
    exists sid. split; [exact Hs|].
    rewrite (sendMessage_connected env m sid w Hc Hs).
    split; [|split].
    + intros He Ht. rewrite He. unfold recorded.
      rewrite (bool_decide_eq_false_2 (type m = Typing)) by done.
      rewrite orb_false_r. split; intros Hk.
      * rewrite bool_decide_eq_false_2 by done. by run_M.
      * rewrite bool_decide_eq_true_2 by done. by run_M.
    + intros He Ht. rewrite He. unfold recorded.
      rewrite (bool_decide_eq_true_2 (type m = Typing)) by done.
      rewrite orb_true_r, Ht. by run_M.
    + intros e He. rewrite He.
      destruct (bool_decide (generateMessageId m ∈ messageSet (this w)))
        eqn:Hk; cbn [negb orb].
      * apply bool_decide_eq_true_1 in Hk.
        destruct (bool_decide (type m = Typing)) eqn:Ht; run_M.
        -- split; [|intros Hne; by apply bool_decide_eq_true_1 in Ht].
           destruct (bool_decide (connectionState (this w) = Connected));
             [reflexivity|]. apply initializeConnection_emissions.
        -- done.
      * run_M. split.
        -- destruct (bool_decide (connectionState (this w) = Connected));
             [reflexivity|]. apply initializeConnection_emissions.
        -- intros Hne. unfold recorded.
           rewrite bool_decide_eq_false_2 by done.
           apply record_key_elem.
Qed.

(** *** [initializeConnection] after the suspension *)

Lemma initializeConnection_resume_failure env token error w :
  (token = Throw error
   \/ (exists tok, token = Ok tok) /\ currentUser env = None
      /\ error = TypeError "auth.currentUser is null") ->
  setup_failed error w (initializeConnection_resume env token w).
Proof.
  intros Hfail. unfold setup_failed.
  assert (Hbody : initializeConnection_resume env token w
            = (Throw error, with_this (set_connectionState Disconnected) w,
               Console "Error in initializeConnection:"
               :: map (fun cb => Notify cb
                         (statusMessage Disconnected (clock w)))
                      (messageCallbacks (this w)))).
  { unfold initializeConnection_resume, notifyConnectionStatus,
      forEach_callback. run_M.
    destruct Hfail as [->|([tok ->] & -> & ->)]; cbn;
      by rewrite ?app_nil_r. }
  rewrite Hbody. run_M. split; [done|]. split; [done|].
  cbn. apply (notifications_fan_out _ w).
Qed.

Lemma initializeConnection_resume_success env tok uid w :
  currentUser env = Some uid ->
  initializeConnection_resume env (Ok tok) w
  = (Ok tt,
     with_this (set_socket (Some (nextSocket w)))
       (with_sockets (insert (nextSocket w) (mkSocket false []))
          (with_nextSocket S w)),
     [Open (nextSocket w)
        (ioOptions tok uid (maxReconnectAttempts (this w)))]).
Proof.
  intros Hu. unfold initializeConnection_resume, io. run_M.
  by rewrite Hu.
Qed.

(** C8.  [initializeConnection] returns at once, with the world exactly as
    it was and nothing but a console line as output, when nobody is signed
    in or when the socket is connected.  When the setup that follows the
    suspension fails (the token promise is rejected, or the user is gone
    when [auth.currentUser.uid] is read), the [catch] block runs: the state
    becomes [Disconnected], every subscriber is notified of it, and the
    promise of [initializeConnection] is rejected with that same error. *)
Theorem initialize_noop_or_failure env w :
  (currentUser env = None \/ socket_connected w = true ->
     value_of (initializeConnection env w) = Returned
     /\ world_of (initializeConnection env w) = w
     /\ exists text, effects_of (initializeConnection env w) = [Console text])
  /\ (forall error,
        setup_failed error w
          (initializeConnection_resume env (Throw error) w))
  /\ (forall tok,
        currentUser env = None ->
        exists error,
          setup_failed error w
            (initializeConnection_resume env (Ok tok) w)).
Proof.
  split; [|split].
  - intros Hno. rewrite initializeConnection_spec.
    destruct (currentUser env) as [uid|]; [|by eauto].
    destruct Hno as [|Hc]; [done|]. rewrite Hc. by eauto.
  - intros error. apply initializeConnection_resume_failure. by left.
  - intros tok Hu. eexists.
    apply initializeConnection_resume_failure. right. by eauto.
Qed.

(** *** [close] *)

Lemma close_spec w :
  close w
  = (tt,
     with_this closed_service
       (with_sockets (drop_key (socket (this w)))
          (with_timers (drop_key (typingTimeoutId (this w))) w)),
     match socket (this w) with
     | Some sid => [Close sid]
     | None => []
     end).
Proof.
  destruct w as [[s cbs st ra mra ms ty] sks tms ps ck su ns nt np].
  unfold close, clearTimeout, release_socket, socket_close,
    notifyConnectionStatus, forEach_callback.
  run_M. run_updates.
  destruct ty as [tid|], s as [sid|]; reflexivity.
Qed.

(** C9.  After [close] the session is disconnected, has no socket, no
    typing timer, no subscriber and an empty dedup cache; a second [close]
    changes nothing at all and produces no output.  From there
    [initializeConnection] with a signed-in user does start a connection,
    and once the token arrives a new socket is opened. *)
Theorem close_idempotent w :
  let w1 := world_of (close w) in
  close w1 = (tt, w1, [])
  /\ this w1 = closed_service (this w)
  /\ (typing_timer_inv w -> forall tid, ~ typing_timer_pending w1 tid)
  /\ (forall env uid tok,
        currentUser env = Some uid ->
        let r1 := initializeConnection env w1 in
        let r2 := initializeConnection_resume env (Ok tok) (world_of r1) in
        value_of r1 = Awaiting
        /\ connectionState (this (world_of r1)) = Connecting
        /\ value_of r2 = Ok tt
        /\ socket (this (world_of r2)) = Some (nextSocket w1)
        /\ sockets (world_of r2) !! nextSocket w1 = Some (mkSocket false [])
        /\ effects_of r2
           = [Open (nextSocket w1)
                (ioOptions tok uid (maxReconnectAttempts (this w)))]).
Proof.
  cbn zeta. rewrite !close_spec. run_M.
  split; [|split; [|split]].
  - by destruct w as [[s cbs st ra mra ms ty] sks tms ps ck su ns nt np].
  - reflexivity.
  - intros Hinv tid (deadline & receiver & Hp). run_updates.
    destruct (typingTimeoutId (this w)) as [t|] eqn:Hty; cbn in Hp.
    + destruct (decide (t = tid)) as [->|Hne].
      * by rewrite lookup_delete_eq in Hp.
      * rewrite lookup_delete_ne in Hp by done.
        assert (Some t = Some tid) as [=]; [|done].
        rewrite <- Hty. apply Hinv. by exists deadline, receiver.
    + assert (@None nat = Some tid); [|done].
      rewrite <- Hty. apply Hinv. by exists deadline, receiver.
  - intros env uid tok Hu.
    rewrite initializeConnection_spec, Hu.
    unfold socket_connected. run_updates. rewrite release_socket_spec.
    run_updates. run_M.
    rewrite (initializeConnection_resume_success env tok uid _ Hu).
    run_updates. rewrite lookup_insert_eq. done.
Qed.

(** ** The worlds the handlers produce

    Each handler is rewritten as a function on worlds, so that the
    invariants of the event loop can be checked field by field. *)

Lemma off_handleOffer_world pid w :
  off_handleOffer pid w = (tt, off_world pid w, []).
Proof.
  unfold off_handleOffer, off_world. run_M. by destruct (socket (this w)).
Qed.

Lemma resolve_world_spec pid v w :
  resolve pid v w = (tt, resolve_world pid v w, []).
Proof. reflexivity. Qed.

Lemma handleOffer_spec pid sender m w :
  handleOffer pid sender m w = (tt, handleOffer_world pid sender m w, []).
Proof.
  unfold handleOffer, handleOffer_world, qualifying.
  destruct (callData m) as [cd|]; [|reflexivity].
  destruct (offer cd) as [o|]; [|reflexivity].
  destruct (_ && _); [|reflexivity].
  run_M. by rewrite off_handleOffer_world.
Qed.

Lemma run_listeners_spec ls m w :
  run_listeners ls m w = (tt, listeners_world ls m w, []).
Proof.
  revert w. induction ls as [|[pid sender] ls IH]; intros w; [reflexivity|].
  cbn [run_listeners listeners_world]. run_M.
  by rewrite handleOffer_spec, IH.
Qed.

Lemma handleMessage_world_spec env m w :
  world_of (handleMessage env m w) = handleMessage_world env m w.
Proof.
  rewrite handleMessage_spec. unfold handleMessage_world.
  destruct (self_sent env m); [reflexivity|]. by case_bool_decide.
Qed.

Lemma dispatch_world_spec env sid channel m w :
  world_of (dispatch env sid channel m w) = dispatch_world env sid channel m w.
Proof.
  unfold dispatch, dispatch_world, routed.
  rewrite <- handleMessage_world_spec.
  case_bool_decide as H1.
  { subst channel. by cbn. }
  case_bool_decide as H2.
  { run_M. destruct (handleMessage env m w) as [[[] w1] o1].
    cbn [fst snd]. by rewrite run_listeners_spec. }
  case_bool_decide as H3; [reflexivity|]. cbn [orb].
  case_bool_decide; [|reflexivity].
  rewrite on_typing_spec. by run_M.
Qed.

Lemma setTimeout_spec action delay w :
  setTimeout action delay w = (nextTimer w, arm action delay w, []).
Proof. reflexivity. Qed.

Lemma sendTypingIndicator_spec env receiver flag w :
  let w1 := clear_typing_timer w in
  sendTypingIndicator env receiver flag w
  = (tt, sendTypingIndicator_world env receiver flag w,
     effects_of (sendMessage env
        (typing_message (currentUser env) receiver flag (clock w1)) w1)).
Proof.
  cbn zeta.
  unfold sendTypingIndicator, sendTypingIndicator_world, clear_typing_timer,
    clearTimeout.
  run_M.
  destruct (typingTimeoutId (this w)) as [tid|]; cbn [fst snd].
  - destruct (sendMessage env _ _) as [[v w2] o2]. cbn [fst snd].
    destruct flag; cbn; by rewrite ?app_nil_r.
  - destruct (sendMessage env _ _) as [[v w2] o2]. cbn [fst snd].
    destruct flag; cbn; by rewrite ?app_nil_r.
Qed.

Lemma getLastOffer_spec sender w :
  getLastOffer sender w = (nextPromise w, getLastOffer_world sender w, []).
Proof.
  unfold getLastOffer, getLastOffer_world. run_M.
  change (socket_connected (with_nextPromise S w))
    with (socket_connected w).
  destruct (socket_connected w); cbn [negb]; [|reflexivity].
  change (socket (this (with_nextPromise S w))) with (socket (this w)).
  by destruct (socket (this w)).
Qed.

Lemma offer_timeout_spec pid w :
  offer_timeout pid w = (tt, offer_timeout_world pid w, []).
Proof. unfold offer_timeout. run_M. by rewrite off_handleOffer_world. Qed.

Lemma fire_world_spec env tid w :
  world_of (fire env tid w) = fire_world env tid w.
Proof.
  unfold fire, fire_world. run_M.
  destruct (timers w !! tid) as [[deadline action]|]; [|reflexivity].
  case_bool_decide; [|reflexivity].
  destruct action as [receiver|pid]; cbn [fst snd].
  - by rewrite sendTypingIndicator_spec.
  - by rewrite offer_timeout_spec.
Qed.

Lemma initializeConnection_world_spec env w :
  world_of (initializeConnection env w) = initializeConnection_world env w.
Proof.
  rewrite initializeConnection_spec. unfold initializeConnection_world.
  destruct (currentUser env); [|reflexivity].
  destruct (socket_connected w); [reflexivity|].
  unfold start_connecting. rewrite release_socket_spec. run_M.
  unfold release_world. run_updates. by destruct (socket (this w)).
Qed.

Lemma resume_world_spec env token w :
  world_of (initializeConnection_resume env token w)
  = resume_world env token w.
Proof.
  unfold resume_world. destruct token as [tok|e].
  - destruct (currentUser env) as [uid|] eqn:Hu.
    + by rewrite (initializeConnection_resume_success env tok uid w Hu).
    + edestruct (initializeConnection_resume_failure env (Ok tok)) as
        (_ & Hw & _); [right; eauto|exact Hw].
  - edestruct (initializeConnection_resume_failure env (Throw e)) as
      (_ & Hw & _); [left; eauto|exact Hw].
Qed.

Lemma sendMessage_world_spec env m w :
  world_of (sendMessage env m w) = sendMessage_world env m w.
Proof.
  unfold sendMessage_world. destruct (socket_connected w) eqn:Hc.
  - destruct (socket_connected_Some w Hc) as [sid Hs].
    rewrite (sendMessage_connected env m sid w Hc Hs).
    destruct (_ || _); [|reflexivity]. by destruct (emitRaises env).
  - rewrite sendMessage_disconnected by done.
    by rewrite <- initializeConnection_world_spec.
Qed.

Lemma on_connect_world env w : world_of (on_connect env w) = connect_world w.
Proof.
  unfold on_connect, socket_emit, notifyConnectionStatus, forEach_callback,
    connect_world.
  run_M. run_updates.
  destruct (currentUser env) as [uid|]; [|reflexivity].
  destruct (socket (this w)) as [s|]; [|reflexivity].
  by destruct (emitRaises env).
Qed.

Lemma on_disconnect_world w : world_of (on_disconnect w) = disconnect_world w.
Proof. reflexivity. Qed.

Lemma on_connect_error_world w :
  world_of (on_connect_error w) = disconnect_world w.
Proof. reflexivity. Qed.

Lemma step_world_spec env e w :
  world_of (step env e w) = step_world env e w.
Proof.
  destruct e; unfold step, step_world, on_socket; run_M.
  - rewrite <- initializeConnection_world_spec.
    by destruct (initializeConnection env w) as [[v w1] o1].
  - destruct (suspended w); [reflexivity|].
    rewrite <- resume_world_spec. cbn [fst snd].
    by destruct (initializeConnection_resume env token _) as [[v w1] o1].
  - destruct (sockets w !! sid); [|reflexivity].
    rewrite <- (on_connect_world env). cbn [fst snd].
    by destruct (on_connect env _) as [[v w1] o1].
  - destruct (sockets w !! sid); reflexivity.
  - destruct (sockets w !! sid); reflexivity.
  - destruct (sockets w !! sid); [|reflexivity].
    rewrite <- dispatch_world_spec.
    by destruct (dispatch env sid channel m w) as [[v w1] o1].
  - reflexivity.
  - reflexivity.
  - rewrite <- sendMessage_world_spec.
    by destruct (sendMessage env m w) as [[v w1] o1].
  - by rewrite sendTypingIndicator_spec.
  - by rewrite getLastOffer_spec.
  - by rewrite close_spec.
  - reflexivity.
  - by rewrite <- fire_world_spec.
Qed.

Lemma run_world_nil w : run_world [] w = w.
Proof. reflexivity. Qed.

Lemma run_world_cons env e tr w :
  run_world ((env, e) :: tr) w = run_world tr (step_world env e w).
Proof. unfold run_world. cbn. by rewrite step_world_spec. Qed.

Lemma run_world_app tr1 tr2 w :
  run_world (tr1 ++ tr2) w = run_world tr2 (run_world tr1 w).
Proof.
  revert w. induction tr1 as [|[env e] tr1 IH]; intros w; [reflexivity|].
  cbn [app]. by rewrite !run_world_cons, IH.
Qed.

(** ** The dedup cache only grows between a [connect] and a [close] *)

Lemma listeners_world_runtime ls m w :
  exists sk ps, listeners_world ls m w = runtime_update sk ps w.
Proof.
  destruct (run_listeners_runtime ls m w) as (sk & ps & H).
  rewrite run_listeners_spec in H. exists sk, ps. congruence.
Qed.

Lemma cache_initializeConnection env w :
  cache (initializeConnection_world env w) = cache w.
Proof.
  unfold initializeConnection_world, release_world, cache.
  destruct (currentUser env); [|reflexivity].
  destruct (socket_connected w); [reflexivity|].
  run_updates. by destruct (socket (this w)).
Qed.

Lemma cache_resume env token w : cache (resume_world env token w) = cache w.
Proof.
  unfold resume_world, cache.
  destruct token; [destruct (currentUser env)|]; reflexivity.
Qed.

Lemma cache_handleMessage env m w :
  cache w ⊆ cache (handleMessage_world env m w).
Proof.
  unfold handleMessage_world, cache.
  destruct (self_sent env m); [done|]. case_bool_decide; [done|].
  cbn. set_solver.
Qed.

Lemma cache_dispatch env sid channel m w :
  cache w ⊆ cache (dispatch_world env sid channel m w).
Proof.
  unfold dispatch_world. case_bool_decide.
  - destruct (listeners_world_runtime (listeners_on sid w) m
                (handleMessage_world env m w)) as (sk & ps & ->).
    apply cache_handleMessage.
  - destruct (routed channel); [apply cache_handleMessage|done].
Qed.

Lemma cache_recorded m w : cache w ⊆ cache (recorded m w).
Proof.
  unfold recorded, cache. case_bool_decide; [done|]. cbn. set_solver.
Qed.

Lemma cache_sendMessage env m w :
  cache w ⊆ cache (sendMessage_world env m w).
Proof.
  unfold sendMessage_world. destruct (socket_connected w).
  - destruct (_ || _); [apply cache_recorded|done].
  - by rewrite cache_initializeConnection.
Qed.

Lemma cache_clear_typing_timer w : cache (clear_typing_timer w) = cache w.
Proof.
  unfold clear_typing_timer, cache.
  by destruct (typingTimeoutId (this w)).
Qed.

Lemma cache_sendTypingIndicator env receiver flag w :
  cache w ⊆ cache (sendTypingIndicator_world env receiver flag w).
Proof.
  unfold sendTypingIndicator_world. cbn zeta.
  rewrite sendMessage_world_spec.
  rewrite <- (cache_clear_typing_timer w) at 1.
  destruct flag; [|apply cache_sendMessage].
  exact (cache_sendMessage env _ (clear_typing_timer w)).
Qed.

Lemma cache_getLastOffer sender w :
  cache (getLastOffer_world sender w) = cache w.
Proof.
  unfold getLastOffer_world, cache.
  destruct (socket_connected w); [|reflexivity].
  by destruct (socket (this w)).
Qed.

Lemma cache_off_world pid w : cache (off_world pid w) = cache w.
Proof. unfold off_world, cache. by destruct (socket (this w)). Qed.

Lemma cache_fire env tid w : cache w ⊆ cache (fire_world env tid w).
Proof.
  unfold fire_world.
  destruct (timers w !! tid) as [[deadline action]|]; [|done].
  case_bool_decide; [|done].
  destruct action as [receiver|pid].
  - etrans; [|apply cache_sendTypingIndicator]. done.
  - unfold offer_timeout_world, resolve_world.
    change (cache (with_promises _ ?w0)) with (cache w0).
    by rewrite cache_off_world.
Qed.

Lemma cache_step env e w :
  clearing e = false -> cache w ⊆ cache (step_world env e w).
Proof.
  intros Hc. destruct e; try discriminate Hc; unfold step_world.
  - by rewrite cache_initializeConnection.
  - destruct (suspended w); [done|]. by rewrite cache_resume.
  - by destruct (sockets w !! sid).
  - by destruct (sockets w !! sid).
  - destruct (sockets w !! sid); [apply cache_dispatch|done].
  - unfold onMessage, modify, world_of, cache. cbn.
    by case_bool_decide.
  - done.
  - apply cache_sendMessage.
  - apply cache_sendTypingIndicator.
  - by rewrite cache_getLastOffer.
  - done.
  - apply cache_fire.
Qed.

Lemma cache_run tr w :
  Forall (fun x => clearing x.2 = false) tr ->
  cache w ⊆ cache (run_world tr w).
Proof.
  revert w. induction tr as [|[env e] tr IH]; intros w Htr; [done|].
  apply Forall_cons in Htr as [He Htr]. rewrite run_world_cons.
  etrans; [by apply (cache_step env e)|]. by apply IH.
Qed.

Lemma cached_key_not_delivered env sid m w :
  type m ≠ Typing ->
  generateMessageId m ∈ cache w ->
  notifications (effects_of (receive env sid m w)) = [].
Proof.
  intros Ht Hk. unfold receive.
  destruct (content_type (type m)) eqn:Hc.
  - assert (Hr : routed (type_string (type m)) = true).
    { by rewrite routed_type_string. }
    destruct (dispatch_routed env sid _ m w Hr) as (sk & ps & ->).
    rewrite handleMessage_spec. run_M.
    destruct (self_sent env m); [reflexivity|].
    by rewrite bool_decide_eq_true_2.
  - rewrite dispatch_unrouted; [reflexivity| |].
    + by rewrite routed_type_string.
    + by destruct (type m).
Qed.

Lemma cached_key_not_sent env m w :
  type m ≠ Typing ->
  generateMessageId m ∈ cache w ->
  emissions (effects_of (sendMessage env m w)) = [].
Proof.
  intros Ht Hk. destruct (socket_connected w) eqn:Hc.
  - destruct (socket_connected_Some w Hc) as [sid Hs].
    rewrite (sendMessage_connected env m sid w Hc Hs).
    rewrite (bool_decide_eq_true_2 _ Hk).
    by rewrite (bool_decide_eq_false_2 _ Ht).
  - rewrite sendMessage_disconnected by done. run_M. cbn.
    apply initializeConnection_emissions.
Qed.

Lemma sent_key_cached env m w :
  socket_connected w = true -> type m ≠ Typing ->
  generateMessageId m ∈ cache (world_of (sendMessage env m w)).
Proof.
  intros Hc Ht. rewrite sendMessage_world_spec. unfold sendMessage_world.
  rewrite Hc. destruct (bool_decide (generateMessageId m ∈ messageSet (this w)))
    eqn:Hk; cbn [negb orb].
  - rewrite (bool_decide_eq_false_2 _ Ht).
    by apply bool_decide_eq_true_1 in Hk.
  - unfold recorded. rewrite (bool_decide_eq_false_2 _ Ht).
    apply record_key_elem.
Qed.

Lemma received_key_cached env sid m w :
  content_type (type m) = true -> self_sent env m = false ->
  generateMessageId m ∈ cache (world_of (receive env sid m w)).
Proof.
  intros Hc Hs. unfold receive.
  assert (Hr : routed (type_string (type m)) = true).
  { by rewrite routed_type_string. }
  destruct (dispatch_routed env sid _ m w Hr) as (sk & ps & ->).
  rewrite handleMessage_spec, Hs. run_M.
  case_bool_decide; [done|]. apply record_key_elem.
Qed.

Lemma cache_connect env sid sk w :
  sockets w !! sid = Some sk ->
  cache (step_world env (TransportConnect sid) w) = ∅.
Proof. intros Hsk. unfold step_world. by rewrite Hsk. Qed.

Lemma cache_close env w : cache (step_world env CloseSession w) = ∅.
Proof. reflexivity. Qed.

(** C10.  There is one set, [messageSet], behind both directions.  A
    non-typing event sent while connected leaves its key in the cache, and
    the key stays there through every event that is neither a [connect] nor
    a [close]; an inbound non-typing event with that key is then notified to
    nobody.  Conversely the key of an inbound content event that passed the
    self-sender rule is in the cache after its delivery, stays there in the
    same way, and a later [sendMessage] of a non-typing event with that key
    emits nothing.  A [connect] on a live socket and [close] empty the
    cache. *)
Theorem dedup_cache_shared :
  (forall env m w tr env' sid m',
     socket_connected w = true -> type m ≠ Typing ->
     Forall (fun x => clearing x.2 = false) tr ->
     generateMessageId m' = generateMessageId m -> type m' ≠ Typing ->
     let w' := run_world tr (world_of (sendMessage env m w)) in
     generateMessageId m ∈ cache w'
     /\ notifications (effects_of (receive env' sid m' w')) = [])
  /\ (forall env sid m w tr env' m',
        content_type (type m) = true -> self_sent env m = false ->
        Forall (fun x => clearing x.2 = false) tr ->
        generateMessageId m' = generateMessageId m -> type m' ≠ Typing ->
        let w' := run_world tr (world_of (receive env sid m w)) in
        generateMessageId m ∈ cache w'
        /\ emissions (effects_of (sendMessage env' m' w')) = [])
  /\ (forall env sid sk w,
        sockets w !! sid = Some sk ->
        cache (world_of (step env (TransportConnect sid) w)) = ∅)
  /\ (forall env w, cache (world_of (step env CloseSession w)) = ∅).
Proof.
  split; [|split; [|split]].
  - intros env m w tr env' sid m' Hc Ht Htr Hkey Ht'. cbn zeta.
    assert (Hk : generateMessageId m
                 ∈ cache (run_world tr (world_of (sendMessage env m w)))).
    { eapply cache_run; [done|]. by apply sent_key_cached. }
    split; [exact Hk|]. apply cached_key_not_delivered; [done|].
    by rewrite Hkey.
  - intros env sid m w tr env' m' Hc Hs Htr Hkey Ht'. cbn zeta.
    assert (Hk : generateMessageId m
                 ∈ cache (run_world tr (world_of (receive env sid m w)))).
    { eapply cache_run; [done|]. by apply received_key_cached. }
    split; [exact Hk|]. apply cached_key_not_sent; [done|].
    by rewrite Hkey.
  - intros env sid sk w Hsk. rewrite step_world_spec.
    by eapply cache_connect.
  - intros env w. rewrite step_world_spec. apply cache_close.
Qed.

(** ** Timers along the event loop *)

Lemma timer_view_runtime sk ps w :
  timer_view (runtime_update sk ps w) = timer_view w.
Proof. reflexivity. Qed.

Lemma timer_view_initializeConnection env w :
  timer_view (initializeConnection_world env w) = timer_view w.
Proof.
  unfold initializeConnection_world, release_world.
  destruct (currentUser env); [|reflexivity].
  destruct (socket_connected w); [reflexivity|].
  run_updates. by destruct (socket (this w)).
Qed.

Lemma timer_view_resume env token w :
  timer_view (resume_world env token w) = timer_view w.
Proof.
  unfold resume_world.
  destruct token; [destruct (currentUser env)|]; reflexivity.
Qed.

Lemma timer_view_handleMessage env m w :
  timer_view (handleMessage_world env m w) = timer_view w.
Proof.
  unfold handleMessage_world.
  destruct (self_sent env m); [reflexivity|]. by case_bool_decide.
Qed.

Lemma timer_view_dispatch env sid channel m w :
  timer_view (dispatch_world env sid channel m w) = timer_view w.
Proof.
  unfold dispatch_world. case_bool_decide.
  - destruct (listeners_world_runtime (listeners_on sid w) m
                (handleMessage_world env m w)) as (sk & ps & ->).
    rewrite timer_view_runtime. apply timer_view_handleMessage.
  - destruct (routed channel); [apply timer_view_handleMessage|done].
Qed.

Lemma timer_view_sendMessage env m w :
  timer_view (sendMessage_world env m w) = timer_view w.
Proof.
  unfold sendMessage_world, recorded. destruct (socket_connected w).
  - destruct (_ || _); [|reflexivity]. by case_bool_decide.
  - apply timer_view_initializeConnection.
Qed.

Lemma timer_view_off_world pid w : timer_view (off_world pid w) = timer_view w.
Proof. unfold off_world. by destruct (socket (this w)). Qed.

Lemma timer_view_offer_timeout pid w :
  timer_view (offer_timeout_world pid w) = timer_view w.
Proof.
  unfold offer_timeout_world, resolve_world.
  change (timer_view (with_promises _ ?w0)) with (timer_view w0).
  apply timer_view_off_world.
Qed.

Lemma timer_view_sendTypingIndicator env receiver flag w :
  timer_view (sendTypingIndicator_world env receiver flag w)
  = (arm_if flag (nextTimer w)
       ((clock w + 3000)%N, AutoClearTyping receiver)
       (drop_key (typingTimeoutId (this w)) (timers w)),
     if flag then S (nextTimer w) else nextTimer w,
     if flag then Some (nextTimer w) else None,
     clock w).
Proof.
  unfold sendTypingIndicator_world. cbn zeta.
  rewrite sendMessage_world_spec.
  assert (H1 : timer_view (clear_typing_timer w)
               = (drop_key (typingTimeoutId (this w)) (timers w),
                  nextTimer w, None, clock w)).
  { unfold clear_typing_timer.
    by destruct (typingTimeoutId (this w)) eqn:E;
      unfold timer_view; cbn; rewrite ?E. }
  pose proof (timer_view_sendMessage env
    (typing_message (currentUser env) receiver flag
       (clock (clear_typing_timer w))) (clear_typing_timer w)) as H2.
  rewrite H1 in H2. unfold timer_view in H2.
  injection H2 as Ht Hn Hy Hc.
  destruct flag; unfold timer_view, arm, arm_if; cbn;
    by rewrite ?Ht, ?Hn, ?Hy, ?Hc.
Qed.

Lemma timer_view_getLastOffer sender w :
  timer_view (getLastOffer_world sender w)
  = (arm_if (socket_connected w) (nextTimer w)
       ((clock w + 5000)%N, OfferTimeout (nextPromise w)) (timers w),
     if socket_connected w then S (nextTimer w) else nextTimer w,
     typingTimeoutId (this w), clock w).
Proof.
  unfold getLastOffer_world. cbn zeta.
  destruct (socket_connected w); [|reflexivity].
  by destruct (socket (this w)).
Qed.

Lemma timer_view_fire env tid w :
  timer_view (fire_world env tid w)
  = match timers w !! tid with
    | Some (deadline, action) =>
        if bool_decide (deadline ≤ clock w)%N then
          match action with
          | AutoClearTyping _ =>
              (drop_key (typingTimeoutId (this w)) (delete tid (timers w)),
               nextTimer w, None, clock w)
          | OfferTimeout _ =>
              (delete tid (timers w), nextTimer w,
               typingTimeoutId (this w), clock w)
          end
        else timer_view w
    | None => timer_view w
    end.
Proof.
  unfold fire_world.
  destruct (timers w !! tid) as [[deadline action]|]; [|reflexivity].
  case_bool_decide; [|reflexivity].
  destruct action as [receiver|pid].
  - by rewrite timer_view_sendTypingIndicator.
  - by rewrite timer_view_offer_timeout.
Qed.

Lemma timer_view_step env e w :
  match e with
  | SendTyping _ _ | GetLastOffer _ | CloseSession | Tick _ | TimerFires _ =>
      True
  | _ => timer_view (step_world env e w) = timer_view w
  end.
Proof.
  destruct e; try exact I; unfold step_world.
  - apply timer_view_initializeConnection.
  - destruct (suspended w); [reflexivity|]. by rewrite timer_view_resume.
  - by destruct (sockets w !! sid).
  - by destruct (sockets w !! sid).
  - by destruct (sockets w !! sid).
  - destruct (sockets w !! sid); [apply timer_view_dispatch|done].
  - unfold onMessage, modify, world_of, timer_view. cbn.
    by destruct (bool_decide _).
  - reflexivity.
  - apply timer_view_sendMessage.
Qed.

Lemma drop_key_lookup {A} (o : option nat) (tm : gmap nat A) tid x :
  drop_key o tm !! tid = Some x -> tm !! tid = Some x.
Proof.
  destruct o as [k|]; [|done]. cbn. intros H.
  destruct (decide (k = tid)) as [->|Hne].
  - by rewrite lookup_delete_eq in H.
  - by rewrite lookup_delete_ne in H.
Qed.

Lemma step_timer_view env e w :
  (forall tid x,
     timers (step_world env e w) !! tid = Some x ->
     timers w !! tid = Some x
     \/ (nextTimer w ≤ tid < nextTimer (step_world env e w))%nat)
  /\ (nextTimer w ≤ nextTimer (step_world env e w))%nat
  /\ (clock w ≤ clock (step_world env e w))%N.
Proof.
  pose proof (timer_view_step env e w) as Hv.
  assert (Hshape : forall tm' n' (ty' : option nat) c',
            timer_view (step_world env e w) = (tm', n', ty', c') ->
            (forall tid x, tm' !! tid = Some x ->
               timers w !! tid = Some x \/ (nextTimer w ≤ tid < n')%nat) ->
            (nextTimer w ≤ n')%nat -> (clock w ≤ c')%N ->
            (forall tid x,
               timers (step_world env e w) !! tid = Some x ->
               timers w !! tid = Some x
               \/ (nextTimer w ≤ tid < nextTimer (step_world env e w))%nat)
            /\ (nextTimer w ≤ nextTimer (step_world env e w))%nat
            /\ (clock w ≤ clock (step_world env e w))%N).
  { unfold timer_view. intros tm' n' ty' c' [= <- <- _ <-]. by auto. }
  assert (Hsame : timer_view (step_world env e w) = timer_view w ->
            (forall tid x,
               timers (step_world env e w) !! tid = Some x ->
               timers w !! tid = Some x
               \/ (nextTimer w ≤ tid < nextTimer (step_world env e w))%nat)
            /\ (nextTimer w ≤ nextTimer (step_world env e w))%nat
            /\ (clock w ≤ clock (step_world env e w))%N).
  { intros H. eapply Hshape; [exact H|by auto|lia..]. }
  destruct e; try (by apply Hsame); clear Hv Hsame; cbn [step_world] in *.
  - eapply Hshape; [apply timer_view_sendTypingIndicator| |destruct flag; lia|lia].
    intros tid x H. destruct flag; cbn in H.
    + destruct (decide (nextTimer w = tid)) as [<-|Hne]; [right; lia|].
      rewrite lookup_insert_ne in H by done.
      left. by eapply drop_key_lookup.
    + left. by eapply drop_key_lookup.
  - eapply Hshape; [apply timer_view_getLastOffer|
                    |destruct (socket_connected w); lia|lia].
    intros tid x H. destruct (socket_connected w); cbn in H; [|by left].
    destruct (decide (nextTimer w = tid)) as [<-|Hne]; [right; lia|].
    rewrite lookup_insert_ne in H by done. by left.
  - eapply Hshape; [reflexivity| |cbn; lia..].
    cbn. intros tid x H. left. by eapply drop_key_lookup.
  - eapply Hshape; [reflexivity| |cbn; lia..]. cbn. by auto.
  - pose proof (timer_view_fire env tid w) as Hv.
    destruct (timers w !! tid) as [[deadline action]|] eqn:E.
    + destruct (bool_decide (deadline ≤ clock w)%N).
      * destruct action as [receiver|pid];
          (eapply Hshape; [exact Hv| |lia..]); intros tid' x H; left.
        -- apply drop_key_lookup in H.
           destruct (decide (tid = tid')) as [->|Hne].
           ++ by rewrite lookup_delete_eq in H.
           ++ by rewrite lookup_delete_ne in H.
        -- destruct (decide (tid = tid')) as [->|Hne].
           ++ by rewrite lookup_delete_eq in H.
           ++ by rewrite lookup_delete_ne in H.
      * eapply Hshape; [exact Hv|by auto|lia..].
    + eapply Hshape; [exact Hv|by auto|lia..].
Qed.

Lemma step_nextTimer env e w :
  (nextTimer w ≤ nextTimer (step_world env e w))%nat.
Proof. apply step_timer_view. Qed.

Lemma step_clock env e w : (clock w ≤ clock (step_world env e w))%N.
Proof. apply step_timer_view. Qed.

Lemma timers_fresh_step env e w :
  timers_fresh w -> timers_fresh (step_world env e w).
Proof.
  intros Hf tid Hle.
  destruct (timers (step_world env e w) !! tid) as [x|] eqn:E; [|done].
  destruct (step_timer_view env e w) as (Ht & Hn & _).
  destruct (Ht tid x E) as [Hold|Hnew]; [|lia].
  rewrite Hf in Hold; [done|lia].
Qed.

Lemma run_timer_view tr w :
  (forall tid x,
     timers (run_world tr w) !! tid = Some x ->
     timers w !! tid = Some x \/ (nextTimer w ≤ tid)%nat)
  /\ (nextTimer w ≤ nextTimer (run_world tr w))%nat
  /\ (clock w ≤ clock (run_world tr w))%N.
Proof.
  revert w. induction tr as [|[env e] tr IH]; intros w.
  - rewrite run_world_nil. split; [by auto|]. split; lia.
  - rewrite run_world_cons.
    destruct (IH (step_world env e w)) as (Ht & Hn & Hc).
    destruct (step_timer_view env e w) as (Ht1 & Hn1 & Hc1).
    split; [|split; lia].
    intros tid x H. destruct (Ht tid x H) as [Hold|Hnew]; [|right; lia].
    destruct (Ht1 tid x Hold) as [Hold1|Hnew1]; [by left|right; lia].
Qed.

(** A handle below [nextTimer] with no pending timer never gets one. *)
Lemma cleared_timer_stays_cleared tr w tid :
  (tid < nextTimer w)%nat -> timers w !! tid = None ->
  timers (run_world tr w) !! tid = None.
Proof.
  intros Hlt Hnone.
  destruct (timers (run_world tr w) !! tid) as [x|] eqn:E; [|done].
  destruct (run_timer_view tr w) as (Ht & _).
  destruct (Ht tid x E) as [Hold|Hnew]; [congruence|lia].
Qed.

(** *** At most one auto-clear timer is pending *)

Lemma typing_timer_inv_view w :
  typing_timer_inv w
  <-> typing_timers_held (timer_view w).1.1.1 (timer_view w).1.2.
Proof.
  unfold typing_timer_inv, typing_timer_pending, typing_timers_held. cbn.
  split.
  - intros H tid deadline receiver Hp. apply H. eauto.
  - intros H tid (deadline & receiver & Hp). eauto.
Qed.

Lemma typing_timers_dropped tm ty ty' :
  typing_timers_held tm ty -> typing_timers_held (drop_key ty tm) ty'.
Proof.
  intros Hh tid deadline receiver Hp.
  pose proof (drop_key_lookup _ _ _ _ Hp) as Hold.
  apply Hh in Hold. subst ty. cbn in Hp.
  by rewrite lookup_delete_eq in Hp.
Qed.

Lemma typing_timers_deleted tm ty tid0 :
  typing_timers_held tm ty -> typing_timers_held (delete tid0 tm) ty.
Proof.
  intros Hh tid deadline receiver Hp.
  destruct (decide (tid0 = tid)) as [->|Hne].
  - by rewrite lookup_delete_eq in Hp.
  - rewrite lookup_delete_ne in Hp by done. eauto.
Qed.

Lemma typing_timer_inv_step env e w :
  typing_timer_inv w -> typing_timer_inv (step_world env e w).
Proof.
  rewrite !typing_timer_inv_view. intros Hinv.
  pose proof (timer_view_step env e w) as Hv.
  destruct e; try (by rewrite Hv); clear Hv; cbn [step_world].
  - rewrite timer_view_sendTypingIndicator. cbn [fst snd].
    intros tid deadline r Hp. destruct flag; cbn in Hp.
    + destruct (decide (nextTimer w = tid)) as [<-|Hne]; [done|].
      rewrite lookup_insert_ne in Hp by done.
      by apply (typing_timers_dropped _ _ (Some (nextTimer w)) Hinv) in Hp.
    + by apply (typing_timers_dropped _ _ None Hinv) in Hp.
  - rewrite timer_view_getLastOffer. cbn [fst snd].
    intros tid deadline r Hp.
    destruct (socket_connected w); cbn in Hp; [|eauto].
    destruct (decide (nextTimer w = tid)) as [<-|Hne].
    + by rewrite lookup_insert_eq in Hp.
    + rewrite lookup_insert_ne in Hp by done. eauto.
  - cbn. by apply typing_timers_dropped.
  - exact Hinv.
  - rewrite timer_view_fire.
    destruct (timers w !! tid) as [[deadline action]|]; [|exact Hinv].
    case_bool_decide; [|exact Hinv].
    destruct action as [receiver|pid]; cbn [fst snd].
    + intros tid' d r Hp.
      pose proof (drop_key_lookup _ _ _ _ Hp) as Hold.
      apply (typing_timers_deleted _ _ tid Hinv) in Hold.
      cbn in Hold. rewrite Hold in Hp. cbn in Hp.
      by rewrite lookup_delete_eq in Hp.
    + by apply typing_timers_deleted.
Qed.

Lemma typing_timer_inv_run tr w :
  typing_timer_inv w -> typing_timer_inv (run_world tr w).
Proof.
  revert w. induction tr as [|[env e] tr IH]; intros w Hinv; [done|].
  rewrite run_world_cons. by apply IH, typing_timer_inv_step.
Qed.

Lemma typing_timer_inv_fresh_world now : typing_timer_inv (fresh_world now).
Proof.
  intros tid (deadline & receiver & Hp). cbn in Hp.
  by rewrite lookup_empty in Hp.
Qed.

Lemma typing_timer_inv_new env now :
  typing_timer_inv (constructor env now).1.
Proof.
  unfold constructor. cbn [fst].
  rewrite initializeConnection_world_spec, typing_timer_inv_view.
  rewrite timer_view_initializeConnection. cbn.
  intros tid deadline receiver Hp. by rewrite lookup_empty in Hp.
Qed.

Lemma typing_timer_inv_reachable w :
  reachable w -> typing_timer_inv w.
Proof.
  induction 1 as [env now|env e w Hr IH].
  - apply typing_timer_inv_new.
  - rewrite step_world_spec. by apply typing_timer_inv_step.
Qed.

Lemma timers_fresh_reachable w : reachable w -> timers_fresh w.
Proof.
  induction 1 as [env now|env e w Hr IH].
  - unfold constructor. cbn [fst]. intros tid Hle.
    rewrite initializeConnection_world_spec in *.
    pose proof (timer_view_initializeConnection env (fresh_world now)) as Hv.
    unfold timer_view in Hv. injection Hv as -> _ _ _. apply lookup_empty.
  - rewrite step_world_spec. by apply timers_fresh_step.
Qed.

Lemma timer_view_fields w tm n ty c :
  timer_view w = (tm, n, ty, c) ->
  timers w = tm /\ nextTimer w = n /\ typingTimeoutId (this w) = ty
  /\ clock w = c.
Proof. unfold timer_view. by intros [= -> -> -> ->]. Qed.

Lemma sendTypingIndicator_world_spec env receiver flag w :
  world_of (sendTypingIndicator env receiver flag w)
  = sendTypingIndicator_world env receiver flag w.
Proof. by rewrite sendTypingIndicator_spec. Qed.

Lemma clock_clear_typing_timer w : clock (clear_typing_timer w) = clock w.
Proof. unfold clear_typing_timer. by destruct (typingTimeoutId (this w)). Qed.

Lemma clear_typing_timer_none w :
  typing_timer_inv w ->
  typingTimeoutId (this (clear_typing_timer w)) = None
  /\ forall tid, ~ typing_timer_pending (clear_typing_timer w) tid.
Proof.
  intros Hinv. split.
  - unfold clear_typing_timer.
    by destruct (typingTimeoutId (this w)) eqn:E.
  - intros tid (deadline & receiver & Hp).
    apply typing_timer_inv_view in Hinv.
    assert (Ht : timers (clear_typing_timer w)
                 = drop_key (typingTimeoutId (this w)) (timers w)).
    { unfold clear_typing_timer. by destruct (typingTimeoutId (this w)). }
    rewrite Ht in Hp.
    by apply (typing_timers_dropped _ _ None Hinv) in Hp.
Qed.

(** After a call the pending auto-clear timers are: the one just armed if
    [flag] is set, none otherwise. *)
Lemma sendTypingIndicator_pending env receiver flag w tid :
  typing_timer_inv w ->
  typing_timer_pending (sendTypingIndicator_world env receiver flag w) tid
  <-> flag = true /\ tid = nextTimer w.
Proof.
  intros Hinv.
  pose proof (typing_timer_inv_step env (SendTyping receiver flag) w Hinv)
    as Hinv'. cbn [step_world] in Hinv'.
  pose proof (timer_view_sendTypingIndicator env receiver flag w) as Hv.
  unfold timer_view in Hv. injection Hv as Ht Hn Hy Hc.
  split.
  - intros Hp. apply Hinv' in Hp. rewrite Hy in Hp.
    destruct flag; [|done]. by injection Hp as ->.
  - intros [-> ->]. exists (clock w + 3000)%N, receiver.
    rewrite Ht. cbn. apply lookup_insert_eq.
Qed.

Lemma fire_due env tid deadline action w :
  timers w !! tid = Some (deadline, action) ->
  (deadline ≤ clock w)%N ->
  fire env tid w
  = match action with
    | AutoClearTyping receiver =>
        sendTypingIndicator env receiver false (with_timers (delete tid) w)
    | OfferTimeout pid => offer_timeout pid (with_timers (delete tid) w)
    end.
Proof.
  intros Hp Hdue. unfold fire. run_M. rewrite Hp.
  rewrite bool_decide_eq_true_2 by done. cbn [fst snd].
  destruct action as [receiver|pid].
  - by destruct (sendTypingIndicator env receiver false _) as [[[] w1] o1].
  - by destruct (offer_timeout pid _) as [[[] w1] o1].
Qed.

Lemma fire_not_due env tid w :
  (forall deadline action,
     timers w !! tid = Some (deadline, action) -> (clock w < deadline)%N) ->
  fire env tid w = (tt, w, []).
Proof.
  intros Hnd. unfold fire. run_M.
  destruct (timers w !! tid) as [[deadline action]|] eqn:E; [|reflexivity].
  rewrite bool_decide_eq_false_2; [reflexivity|].
  specialize (Hnd deadline action eq_refl). lia.
Qed.

(** C6.  A call of [sendTypingIndicator] first clears the timer that
    [typingTimeoutId] holds, so that the typing event is sent from a world
    with no pending auto-clear timer; with [flag] set it then arms one timer
    due 3000 ms later, and afterwards exactly that timer is pending (none if
    [flag] is not set).  When the timer is due, firing it is the call
    [sendTypingIndicator receiver false].  If a second call with [flag] set
    happens, after any events at all, while less than 3000 ms have passed,
    the first timer has not been able to fire, is cleared by the second
    call and never fires afterwards: the timer of the second call is the
    only one left.  In every reachable world at most one auto-clear timer
    is pending. *)
Theorem typing_timer_debounced env receiver w :
  typing_timer_inv w ->
  let T1 := nextTimer w in
  let w1 := world_of (sendTypingIndicator env receiver true w) in
  (forall flag,
     let w0 := clear_typing_timer w in
     typingTimeoutId (this w0) = None
     /\ (forall tid, ~ typing_timer_pending w0 tid)
     /\ effects_of (sendTypingIndicator env receiver flag w)
        = effects_of (sendMessage env
            (typing_message (currentUser env) receiver flag (clock w)) w0)
     /\ (forall tid,
           typing_timer_pending
             (world_of (sendTypingIndicator env receiver flag w)) tid
           <-> flag = true /\ tid = T1))
  /\ timers w1 !! T1 = Some ((clock w + 3000)%N, AutoClearTyping receiver)
  /\ typingTimeoutId (this w1) = Some T1
  /\ (forall env' w',
        timers w' !! T1 = Some ((clock w + 3000)%N, AutoClearTyping receiver) ->
        (clock w + 3000 ≤ clock w')%N ->
        fire env' T1 w'
        = sendTypingIndicator env' receiver false
            (with_timers (delete T1) w'))
  /\ (forall tr env2,
        let w2 := run_world tr w1 in
        let w3 := world_of (sendTypingIndicator env2 receiver true w2) in
        (clock w2 < clock w + 3000)%N ->
        fire env2 T1 w2 = (tt, w2, [])
        /\ (forall tid, typing_timer_pending w3 tid <-> tid = nextTimer w2)
        /\ (T1 < nextTimer w2)%nat
        /\ timers w3 !! nextTimer w2
           = Some ((clock w2 + 3000)%N, AutoClearTyping receiver)
        /\ (forall tr' env3,
              timers (run_world tr' w3) !! T1 = None
              /\ fire env3 T1 (run_world tr' w3)
                 = (tt, run_world tr' w3, [])))
  /\ (forall w', reachable w' ->
        forall t1 t2,
          typing_timer_pending w' t1 -> typing_timer_pending w' t2 ->
          t1 = t2).
Proof.
  intros Hinv. cbn zeta.
  pose proof (timer_view_sendTypingIndicator env receiver true w) as Hv1.
  apply timer_view_fields in Hv1 as (Ht1 & Hn1 & Hy1 & Hc1).
  unfold arm_if in Ht1.
  assert (Hin1 : timers (sendTypingIndicator_world env receiver true w)
                 !! nextTimer w
                 = Some ((clock w + 3000)%N, AutoClearTyping receiver)).
  { rewrite Ht1. apply lookup_insert_eq. }
  split; [|split; [|split; [|split; [|split]]]].
  - intros flag. destruct (clear_typing_timer_none w Hinv) as [Hy0 Hp0].
    split; [exact Hy0|]. split; [exact Hp0|]. split.
    + pose proof (sendTypingIndicator_spec env receiver flag w) as Hs.
      cbn zeta in Hs. rewrite Hs, clock_clear_typing_timer. by run_M.
    + intros tid. rewrite sendTypingIndicator_world_spec.
      by apply sendTypingIndicator_pending.
  - by rewrite sendTypingIndicator_world_spec.
  - by rewrite sendTypingIndicator_world_spec.
  - intros env' w' Hp Hdue.
    by rewrite (fire_due env' _ _ _ w' Hp Hdue).
  - intros tr env2 Hsoon.
    rewrite !sendTypingIndicator_world_spec in *.
    set (w1 := sendTypingIndicator_world env receiver true w) in *.
    set (w2 := run_world tr w1) in *.
    assert (Hinv2 : typing_timer_inv w2).
    { apply typing_timer_inv_run.
      apply (typing_timer_inv_step env (SendTyping receiver true) w Hinv). }
    destruct (run_timer_view tr w1) as (Htr & Hntr & Hctr).
    fold w2 in Htr, Hntr, Hctr.
    assert (Hlt : (nextTimer w < nextTimer w2)%nat) by lia.
    pose proof (timer_view_sendTypingIndicator env2 receiver true w2) as Hv3.
    apply timer_view_fields in Hv3 as (Ht3 & Hn3 & Hy3 & Hc3).
    unfold arm_if in Ht3.
    set (w3 := sendTypingIndicator_world env2 receiver true w2) in *.
    split; [|split; [|split; [|split]]].
    + apply fire_not_due. intros deadline action Hp.
      destruct (Htr _ _ Hp) as [Hold|Hnew]; [|lia].
      rewrite Hin1 in Hold. injection Hold as <- _. lia.
    + intros tid. unfold w3.
      rewrite (sendTypingIndicator_pending env2 receiver true w2 tid Hinv2).
      split; [by intros [_ ->]|by intros ->].
    + exact Hlt.
    + rewrite Ht3. apply lookup_insert_eq.
    + assert (Hgone : timers w3 !! nextTimer w = None).
      { rewrite Ht3, lookup_insert_ne by lia.
        destruct (drop_key (typingTimeoutId (this w2)) (timers w2)
                  !! nextTimer w) as [[d a]|] eqn:E; [|done].
        pose proof (drop_key_lookup _ _ _ _ E) as Hold.
        destruct (Htr _ _ Hold) as [Hw1|Hnew]; [|lia].
        rewrite Hin1 in Hw1. injection Hw1 as <- <-.
        apply typing_timer_inv_view in Hinv2.
        by apply (typing_timers_dropped _ _ None Hinv2) in E. }
      intros tr' env3.
      assert (Hnone : timers (run_world tr' w3) !! nextTimer w = None).
      { apply cleared_timer_stays_cleared; [lia|exact Hgone]. }
      split; [exact Hnone|]. apply fire_not_due.
      intros deadline action Hp. congruence.
  - intros w' Hr t1 t2 H1 H2.
    pose proof (typing_timer_inv_reachable w' Hr) as Hinv'.
    apply Hinv' in H1. apply Hinv' in H2. congruence.
Qed.

(** ** Promises settle once *)

Lemma extends_refl ps : extends ps ps.
Proof. by intros pid v. Qed.

#[local] Hint Resolve extends_refl : core.

Lemma extends_trans ps1 ps2 ps3 :
  extends ps1 ps2 -> extends ps2 ps3 -> extends ps1 ps3.
Proof. intros H1 H2 pid v H. by apply H2, H1. Qed.

Lemma extends_settle pid v ps : extends ps (settle pid v ps).
Proof.
  intros p x H. unfold settle.
  destruct (ps !! pid) eqn:E; [done|].
  rewrite lookup_insert_ne; [done|]. congruence.
Qed.

Lemma settle_lookup pid v ps :
  settle pid v ps !! pid = Some (default v (ps !! pid)).
Proof.
  unfold settle. destruct (ps !! pid) eqn:E; [by rewrite E|].
  by rewrite lookup_insert_eq.
Qed.

Lemma settle_lookup_ne pid p v ps :
  pid ≠ p -> settle pid v ps !! p = ps !! p.
Proof.
  intros Hne. unfold settle. destruct (ps !! pid); [done|].
  by rewrite lookup_insert_ne.
Qed.

Ltac frame :=
  unfold initializeConnection_world, release_world, resume_world,
    sendMessage_world, recorded, record_key, handleMessage_world,
    clear_typing_timer, connect_world, disconnect_world, close_world, arm,
    off_world, onMessage, unsubscribe, modify, world_of;
  cbn [fst snd]; repeat case_match; reflexivity.

Lemma promises_off_world pid w : promises (off_world pid w) = promises w.
Proof. frame. Qed.

Lemma promises_handleOffer pid sender m w :
  extends (promises w) (promises (handleOffer_world pid sender m w)).
Proof.
  unfold handleOffer_world. destruct (qualifying sender m); [|done].
  unfold resolve_world. cbn. rewrite promises_off_world.
  apply extends_settle.
Qed.

Lemma promises_listeners ls m w :
  extends (promises w) (promises (listeners_world ls m w)).
Proof.
  revert w. induction ls as [|[pid sender] ls IH]; intros w; [done|].
  cbn [listeners_world].
  eapply extends_trans; [apply promises_handleOffer|apply IH].
Qed.

Lemma promises_handleMessage env m w :
  promises (handleMessage_world env m w) = promises w.
Proof. frame. Qed.

Lemma promises_dispatch env sid channel m w :
  extends (promises w) (promises (dispatch_world env sid channel m w)).
Proof.
  unfold dispatch_world. case_bool_decide.
  - rewrite <- (promises_handleMessage env m w) at 1.
    apply promises_listeners.
  - destruct (routed channel); [by rewrite promises_handleMessage|done].
Qed.

Lemma promises_initializeConnection env w :
  promises (initializeConnection_world env w) = promises w.
Proof. frame. Qed.

Lemma promises_sendMessage env m w :
  promises (sendMessage_world env m w) = promises w.
Proof.
  unfold sendMessage_world. destruct (socket_connected w).
  - frame.
  - apply promises_initializeConnection.
Qed.

Lemma promises_sendTypingIndicator env receiver flag w :
  promises (sendTypingIndicator_world env receiver flag w) = promises w.
Proof.
  unfold sendTypingIndicator_world. cbn zeta.
  rewrite sendMessage_world_spec.
  assert (H : promises (clear_typing_timer w) = promises w) by frame.
  rewrite <- H.
  destruct flag; [|apply promises_sendMessage].
  exact (promises_sendMessage env _ (clear_typing_timer w)).
Qed.

Lemma promises_getLastOffer sender w :
  promises (getLastOffer_world sender w)
  = if socket_connected w then promises w
    else settle (nextPromise w) None (promises w).
Proof.
  unfold getLastOffer_world. cbn zeta.
  destruct (socket_connected w); [|reflexivity].
  by destruct (socket (this w)).
Qed.

Lemma promises_offer_timeout pid w :
  promises (offer_timeout_world pid w) = settle pid None (promises w).
Proof.
  unfold offer_timeout_world, resolve_world. cbn.
  by rewrite promises_off_world.
Qed.

Lemma promises_fire env tid w :
  extends (promises w) (promises (fire_world env tid w)).
Proof.
  unfold fire_world.
  destruct (timers w !! tid) as [[deadline action]|]; [|done].
  case_bool_decide; [|done].
  destruct action as [receiver|pid].
  - by rewrite promises_sendTypingIndicator.
  - rewrite promises_offer_timeout. apply extends_settle.
Qed.

Lemma promises_step env e w :
  extends (promises w) (promises (step_world env e w)).
Proof.
  destruct e; unfold step_world.
  - by rewrite promises_initializeConnection.
  - destruct (suspended w); [done|]. unfold resume_world.
    by repeat case_match.
  - by destruct (sockets w !! sid).
  - by destruct (sockets w !! sid).
  - by destruct (sockets w !! sid).
  - destruct (sockets w !! sid); [apply promises_dispatch|done].
  - assert (H : promises (world_of (onMessage cb w)) = promises w) by frame.
    by rewrite H.
  - done.
  - by rewrite promises_sendMessage.
  - by rewrite promises_sendTypingIndicator.
  - rewrite promises_getLastOffer.
    destruct (socket_connected w); [done|apply extends_settle].
  - done.
  - done.
  - apply promises_fire.
Qed.

Lemma promises_run tr w : extends (promises w) (promises (run_world tr w)).
Proof.
  revert w. induction tr as [|[env e] tr IH]; intros w; [done|].
  rewrite run_world_cons.
  eapply extends_trans; [apply promises_step|apply IH].
Qed.

(** ** A pending [getLastOffer]

    The call that owns promise [pid] waits for [sender]; its listener sits
    on socket [sid] and its timeout is the timer [tid], due at
    [deadline]. *)

Section WaitingSteps.

Context (pid : nat) (sender : string) (sid tid : nat) (deadline : N).

Abbreviation waits := (waiting pid sender sid tid deadline).
Abbreviation listens := (listening pid sender sid).
Abbreviation times := (timing pid tid deadline).

Lemma waiting_intro w :
  socket (this w) = Some sid -> listens (sockets w) ->
  promises w !! pid = None -> (pid < nextPromise w)%nat ->
  times (timers w) -> (tid < nextTimer w)%nat ->
  typingTimeoutId (this w) ≠ Some tid -> waits w.
Proof. by unfold waiting. Qed.

Lemma listening_connected sks b sid' :
  b = true \/ sid' ≠ sid ->
  listens sks -> listens (alter (set_connected b) sid' sks).
Proof.
  intros Hb [(sk & Hsk & Hc & Hin) Huniq]. split.
  - destruct (decide (sid' = sid)) as [->|Hne].
    + exists (set_connected b sk). rewrite lookup_alter_eq, Hsk.
      split; [done|]. destruct Hb as [->|]; done.
    + exists sk. by rewrite lookup_alter_ne.
  - intros s sk' s' Hl Hin'.
    destruct (decide (sid' = s)) as [->|Hne].
    + rewrite lookup_alter_eq in Hl.
      destruct (sks !! s) as [sk0|] eqn:E; [|done].
      injection Hl as <-. by eapply Huniq.
    + rewrite lookup_alter_ne in Hl by done. by eapply Huniq.
Qed.

Lemma listening_remove sks pid' sid' :
  pid' ≠ pid ->
  listens sks -> listens (alter (remove_listener pid') sid' sks).
Proof.
  intros Hp [(sk & Hsk & Hc & Hin) Huniq]. split.
  - destruct (decide (sid' = sid)) as [->|Hne].
    + exists (remove_listener pid' sk). rewrite lookup_alter_eq, Hsk.
      split; [done|]. split; [done|]. cbn.
      apply list_elem_of_filter. split; [cbn; congruence|done].
    + exists sk. by rewrite lookup_alter_ne.
  - intros s sk' s' Hl Hin'.
    destruct (decide (sid' = s)) as [->|Hne].
    + rewrite lookup_alter_eq in Hl.
      destruct (sks !! s) as [sk0|] eqn:E; [|done].
      injection Hl as <-. cbn in Hin'.
      apply list_elem_of_filter in Hin' as [_ Hin'']. by eapply Huniq.
    + rewrite lookup_alter_ne in Hl by done. by eapply Huniq.
Qed.

Lemma listening_add sks pid' s0 sid' :
  pid' ≠ pid ->
  listens sks -> listens (alter (add_listener pid' s0) sid' sks).
Proof.
  intros Hp [(sk & Hsk & Hc & Hin) Huniq]. split.
  - destruct (decide (sid' = sid)) as [->|Hne].
    + exists (add_listener pid' s0 sk). rewrite lookup_alter_eq, Hsk.
      split; [done|]. split; [done|]. cbn. set_solver.
    + exists sk. by rewrite lookup_alter_ne.
  - intros s sk' s' Hl Hin'.
    destruct (decide (sid' = s)) as [->|Hne].
    + rewrite lookup_alter_eq in Hl.
      destruct (sks !! s) as [sk0|] eqn:E; [|done].
      injection Hl as <-. cbn in Hin'.
      apply elem_of_app in Hin' as [Hin'|Hin'].
      * by eapply Huniq.
      * apply list_elem_of_singleton in Hin'. congruence.
    + rewrite lookup_alter_ne in Hl by done. by eapply Huniq.
Qed.

Lemma timing_drop_key ty tm :
  ty ≠ Some tid -> times tm -> times (drop_key ty tm).
Proof.
  intros Hty [Ht Huniq]. split.
  - destruct ty as [t|]; [|done]. cbn.
    rewrite lookup_delete_ne; [done|congruence].
  - intros tid' d H. apply drop_key_lookup in H. by eapply Huniq.
Qed.

Lemma timing_delete tid' tm :
  tid' ≠ tid -> times tm -> times (delete tid' tm).
Proof.
  intros Hne Ht. apply (timing_drop_key (Some tid')); [congruence|done].
Qed.

Lemma timing_insert nt d a tm :
  nt ≠ tid -> a ≠ OfferTimeout pid ->
  times tm -> times (<[nt := (d, a)]> tm).
Proof.
  intros Hne Ha [Ht Huniq]. split.
  - by rewrite lookup_insert_ne.
  - intros tid' d' H. destruct (decide (nt = tid')) as [->|Hne'].
    + rewrite lookup_insert_eq in H. congruence.
    + rewrite lookup_insert_ne in H by done. by eapply Huniq.
Qed.

Lemma waiting_connected w : waits w -> socket_connected w = true.
Proof.
  intros (Hs & [(sk & Hsk & Hc & _) _] & _).
  unfold socket_connected. by rewrite Hs, Hsk.
Qed.

Lemma waiting_initializeConnection env w :
  waits w -> initializeConnection_world env w = w.
Proof.
  intros Hw. unfold initializeConnection_world.
  rewrite (waiting_connected w Hw). by destruct (currentUser env).
Qed.

(** Updates of the session fields that the waiting call does not read. *)
Lemma waiting_with_this f w :
  socket (f (this w)) = socket (this w) ->
  typingTimeoutId (f (this w)) = typingTimeoutId (this w) ->
  waits w -> waits (with_this f w).
Proof.
  intros Hs Hy (H1 & H2 & H3 & H4 & H5 & H6 & H7).
  apply waiting_intro; cbn; try done; congruence.
Qed.

Lemma waiting_handleMessage env m w :
  waits w -> waits (handleMessage_world env m w).
Proof.
  intros Hw. unfold handleMessage_world.
  destruct (self_sent env m); [done|]. case_bool_decide; [done|].
  by apply waiting_with_this.
Qed.

Lemma waiting_with_sockets f w :
  (listens (sockets w) -> listens (f (sockets w))) ->
  waits w -> waits (with_sockets f w).
Proof.
  intros Hf (H1 & H2 & H3 & H4 & H5 & H6 & H7).
  apply waiting_intro; cbn; by auto.
Qed.

Lemma waiting_settle pid' v w :
  pid' ≠ pid -> waits w -> waits (resolve_world pid' v w).
Proof.
  intros Hne (H1 & H2 & H3 & H4 & H5 & H6 & H7).
  apply waiting_intro; cbn; try done. by rewrite settle_lookup_ne.
Qed.

Lemma waiting_off_world pid' w :
  pid' ≠ pid -> waits w -> waits (off_world pid' w).
Proof.
  intros Hne Hw. unfold off_world.
  destruct (socket (this w)); [|done].
  apply waiting_with_sockets; [|done]. by apply listening_remove.
Qed.

Lemma waiting_handleOffer pid' s' m w :
  (is_Some (qualifying s' m) -> pid' ≠ pid) ->
  waits w -> waits (handleOffer_world pid' s' m w).
Proof.
  intros Hq Hw. unfold handleOffer_world.
  destruct (qualifying s' m) as [o|]; [|done].
  assert (pid' ≠ pid) by (apply Hq; eauto).
  by apply waiting_settle, waiting_off_world.
Qed.

Lemma waiting_listeners ls m w :
  (forall p s, (p, s) ∈ ls -> is_Some (qualifying s m) -> p ≠ pid) ->
  waits w -> waits (listeners_world ls m w).
Proof.
  revert w. induction ls as [|[p s] ls IH]; intros w Hls Hw; [done|].
  cbn [listeners_world]. apply IH.
  - intros p' s' Hin. apply Hls. by right.
  - apply waiting_handleOffer; [|done]. apply Hls. by left.
Qed.

Lemma waiting_dispatch env sid' channel m w :
  negb (bool_decide (channel = "voice_call")
        && bool_decide (is_Some (qualifying sender m))) = true ->
  waits w -> waits (dispatch_world env sid' channel m w).
Proof.
  intros Hq Hw. unfold dispatch_world.
  case_bool_decide as Hch.
  - cbn in Hq. apply negb_true_iff, bool_decide_eq_false_1 in Hq.
    apply waiting_listeners; [|by apply waiting_handleMessage].
    intros p s Hin Hqual ->.
    destruct Hw as (_ & [_ Huniq] & _).
    unfold listeners_on in Hin.
    destruct (sockets w !! sid') as [sk'|] eqn:E;
      [|by apply elem_of_nil in Hin].
    assert (s = sender) as -> by (by eapply Huniq). done.
  - destruct (routed channel); [by apply waiting_handleMessage|done].
Qed.

Lemma waiting_sendMessage env m w :
  waits w -> waits (sendMessage_world env m w).
Proof.
  intros Hw. unfold sendMessage_world.
  rewrite (waiting_connected w Hw).
  destruct (_ || _); [|done]. unfold recorded.
  case_bool_decide; [done|]. by apply waiting_with_this.
Qed.

Lemma waiting_clear_typing_timer w :
  waits w ->
  waits (clear_typing_timer w)
  /\ nextTimer (clear_typing_timer w) = nextTimer w.
Proof.
  intros Hw. unfold clear_typing_timer.
  destruct (typingTimeoutId (this w)) as [t|] eqn:E; [|done].
  split; [|done].
  destruct Hw as (H1 & H2 & H3 & H4 & H5 & H6 & H7).
  apply waiting_intro; cbn; try done.
  apply timing_delete; [congruence|done].
Qed.

Lemma waiting_arm action delay w :
  action ≠ OfferTimeout pid ->
  waits w -> waits (arm action delay w).
Proof.
  intros Ha (H1 & H2 & H3 & H4 & H5 & H6 & H7).
  apply waiting_intro; unfold arm; cbn; try done.
  - apply timing_insert; [lia|done|done].
  - lia.
Qed.

Lemma nextTimer_sendMessage env m w :
  nextTimer (sendMessage_world env m w) = nextTimer w.
Proof.
  pose proof (timer_view_sendMessage env m w) as Hv.
  by apply timer_view_fields in Hv as (_ & Hn & _).
Qed.

Lemma waiting_sendTypingIndicator env receiver flag w :
  waits w -> waits (sendTypingIndicator_world env receiver flag w).
Proof.
  intros Hw. unfold sendTypingIndicator_world. cbn zeta.
  rewrite sendMessage_world_spec.
  destruct (waiting_clear_typing_timer w Hw) as [Hw1 Hn1].
  set (w1 := clear_typing_timer w) in *.
  set (msg := typing_message _ _ _ _).
  pose proof (waiting_sendMessage env msg w1 Hw1) as Hw2.
  destruct flag; [|done].
  pose proof (waiting_arm (AutoClearTyping receiver) 3000 _
                ltac:(done) Hw2) as Hw3.
  destruct Hw3 as (H1 & H2 & H3 & H4 & H5 & H6 & H7).
  apply waiting_intro; cbn; try done.
  destruct Hw2 as (_ & _ & _ & _ & _ & Hlt & _).
  intros [= Heq]. lia.
Qed.

Lemma waiting_getLastOffer s' w :
  waits w -> waits (getLastOffer_world s' w).
Proof.
  intros Hw. unfold getLastOffer_world. cbn zeta.
  rewrite (waiting_connected w Hw).
  assert (Hp : nextPromise w ≠ pid).
  { destruct Hw as (_ & _ & _ & Hlt & _). lia. }
  apply waiting_arm; [congruence|].
  assert (Hw1 : waits (with_nextPromise S w)).
  { destruct Hw as (H1 & H2 & H3 & H4 & H5 & H6 & H7).
    apply waiting_intro; cbn; try done. lia. }
  change (socket (this w)) with (socket (this (with_nextPromise S w))).
  destruct (socket (this (with_nextPromise S w))); [|done].
  apply waiting_with_sockets; [|done]. by apply listening_add.
Qed.

Lemma waiting_delete_timer tid' w :
  tid' ≠ tid -> waits w -> waits (with_timers (delete tid') w).
Proof.
  intros Hne (H1 & H2 & H3 & H4 & H5 & H6 & H7).
  apply waiting_intro; cbn; try done. by apply timing_delete.
Qed.

Lemma waiting_fire env tid' w :
  tid' ≠ tid -> waits w -> waits (fire_world env tid' w).
Proof.
  intros Hne Hw. unfold fire_world.
  destruct (timers w !! tid') as [[d action]|] eqn:E; [|done].
  case_bool_decide; [|done].
  pose proof (waiting_delete_timer tid' w Hne Hw) as Hw1.
  destruct action as [receiver|pid'].
  - by apply waiting_sendTypingIndicator.
  - assert (pid' ≠ pid).
    { intros ->. destruct Hw as (_ & _ & _ & _ & [_ Huniq] & _).
      apply Hne. by eapply Huniq. }
    unfold offer_timeout_world. by apply waiting_settle, waiting_off_world.
Qed.

Lemma waiting_step env e w :
  quiet sender sid tid (env, e) = true ->
  waits w -> waits (step_world env e w).
Proof.
  intros Hq Hw. destruct e; cbn in Hq; try discriminate Hq;
    unfold step_world.
  - by rewrite waiting_initializeConnection.
  - destruct (sockets w !! sid0); [|done].
    apply (waiting_with_this _ (with_sockets _ w)); [done..|].
    apply waiting_with_sockets; [|done].
    apply listening_connected. by left.
  - destruct (sockets w !! sid0); [|done].
    apply negb_true_iff, bool_decide_eq_false_1 in Hq.
    apply (waiting_with_this _ (with_sockets _ w)); [done..|].
    apply waiting_with_sockets; [|done].
    apply listening_connected. by right.
  - destruct (sockets w !! sid0); [|done]. by apply waiting_with_this.
  - destruct (sockets w !! sid0); [|done]. by apply waiting_dispatch.
  - unfold onMessage, modify, world_of. cbn [fst snd].
    apply waiting_with_this; [by case_bool_decide..|done].
  - unfold unsubscribe, modify, world_of. cbn [fst snd].
    by apply waiting_with_this.
  - by apply waiting_sendMessage.
  - by apply waiting_sendTypingIndicator.
  - by apply waiting_getLastOffer.
  - destruct Hw as (H1 & H2 & H3 & H4 & H5 & H6 & H7).
    by apply waiting_intro.
  - apply negb_true_iff, bool_decide_eq_false_1 in Hq.
    by apply waiting_fire.
Qed.

Lemma waiting_run tr w :
  Forall (fun x => quiet sender sid tid x = true) tr ->
  waits w -> waits (run_world tr w).
Proof.
  revert w. induction tr as [|[env e] tr IH]; intros w Htr Hw; [done|].
  apply Forall_cons in Htr as [He Htr]. rewrite run_world_cons.
  by apply IH, waiting_step.
Qed.

End WaitingSteps.

(** ** Promise and timer handles are fresh *)

Lemma wf_offers_intro w :
  (forall p, (nextPromise w ≤ p)%nat -> promises w !! p = None) ->
  listeners_old (nextPromise w) (sockets w) ->
  timeouts_old (nextPromise w) (timers w) ->
  (forall t, typingTimeoutId (this w) = Some t -> (t < nextTimer w)%nat) ->
  wf_offers w.
Proof. by unfold wf_offers. Qed.

Lemma listeners_old_alter n f sid sks :
  (forall sk p s, (p, s) ∈ offerListeners (f sk) ->
                  (p, s) ∈ offerListeners sk \/ (p < n)%nat) ->
  listeners_old n sks -> listeners_old n (alter f sid sks).
Proof.
  intros Hf Hold sid' sk' p s Hl Hin.
  destruct (decide (sid = sid')) as [->|Hne].
  - rewrite lookup_alter_eq in Hl.
    destruct (sks !! sid') as [sk|] eqn:E; [|done].
    injection Hl as <-. destruct (Hf sk p s Hin) as [Hin'|]; [|done].
    by eapply Hold.
  - rewrite lookup_alter_ne in Hl by done. by eapply Hold.
Qed.

Lemma listeners_old_delete n sid sks :
  listeners_old n sks -> listeners_old n (delete sid sks).
Proof.
  intros Hold sid' sk' p s Hl Hin.
  destruct (decide (sid = sid')) as [->|Hne].
  - by rewrite lookup_delete_eq in Hl.
  - rewrite lookup_delete_ne in Hl by done. by eapply Hold.
Qed.

Lemma listeners_old_insert n sid b sks :
  listeners_old n sks -> listeners_old n (<[sid := mkSocket b []]> sks).
Proof.
  intros Hold sid' sk' p s Hl Hin.
  destruct (decide (sid = sid')) as [->|Hne].
  - rewrite lookup_insert_eq in Hl. injection Hl as <-.
    by apply elem_of_nil in Hin.
  - rewrite lookup_insert_ne in Hl by done. by eapply Hold.
Qed.

Lemma timeouts_old_drop_key n ty tm :
  timeouts_old n tm -> timeouts_old n (drop_key ty tm).
Proof. intros Hold t d p H. apply drop_key_lookup in H. by eapply Hold. Qed.

Lemma timeouts_old_delete n t0 tm :
  timeouts_old n tm -> timeouts_old n (delete t0 tm).
Proof. apply (timeouts_old_drop_key n (Some t0)). Qed.

Lemma timeouts_old_insert n t0 d a tm :
  (forall p, a = OfferTimeout p -> (p < n)%nat) ->
  timeouts_old n tm -> timeouts_old n (<[t0 := (d, a)]> tm).
Proof.
  intros Ha Hold t d' p H. destruct (decide (t0 = t)) as [->|Hne].
  - rewrite lookup_insert_eq in H. injection H as -> ->. by apply Ha.
  - rewrite lookup_insert_ne in H by done. by eapply Hold.
Qed.

Lemma wf_offers_with_this f w :
  typingTimeoutId (f (this w)) = typingTimeoutId (this w) ->
  wf_offers w -> wf_offers (with_this f w).
Proof.
  intros Hy (HA & HB & HC & HD). apply wf_offers_intro; cbn; try done.
  by rewrite Hy.
Qed.

Lemma wf_offers_with_sockets f w :
  (listeners_old (nextPromise w) (sockets w) ->
   listeners_old (nextPromise w) (f (sockets w))) ->
  wf_offers w -> wf_offers (with_sockets f w).
Proof.
  intros Hf (HA & HB & HC & HD). apply wf_offers_intro; cbn; by auto.
Qed.

Lemma wf_offers_with_timers f w :
  (timeouts_old (nextPromise w) (timers w) ->
   timeouts_old (nextPromise w) (f (timers w))) ->
  wf_offers w -> wf_offers (with_timers f w).
Proof.
  intros Hf (HA & HB & HC & HD). apply wf_offers_intro; cbn; by auto.
Qed.

Lemma wf_offers_release w : wf_offers w -> wf_offers (release_world w).
Proof.
  intros Hw. unfold release_world. destruct (socket (this w)); [|done].
  apply (wf_offers_with_this _ (with_sockets _ w)); [done|].
  apply wf_offers_with_sockets; [|done]. apply listeners_old_delete.
Qed.

Lemma wf_offers_initializeConnection env w :
  wf_offers w -> wf_offers (initializeConnection_world env w).
Proof.
  intros Hw. unfold initializeConnection_world.
  destruct (currentUser env); [|done].
  destruct (socket_connected w); [done|].
  pose proof (wf_offers_release _
    (wf_offers_with_this (set_connectionState Connecting) w eq_refl Hw))
    as (HA & HB & HC & HD).
  by apply wf_offers_intro.
Qed.

Lemma wf_offers_resume env token w :
  wf_offers w -> wf_offers (resume_world env token w).
Proof.
  intros Hw. unfold resume_world.
  assert (Hfail : wf_offers (with_this (set_connectionState Disconnected) w)).
  { by apply wf_offers_with_this. }
  destruct token; [|done]. destruct (currentUser env); [|done].
  destruct Hw as (HA & HB & HC & HD). apply wf_offers_intro; cbn; try done.
  by apply listeners_old_insert.
Qed.

Lemma wf_offers_settle p v w :
  (p < nextPromise w)%nat -> wf_offers w -> wf_offers (resolve_world p v w).
Proof.
  intros Hp (HA & HB & HC & HD). apply wf_offers_intro; cbn; try done.
  intros q Hq. rewrite settle_lookup_ne by lia. by apply HA.
Qed.

Lemma wf_offers_off_world p w : wf_offers w -> wf_offers (off_world p w).
Proof.
  intros Hw. unfold off_world. destruct (socket (this w)); [|done].
  apply wf_offers_with_sockets; [|done].
  apply listeners_old_alter. intros sk q s Hin. left.
  cbn in Hin. by apply list_elem_of_filter in Hin as [_ Hin].
Qed.

Lemma nextPromise_off_world p w : nextPromise (off_world p w) = nextPromise w.
Proof. frame. Qed.

Lemma wf_offers_handleOffer p s m w :
  (p < nextPromise w)%nat ->
  wf_offers w ->
  wf_offers (handleOffer_world p s m w)
  /\ nextPromise (handleOffer_world p s m w) = nextPromise w.
Proof.
  intros Hp Hw. unfold handleOffer_world.
  destruct (qualifying s m); [|done]. split.
  - apply wf_offers_settle; [by rewrite nextPromise_off_world|].
    by apply wf_offers_off_world.
  - cbn. apply nextPromise_off_world.
Qed.

Lemma wf_offers_listeners ls m w :
  (forall p s, (p, s) ∈ ls -> (p < nextPromise w)%nat) ->
  wf_offers w -> wf_offers (listeners_world ls m w).
Proof.
  revert w. induction ls as [|[p s] ls IH]; intros w Hls Hw; [done|].
  cbn [listeners_world].
  destruct (wf_offers_handleOffer p s m w) as [Hw' Hn'];
    [apply (Hls p s); by left|done|].
  apply IH; [|done]. intros p' s' Hin. rewrite Hn'.
  apply (Hls p' s'). by right.
Qed.

Lemma wf_offers_handleMessage env m w :
  wf_offers w -> wf_offers (handleMessage_world env m w).
Proof.
  intros Hw. unfold handleMessage_world.
  destruct (self_sent env m); [done|]. case_bool_decide; [done|].
  by apply wf_offers_with_this.
Qed.

Lemma wf_offers_dispatch env sid channel m w :
  wf_offers w -> wf_offers (dispatch_world env sid channel m w).
Proof.
  intros Hw. unfold dispatch_world. case_bool_decide.
  - apply wf_offers_listeners; [|by apply wf_offers_handleMessage].
    intros p s Hin.
    assert (Hn : nextPromise (handleMessage_world env m w) = nextPromise w)
      by frame.
    rewrite Hn. destruct Hw as (_ & HB & _).
    unfold listeners_on in Hin.
    destruct (sockets w !! sid) as [sk|] eqn:E;
      [by eapply HB|by apply elem_of_nil in Hin].
  - destruct (routed channel); [by apply wf_offers_handleMessage|done].
Qed.

Lemma wf_offers_sendMessage env m w :
  wf_offers w -> wf_offers (sendMessage_world env m w).
Proof.
  intros Hw. unfold sendMessage_world.
  destruct (socket_connected w); [|by apply wf_offers_initializeConnection].
  destruct (_ || _); [|done]. unfold recorded.
  case_bool_decide; [done|]. by apply wf_offers_with_this.
Qed.

Lemma wf_offers_clear_typing_timer w :
  wf_offers w ->
  wf_offers (with_this (set_typingTimeoutId None) (clear_typing_timer w)).
Proof.
  intros Hw. unfold clear_typing_timer.
  destruct (typingTimeoutId (this w)) as [t|] eqn:E.
  - destruct Hw as (HA & HB & HC & HD).
    apply wf_offers_intro; cbn; try done.
    by apply timeouts_old_delete.
  - destruct Hw as (HA & HB & HC & HD). by apply wf_offers_intro.
Qed.

Lemma clear_typing_timer_idem w :
  with_this (set_typingTimeoutId None) (clear_typing_timer w)
  = clear_typing_timer w.
Proof.
  unfold clear_typing_timer.
  destruct (typingTimeoutId (this w)) eqn:E; [reflexivity|].
  destruct w as [[s cbs st ra mra ms ty] sks tms ps ck su ns nt np].
  cbn in E. by subst ty.
Qed.

Lemma wf_offers_arm_typing receiver w :
  wf_offers w ->
  wf_offers (with_this (set_typingTimeoutId (Some (nextTimer w)))
               (arm (AutoClearTyping receiver) 3000 w)).
Proof.
  intros (HA & HB & HC & HD). apply wf_offers_intro; unfold arm; cbn;
    try done.
  - by apply timeouts_old_insert.
  - intros t [= <-]. lia.
Qed.

Lemma wf_offers_sendTypingIndicator env receiver flag w :
  wf_offers w -> wf_offers (sendTypingIndicator_world env receiver flag w).
Proof.
  intros Hw. unfold sendTypingIndicator_world. cbn zeta.
  rewrite sendMessage_world_spec.
  pose proof (wf_offers_clear_typing_timer w Hw) as Hw1.
  rewrite clear_typing_timer_idem in Hw1.
  pose proof (wf_offers_sendMessage env
    (typing_message (currentUser env) receiver flag
       (clock (clear_typing_timer w))) _ Hw1) as Hw2.
  destruct flag; [|done]. by apply wf_offers_arm_typing.
Qed.

Lemma wf_offers_getLastOffer sender w :
  wf_offers w -> wf_offers (getLastOffer_world sender w).
Proof.
  intros (HA & HB & HC & HD). unfold getLastOffer_world. cbn zeta.
  assert (HB' : listeners_old (S (nextPromise w)) (sockets w)).
  { intros sid sk p s Hl Hin. specialize (HB sid sk p s Hl Hin). lia. }
  assert (HC' : timeouts_old (S (nextPromise w)) (timers w)).
  { intros t d p H. specialize (HC t d p H). lia. }
  destruct (socket_connected w).
  - destruct (socket (this w)) as [sid|];
      apply wf_offers_intro; unfold arm; cbn; try done.
    + intros p Hp. apply HA. lia.
    + apply listeners_old_alter; [|done]. intros sk p s Hin.
      cbn in Hin. apply elem_of_app in Hin as [Hin|Hin]; [by left|].
      apply list_elem_of_singleton in Hin. injection Hin as -> _.
      right. lia.
    + apply timeouts_old_insert; [|done]. intros p [= <-]. lia.
    + intros t Ht. specialize (HD t Ht). lia.
    + intros p Hp. apply HA. lia.
    + apply timeouts_old_insert; [|done]. intros p [= <-]. lia.
    + intros t Ht. specialize (HD t Ht). lia.
  - apply wf_offers_intro; cbn; try done.
    intros p Hp. rewrite settle_lookup_ne by lia. apply HA. lia.
Qed.

Lemma wf_offers_fire env tid w :
  wf_offers w -> wf_offers (fire_world env tid w).
Proof.
  intros Hw. unfold fire_world.
  destruct (timers w !! tid) as [[d action]|] eqn:E; [|done].
  case_bool_decide; [|done].
  assert (Hw1 : wf_offers (with_timers (delete tid) w)).
  { apply wf_offers_with_timers; [|done]. apply timeouts_old_delete. }
  destruct action as [receiver|p].
  - by apply wf_offers_sendTypingIndicator.
  - destruct Hw as (_ & _ & HC & _).
    unfold offer_timeout_world.
    apply wf_offers_settle; [|by apply wf_offers_off_world].
    rewrite nextPromise_off_world. cbn. by eapply HC.
Qed.

Lemma wf_offers_step env e w :
  wf_offers w -> wf_offers (step_world env e w).
Proof.
  intros Hw. destruct e; unfold step_world.
  - by apply wf_offers_initializeConnection.
  - destruct (suspended w) eqn:E; [done|].
    apply wf_offers_resume.
    destruct Hw as (HA & HB & HC & HD). by apply wf_offers_intro.
  - destruct (sockets w !! sid); [|done].
    apply (wf_offers_with_this _ (with_sockets _ w)); [done|].
    apply wf_offers_with_sockets; [|done].
    apply listeners_old_alter. by auto.
  - destruct (sockets w !! sid); [|done].
    apply (wf_offers_with_this _ (with_sockets _ w)); [done|].
    apply wf_offers_with_sockets; [|done].
    apply listeners_old_alter. by auto.
  - destruct (sockets w !! sid); [|done]. by apply wf_offers_with_this.
  - destruct (sockets w !! sid); [|done]. by apply wf_offers_dispatch.
  - unfold onMessage, modify, world_of. cbn [fst snd].
    apply wf_offers_with_this; [by case_bool_decide|done].
  - unfold unsubscribe, modify, world_of. cbn [fst snd].
    by apply wf_offers_with_this.
  - by apply wf_offers_sendMessage.
  - by apply wf_offers_sendTypingIndicator.
  - by apply wf_offers_getLastOffer.
  - destruct Hw as (HA & HB & HC & HD).
    apply wf_offers_intro; cbn; try done.
    + destruct (socket (this w)); [by apply listeners_old_delete|done].
    + by apply timeouts_old_drop_key.
  - destruct Hw as (HA & HB & HC & HD). by apply wf_offers_intro.
  - by apply wf_offers_fire.
Qed.

Lemma wf_offers_fresh_world now : wf_offers (fresh_world now).
Proof. apply wf_offers_intro; cbn; try done. Qed.

Lemma wf_offers_run tr w : wf_offers w -> wf_offers (run_world tr w).
Proof.
  revert w. induction tr as [|[env e] tr IH]; intros w Hw; [done|].
  rewrite run_world_cons. by apply IH, wf_offers_step.
Qed.

Lemma wf_offers_reachable w : reachable w -> wf_offers w.
Proof.
  induction 1 as [env now|env e w Hr IH].
  - unfold constructor. cbn [fst].
    rewrite initializeConnection_world_spec.
    apply wf_offers_initializeConnection, wf_offers_fresh_world.
  - rewrite step_world_spec. by apply wf_offers_step.
Qed.

(** ** The two ways a pending [getLastOffer] settles *)

Lemma waiting_established sender sid w :
  wf_offers w -> socket_connected w = true -> socket (this w) = Some sid ->
  waiting (nextPromise w) sender sid (nextTimer w) (clock w + 5000)%N
    (getLastOffer_world sender w).
Proof.
  intros (HA & HB & HC & HD) Hc Hs.
  unfold getLastOffer_world. cbn zeta. rewrite Hc, Hs.
  assert (Hsk : exists sk, sockets w !! sid = Some sk /\ connected sk = true).
  { unfold socket_connected in Hc. rewrite Hs in Hc.
    destruct (sockets w !! sid) as [sk|]; [eauto|done]. }
  destruct Hsk as (sk & Hsk & Hck).
  unfold waiting, arm. cbn.
  split; [exact Hs|]. split; [split|].
  - exists (add_listener (nextPromise w) sender sk).
    rewrite lookup_alter_eq, Hsk. split; [done|]. split; [done|].
    cbn. set_solver.
  - intros sid' sk' s' Hl Hin.
    destruct (decide (sid = sid')) as [<-|Hne].
    + rewrite lookup_alter_eq, Hsk in Hl. injection Hl as <-.
      cbn in Hin. apply elem_of_app in Hin as [Hin|Hin].
      * specialize (HB sid sk _ _ Hsk Hin). lia.
      * apply list_elem_of_singleton in Hin. congruence.
    + rewrite lookup_alter_ne in Hl by done.
      specialize (HB sid' sk' _ _ Hl Hin). lia.
  - split; [by apply HA|]. split; [lia|]. split; [split|].
    + apply lookup_insert_eq.
    + intros tid' d H.
      destruct (decide (nextTimer w = tid')) as [|Hne]; [done|].
      rewrite lookup_insert_ne in H by done.
      specialize (HC _ _ _ H). lia.
    + split; [lia|]. intros Hy. specialize (HD _ Hy). lia.
Qed.

Lemma qualifying_offer s s' m o o' :
  qualifying s m = Some o -> qualifying s' m = Some o' -> o = o'.
Proof.
  unfold qualifying. destruct (callData m) as [cd|]; [|done].
  destruct (offer cd) as [x|]; [|done].
  do 2 destruct (_ && _); congruence.
Qed.

Lemma this_handleOffer p s m w : this (handleOffer_world p s m w) = this w.
Proof.
  unfold handleOffer_world, resolve_world, off_world.
  destruct (qualifying s m); [|done]. cbn. by destruct (socket (this w)).
Qed.

Lemma this_listeners ls m w : this (listeners_world ls m w) = this w.
Proof.
  destruct (listeners_world_runtime ls m w) as (sk & ps & ->). reflexivity.
Qed.

Lemma not_listening_handleOffer pid sid p s m w :
  not_listening pid sid w -> not_listening pid sid (handleOffer_world p s m w).
Proof.
  intros Hn. unfold handleOffer_world, resolve_world, off_world.
  destruct (qualifying s m); [|done]. cbn.
  destruct (socket (this w)) as [sid'|]; [|done].
  intros sk s0 Hl Hin. cbn in Hl.
  destruct (decide (sid' = sid)) as [->|Hne].
  - rewrite lookup_alter_eq in Hl.
    destruct (sockets w !! sid) as [sk0|] eqn:E; [|done].
    injection Hl as <-. cbn in Hin.
    apply list_elem_of_filter in Hin as [_ Hin]. by eapply Hn.
  - rewrite lookup_alter_ne in Hl by done. by eapply Hn.
Qed.

Lemma not_listening_listeners pid sid ls m w :
  not_listening pid sid w -> not_listening pid sid (listeners_world ls m w).
Proof.
  revert w. induction ls as [|[p s] ls IH]; intros w Hn; [done|].
  cbn [listeners_world]. by apply IH, not_listening_handleOffer.
Qed.

Lemma not_listening_off_world pid sid w :
  socket (this w) = Some sid -> not_listening pid sid (off_world pid w).
Proof.
  intros Hs sk s Hl Hin. unfold off_world in Hl. rewrite Hs in Hl.
  cbn in Hl. rewrite lookup_alter_eq in Hl.
  destruct (sockets w !! sid) as [sk0|]; [|done].
  injection Hl as <-. cbn in Hin.
  by apply list_elem_of_filter in Hin as [Hne _].
Qed.

(** The listeners that run on a qualifying event settle the promise with
    the offer of that event and take the listener off the socket. *)
Lemma listeners_settle pid sender sid o ls m w :
  socket (this w) = Some sid ->
  qualifying sender m = Some o ->
  (pid, sender) ∈ ls ->
  promises w !! pid = None \/ promises w !! pid = Some (Some o) ->
  promises (listeners_world ls m w) !! pid = Some (Some o)
  /\ not_listening pid sid (listeners_world ls m w).
Proof.
  intros Hs Hq. revert w Hs.
  induction ls as [|[p s] ls IH]; intros w Hs Hin Hp.
  { by apply elem_of_nil in Hin. }
  cbn [listeners_world].
  assert (Hp' : p = pid -> is_Some (qualifying s m) ->
            promises (handleOffer_world p s m w) !! pid = Some (Some o)).
  { intros -> [o' Hq']. unfold handleOffer_world. rewrite Hq'.
    rewrite (qualifying_offer _ _ _ _ _ Hq Hq').
    unfold resolve_world. cbn. rewrite promises_off_world, settle_lookup.
    destruct Hp as [->| ->]; [done|].
    by rewrite (qualifying_offer _ _ _ _ _ Hq Hq'). }
  assert (Hkeep : promises (handleOffer_world p s m w) !! pid = None
                  \/ promises (handleOffer_world p s m w) !! pid
                     = Some (Some o)).
  { destruct (qualifying s m) as [o'|] eqn:Hq'.
    - destruct (decide (p = pid)) as [->|Hne].
      + right. apply Hp'; [done|by eauto].
      + unfold handleOffer_world. rewrite Hq'.
        unfold resolve_world. cbn.
        by rewrite promises_off_world, settle_lookup_ne.
    - unfold handleOffer_world. by rewrite Hq'. }
  apply elem_of_cons in Hin as [[= <- <-]|Hin].
  - split.
    + apply promises_listeners, Hp'; [done|]. rewrite Hq. by eauto.
    + apply not_listening_listeners.
      unfold handleOffer_world. rewrite Hq.
      intros sk s Hl. cbn in Hl.
      by apply (not_listening_off_world pid sid w Hs sk s).
  - apply IH; [by rewrite this_handleOffer|done|done].
Qed.

Lemma match_settles pid sender sid tid deadline env m o w :
  waiting pid sender sid tid deadline w ->
  qualifying sender m = Some o ->
  let w' := step_world env (Inbound sid "voice_call" m) w in
  promises w' !! pid = Some (Some o) /\ not_listening pid sid w'.
Proof.
  intros Hw Hq. cbn zeta.
  pose proof (waiting_handleMessage pid sender sid tid deadline env m w Hw)
    as (Hs & _ & Hp & _).
  destruct Hw as (_ & [(sk & Hsk & _ & Hin) _] & _).
  unfold step_world. rewrite Hsk. unfold dispatch_world.
  rewrite bool_decide_eq_true_2 by done.
  apply (listeners_settle pid sender sid o); [done|done| |by left].
  unfold listeners_on. by rewrite Hsk.
Qed.

Lemma timeout_settles pid sender sid tid deadline env w :
  waiting pid sender sid tid deadline w ->
  let w' := step_world env (TimerFires tid) w in
  ((clock w < deadline)%N -> w' = w)
  /\ ((deadline ≤ clock w)%N ->
      promises w' !! pid = Some None /\ not_listening pid sid w'
      /\ timers w' !! tid = None).
Proof.
  intros (Hs & _ & Hp & _ & [Ht _] & _). cbn zeta.
  unfold step_world, fire_world. rewrite Ht. split; intros Hck.
  - rewrite bool_decide_eq_false_2; [done|lia].
  - rewrite bool_decide_eq_true_2 by done.
    unfold offer_timeout_world, resolve_world. cbn.
    rewrite promises_off_world. cbn. rewrite settle_lookup, Hp.
    split; [done|]. split.
    + intros sk s Hl. cbn in Hl.
      by apply (not_listening_off_world pid sid
                  (with_timers (delete tid) w) Hs sk s).
    + assert (Hv : timers (off_world pid (with_timers (delete tid) w))
                   = delete tid (timers w)) by frame.
      rewrite Hv. apply lookup_delete_eq.
Qed.


(** * Further properties of the code *)

(** ** The output of every handler *)

Lemma effect_ok_ext w w' x :
  messageCallbacks (this w) = messageCallbacks (this w') ->
  socket (this w) = socket (this w') ->
  nextSocket w = nextSocket w' ->
  maxReconnectAttempts (this w) = maxReconnectAttempts (this w') ->
  effect_ok w x -> effect_ok w' x.
Proof.
  intros Hc Hs Hn Hm.
  destruct x; cbn; rewrite <- ?Hc, <- ?Hs, <- ?Hn, <- ?Hm; done.
Qed.

Lemma effects_ok_ext w w' o :
  messageCallbacks (this w) = messageCallbacks (this w') ->
  socket (this w) = socket (this w') ->
  nextSocket w = nextSocket w' ->
  maxReconnectAttempts (this w) = maxReconnectAttempts (this w') ->
  Forall (effect_ok w) o -> Forall (effect_ok w') o.
Proof.
  intros Hc Hs Hn Hm Ho. eapply Forall_impl; [exact Ho|]. intros x.
  by apply effect_ok_ext.
Qed.

Lemma effects_ok_notify m w :
  Forall (effect_ok w) (map (fun cb => Notify cb m) (messageCallbacks (this w))).
Proof.
  assert (H : forall cbs : list nat,
            (forall cb, cb ∈ cbs -> cb ∈ messageCallbacks (this w)) ->
            Forall (effect_ok w) (map (fun cb => Notify cb m) cbs)).
  { induction cbs as [|cb cbs IH]; intros Hsub; [constructor|].
    cbn [map]. constructor.
    - apply Hsub. by left.
    - apply IH. intros c Hc. apply Hsub. by right. }
  by apply H.
Qed.

Lemma on_connect_spec env w :
  on_connect env w
  = (tt, connect_world w,
     Console "Socket.IO connected"
     :: map (fun cb => Notify cb (statusMessage Connected (clock w)))
            (messageCallbacks (this w))
     ++ presence env w).
Proof.
  unfold on_connect, socket_emit, notifyConnectionStatus, forEach_callback,
    connect_world, presence.
  run_M. run_updates.
  destruct (currentUser env) as [uid|]; [|cbn; by rewrite ?app_nil_r].
  destruct (socket (this w)) as [s|]; [|cbn; by rewrite ?app_nil_r].
  destruct (emitRaises env); cbn; by rewrite ?app_nil_r.
Qed.

Lemma on_disconnect_spec w :
  on_disconnect w
  = (tt, disconnect_world w,
     Console "Socket.IO disconnected"
     :: map (fun cb => Notify cb (statusMessage Disconnected (clock w)))
            (messageCallbacks (this w))).
Proof.
  unfold on_disconnect, notifyConnectionStatus, forEach_callback.
  run_M. cbn. by rewrite ?app_nil_r.
Qed.

Lemma on_connect_error_spec w :
  on_connect_error w
  = (tt, disconnect_world w,
     Console "Socket.IO connection error:"
     :: map (fun cb => Notify cb (statusMessage Disconnected (clock w)))
            (messageCallbacks (this w))).
Proof.
  unfold on_connect_error, notifyConnectionStatus, forEach_callback.
  run_M. cbn. by rewrite ?app_nil_r.
Qed.

Lemma initializeConnection_resume_spec env token w :
  initializeConnection_resume env token w
  = match token, currentUser env with
    | Ok tok, Some uid =>
        (Ok tt, resume_world env token w,
         [Open (nextSocket w)
            (ioOptions tok uid (maxReconnectAttempts (this w)))])
    | _, _ =>
        (Throw match token with
               | Throw e => e
               | Ok _ => TypeError "auth.currentUser is null"
               end,
         resume_world env token w,
         Console "Error in initializeConnection:"
         :: map (fun cb => Notify cb (statusMessage Disconnected (clock w)))
                (messageCallbacks (this w)))
    end.
Proof.
  unfold resume_world.
  destruct token as [tok|e]; [destruct (currentUser env) as [uid|] eqn:Hu|].
  - by rewrite (initializeConnection_resume_success env tok uid w Hu).
  - unfold initializeConnection_resume, notifyConnectionStatus,
      forEach_callback. run_M. rewrite Hu. cbn. by rewrite ?app_nil_r.
  - unfold initializeConnection_resume, notifyConnectionStatus,
      forEach_callback. run_M. cbn.
    destruct (currentUser env); by rewrite ?app_nil_r.
Qed.

Lemma step_effects_spec env e w :
  effects_of (step env e w) = step_effects env e w.
Proof.
  destruct e; unfold step, step_effects, on_socket; run_M.
  - destruct (initializeConnection env w) as [[v w1] o1]. cbn.
    by rewrite app_nil_r.
  - destruct (suspended w); [reflexivity|]. cbn [fst snd].
    destruct (initializeConnection_resume env token _) as [[v w1] o1]. cbn.
    by rewrite app_nil_r.
  - destruct (sockets w !! sid); [|reflexivity]. cbn [fst snd].
    by destruct (on_connect env _) as [[v w1] o1].
  - destruct (sockets w !! sid); reflexivity.
  - destruct (sockets w !! sid); reflexivity.
  - destruct (sockets w !! sid); [|reflexivity].
    by destruct (dispatch env sid channel m w) as [[v w1] o1].
  - reflexivity.
  - reflexivity.
  - destruct (sendMessage env m w) as [[v w1] o1]. cbn.
    by rewrite app_nil_r.
  - reflexivity.
  - rewrite getLastOffer_spec. reflexivity.
  - reflexivity.
  - reflexivity.
  - reflexivity.
Qed.

Lemma initializeConnection_effects_ok env w :
  Forall (effect_ok w) (effects_of (initializeConnection env w)).
Proof.
  rewrite initializeConnection_spec.
  destruct (currentUser env); [|by repeat constructor].
  destruct (socket_connected w); [by repeat constructor|].
  unfold effects_of at 1. cbn [snd]. apply Forall_app. split.
  - apply effects_ok_notify.
  - rewrite release_socket_spec. cbn.
    destruct (socket (this w)) eqn:Hs; run_M; by repeat constructor.
Qed.

Lemma resume_effects_ok env token w :
  Forall (effect_ok w) (effects_of (initializeConnection_resume env token w)).
Proof.
  rewrite initializeConnection_resume_spec.
  assert (Hfail : Forall (effect_ok w)
            (Console "Error in initializeConnection:"
             :: map (fun cb => Notify cb
                       (statusMessage Disconnected (clock w)))
                    (messageCallbacks (this w)))).
  { constructor; [done|apply effects_ok_notify]. }
  destruct token; [destruct (currentUser env)|]; run_M;
    [|exact Hfail..].
  constructor; [|constructor]. split; [done|]. by eauto.
Qed.

Lemma on_connect_effects_ok env w :
  Forall (effect_ok w) (effects_of (on_connect env w)).
Proof.
  rewrite on_connect_spec. run_M. constructor; [done|].
  apply Forall_app. split; [apply effects_ok_notify|].
  unfold presence. destruct (currentUser env); [|constructor].
  destruct (socket (this w)) eqn:Hs; [|constructor].
  destruct (emitRaises env); by repeat constructor.
Qed.

Lemma handleMessage_effects_ok env m w :
  Forall (effect_ok w) (effects_of (handleMessage env m w)).
Proof.
  rewrite handleMessage_spec. destruct (self_sent env m); [constructor|].
  case_bool_decide; [constructor|]. apply effects_ok_notify.
Qed.

Lemma dispatch_effects_ok env sid channel m w :
  Forall (effect_ok w) (effects_of (dispatch env sid channel m w)).
Proof.
  destruct (routed channel) eqn:Hr.
  - destruct (dispatch_routed env sid channel m w Hr) as (sk & ps & ->).
    apply handleMessage_effects_ok.
  - destruct (decide (channel = "typing")) as [->|Hne].
    + rewrite dispatch_typing, on_typing_spec. run_M.
      case_bool_decide; [apply effects_ok_notify|constructor].
    + rewrite dispatch_unrouted by done. constructor.
Qed.

Lemma sendMessage_effects_ok env m w :
  Forall (effect_ok w) (effects_of (sendMessage env m w)).
Proof.
  destruct (socket_connected w) eqn:Hc.
  - destruct (socket_connected_Some w Hc) as [sid Hs].
    rewrite (sendMessage_connected env m sid w Hc Hs).
    destruct (_ || _); [|constructor].
    destruct (emitRaises env); run_M; [|by repeat constructor].
    constructor; [done|]. case_bool_decide; [constructor|].
    assert (Hr : socket_connected (recorded m w) = true).
    { unfold recorded. by case_bool_decide. }
    rewrite initializeConnection_spec, Hr.
    destruct (currentUser env); by repeat constructor.
  - rewrite sendMessage_disconnected by done. run_M.
    constructor; [done|apply initializeConnection_effects_ok].
Qed.

Lemma sendTypingIndicator_effects_ok env receiver flag w :
  Forall (effect_ok w) (effects_of (sendTypingIndicator env receiver flag w)).
Proof.
  pose proof (sendTypingIndicator_spec env receiver flag w) as Hs.
  cbn zeta in Hs. rewrite Hs. unfold effects_of at 1. cbn [snd].
  eapply effects_ok_ext; [| | | |apply sendMessage_effects_ok];
    unfold clear_typing_timer; by destruct (typingTimeoutId (this w)).
Qed.

Lemma fire_effects_ok env tid w :
  Forall (effect_ok w) (effects_of (fire env tid w)).
Proof.
  destruct (timers w !! tid) as [[deadline action]|] eqn:E.
  - destruct (decide (deadline ≤ clock w)%N) as [Hdue|Hnot].
    + rewrite (fire_due env tid deadline action w E Hdue).
      destruct action as [receiver|pid].
      * eapply effects_ok_ext; [| | | |apply sendTypingIndicator_effects_ok]; reflexivity.
      * rewrite offer_timeout_spec. constructor.
    + rewrite fire_not_due; [constructor|].
      intros d a Hp. rewrite E in Hp. injection Hp as <- _. lia.
  - rewrite fire_not_due; [constructor|]. intros d a Hp. congruence.
Qed.

Lemma close_effects_ok w : Forall (effect_ok w) (effects_of (close w)).
Proof.
  rewrite close_spec. run_M.
  destruct (socket (this w)) eqn:Hs; by repeat constructor.
Qed.

Lemma step_effects_ok env e w :
  Forall (effect_ok w) (effects_of (step env e w)).
Proof.
  rewrite step_effects_spec. destruct e; unfold step_effects;
    try constructor.
  - apply initializeConnection_effects_ok.
  - destruct (suspended w); [constructor|].
    eapply effects_ok_ext; [| | | |apply resume_effects_ok]; reflexivity.
  - destruct (sockets w !! sid); [|constructor].
    eapply effects_ok_ext; [| | | |apply on_connect_effects_ok]; reflexivity.
  - destruct (sockets w !! sid); [|constructor].
    rewrite on_disconnect_spec. run_M.
    constructor; [done|apply (effects_ok_notify _ w)].
  - destruct (sockets w !! sid); [|constructor].
    rewrite on_connect_error_spec. run_M.
    constructor; [done|apply effects_ok_notify].
  - destruct (sockets w !! sid); [|constructor].
    apply dispatch_effects_ok.
  - apply sendMessage_effects_ok.
  - apply sendTypingIndicator_effects_ok.
  - apply close_effects_ok.
  - apply fire_effects_ok.
Qed.

(** ** Fields that only four events can change

    A view [f] of the session object that does not depend on [socket],
    [connectionState], [messageSet] and [typingTimeoutId] is left alone by
    every event except subscribing, unsubscribing, [close] and the
    [connect] of a live socket. *)

Section Frame.

Context {A : Type} (f : ChatService -> A).
Hypothesis f_socket : forall v s, f (set_socket v s) = f s.
Hypothesis f_state : forall v s, f (set_connectionState v s) = f s.
Hypothesis f_cache : forall v s, f (set_messageSet v s) = f s.
Hypothesis f_typing : forall v s, f (set_typingTimeoutId v s) = f s.

Lemma frame_initializeConnection env w :
  f (this (initializeConnection_world env w)) = f (this w).
Proof.
  unfold initializeConnection_world, release_world.
  destruct (currentUser env); [|done].
  destruct (socket_connected w); [done|]. cbn.
  destruct (socket (this w)); cbn; by rewrite ?f_socket, ?f_state.
Qed.

Lemma frame_resume env token w :
  f (this (resume_world env token w)) = f (this w).
Proof.
  unfold resume_world.
  destruct token; [destruct (currentUser env)|]; cbn;
    by rewrite ?f_socket, ?f_state.
Qed.

Lemma frame_handleMessage env m w :
  f (this (handleMessage_world env m w)) = f (this w).
Proof.
  unfold handleMessage_world. destruct (self_sent env m); [done|].
  case_bool_decide; [done|]. cbn. by rewrite f_cache.
Qed.

Lemma frame_dispatch env sid channel m w :
  f (this (dispatch_world env sid channel m w)) = f (this w).
Proof.
  unfold dispatch_world. case_bool_decide.
  - rewrite this_listeners. apply frame_handleMessage.
  - destruct (routed channel); [apply frame_handleMessage|done].
Qed.

Lemma frame_sendMessage env m w :
  f (this (sendMessage_world env m w)) = f (this w).
Proof.
  unfold sendMessage_world, recorded. destruct (socket_connected w).
  - destruct (_ || _); [|done]. case_bool_decide; [done|].
    cbn. by rewrite f_cache.
  - apply frame_initializeConnection.
Qed.

Lemma frame_clear_typing_timer w :
  f (this (clear_typing_timer w)) = f (this w).
Proof.
  unfold clear_typing_timer. destruct (typingTimeoutId (this w)); [|done].
  cbn. by rewrite f_typing.
Qed.

Lemma frame_sendTypingIndicator env receiver flag w :
  f (this (sendTypingIndicator_world env receiver flag w)) = f (this w).
Proof.
  unfold sendTypingIndicator_world. cbn zeta.
  rewrite sendMessage_world_spec.
  rewrite <- (frame_clear_typing_timer w).
  rewrite <- (frame_sendMessage env
    (typing_message (currentUser env) receiver flag
       (clock (clear_typing_timer w))) (clear_typing_timer w)).
  destruct flag; [|done]. cbn. by rewrite f_typing.
Qed.

Lemma frame_getLastOffer sender w :
  f (this (getLastOffer_world sender w)) = f (this w).
Proof.
  unfold getLastOffer_world. cbn zeta.
  destruct (socket_connected w); [|done]. by destruct (socket (this w)).
Qed.

Lemma frame_fire env tid w : f (this (fire_world env tid w)) = f (this w).
Proof.
  unfold fire_world.
  destruct (timers w !! tid) as [[deadline action]|]; [|done].
  case_bool_decide; [|done]. destruct action as [receiver|pid].
  - by rewrite frame_sendTypingIndicator.
  - unfold offer_timeout_world, resolve_world, off_world. cbn.
    by destruct (socket (this w)).
Qed.

Lemma frame_step env e w :
  match e with
  | Subscribe _ | Unsubscribe _ | CloseSession | TransportConnect _ => True
  | _ => f (this (step_world env e w)) = f (this w)
  end.
Proof.
  destruct e; try exact I; unfold step_world.
  - apply frame_initializeConnection.
  - destruct (suspended w); [done|]. by rewrite frame_resume.
  - destruct (sockets w !! sid); [|done]. cbn. by rewrite f_state.
  - destruct (sockets w !! sid); [|done]. cbn. by rewrite f_state.
  - destruct (sockets w !! sid); [apply frame_dispatch|done].
  - apply frame_sendMessage.
  - apply frame_sendTypingIndicator.
  - apply frame_getLastOffer.
  - done.
  - apply frame_fire.
Qed.

Lemma frame_connect env sid w :
  f (this (step_world env (TransportConnect sid) w))
  = match sockets w !! sid with
    | Some _ => f (set_reconnectAttempts 0 (this w))
    | None => f (this w)
    end.
Proof.
  unfold step_world. destruct (sockets w !! sid); [|done].
  change (f (set_messageSet ∅
               (set_connectionState Connected
                  (set_reconnectAttempts 0 (this w))))
          = f (set_reconnectAttempts 0 (this w))).
  by rewrite f_cache, f_state.
Qed.

End Frame.

(** ** Subscribers *)

Lemma subscribers_step env e w :
  messageCallbacks (this (step_world env e w))
  = subscribers_after e (messageCallbacks (this w)).
Proof.
  pose proof (frame_step messageCallbacks
    ltac:(done) ltac:(done) ltac:(done) ltac:(done) env e w) as Hf.
  destruct e; try exact Hf; clear Hf.
  - rewrite (frame_connect messageCallbacks ltac:(done) ltac:(done)).
    by destruct (sockets w !! sid).
  - unfold step_world, onMessage, modify, world_of. cbn.
    by case_bool_decide.
  - reflexivity.
  - reflexivity.
Qed.

Lemma subscribers_after_NoDup e (cbs : list nat) :
  NoDup cbs -> NoDup (subscribers_after e cbs).
Proof.
  intros Hnd. destruct e; try exact Hnd; cbn.
  - case_bool_decide; [done|]. apply NoDup_app. split; [done|].
    split; [|apply NoDup_singleton].
    intros x Hx Hin. apply list_elem_of_singleton in Hin. by subst.
  - by apply NoDup_filter.
  - constructor.
Qed.

Lemma subscribers_after_elem e (cbs : list nat) cb :
  cb ∈ subscribers_after e cbs -> cb ∈ cbs \/ e = Subscribe cb.
Proof.
  destruct e; try (by left); cbn.
  - case_bool_decide; [by left|]. intros Hin.
    apply elem_of_app in Hin as [Hin|Hin]; [by left|].
    apply list_elem_of_singleton in Hin. right. by subst.
  - intros Hin. apply list_elem_of_filter in Hin as [_ Hin]. by left.
  - intros Hin. by apply elem_of_nil in Hin.
Qed.

Lemma notified_is_subscriber cb m o w :
  Forall (effect_ok w) o -> (cb, m) ∈ notifications o ->
  cb ∈ messageCallbacks (this w).
Proof.
  induction 1 as [|x o Hx Ho IH]; intros Hin.
  - by apply elem_of_nil in Hin.
  - destruct x; cbn in Hin; try (by apply IH).
    apply elem_of_cons in Hin as [[= <- <-]|Hin]; [exact Hx|by apply IH].
Qed.

Lemma run_cons env e tr w :
  (run ((env, e) :: tr) w).2
  = effects_of (step env e w) ++ (run tr (step_world env e w)).2.
Proof. cbn. by rewrite step_world_spec. Qed.

Lemma not_notified_run tr w cb m :
  cb ∉ messageCallbacks (this w) -> never_subscribes cb tr ->
  (cb, m) ∉ notifications (run tr w).2.
Proof.
  revert w. induction tr as [|[env e] tr IH]; intros w Hout Htr Hin.
  - by apply elem_of_nil in Hin.
  - apply Forall_cons in Htr as [He Htr]. cbn [snd] in He.
    rewrite run_cons, notifications_app in Hin.
    apply elem_of_app in Hin as [Hin|Hin].
    + apply Hout. eapply notified_is_subscriber; [|exact Hin].
      apply step_effects_ok.
    + eapply (IH (step_world env e w)); [|exact Htr|exact Hin].
      rewrite subscribers_step. intros Hsub.
      apply subscribers_after_elem in Hsub as [Hsub|Heq]; [done|].
      by apply He.
Qed.

(** X1.  The subscribers form a set: in every reachable world the list of
    callbacks has no duplicate, and registering a callback that is already
    registered changes nothing, so that no event can notify one callback
    twice for the same fan-out. *)
Theorem subscribers_have_no_duplicates w :
  reachable w ->
  NoDup (messageCallbacks (this w))
  /\ (forall cb,
        (cb ∈ messageCallbacks (this (world_of (onMessage cb w))))
        /\ onMessage cb (world_of (onMessage cb w))
           = (tt, world_of (onMessage cb w), []))
  /\ (forall cb m o,
        notifications o = fan_out m w ->
        cb ∈ messageCallbacks (this w) -> times_notified cb m o = 1).
Proof.
  intros Hr.
  assert (Hnd : NoDup (messageCallbacks (this w))).
  { induction Hr as [env now|env e w Hr IH].
    - unfold constructor. cbn [fst].
      rewrite initializeConnection_world_spec.
      rewrite (frame_initializeConnection messageCallbacks
                 ltac:(done) ltac:(done)).
      constructor.
    - rewrite step_world_spec, subscribers_step.
      by apply subscribers_after_NoDup. }
  split; [exact Hnd|]. split.
  - intros cb. unfold onMessage, modify, world_of. cbn [fst snd].
    destruct w as [[s cbs st ra mra ms ty] sks tms ps ck su ns nt np].
    unfold with_this. cbn.
    destruct (decide (cb ∈ cbs)) as [Hin|Hout].
    + rewrite !(bool_decide_eq_true_2 _ Hin). cbn.
      by rewrite ?(bool_decide_eq_true_2 _ Hin).
    + rewrite !(bool_decide_eq_false_2 _ Hout). cbn.
      rewrite bool_decide_eq_true_2 by set_solver. split; [set_solver|done].
  - intros cb m o Ho Hin. by eapply times_notified_fan_out.
Qed.

(** X2.  The closure [onMessage] returns undoes the registration: calling
    it on a callback that was not registered before restores the world
    exactly; on any world it removes the callback and keeps the other
    subscribers in their order; calling it again changes nothing. *)
Theorem unsubscribe_undoes_subscribe cb w :
  (cb ∉ messageCallbacks (this w) ->
   world_of (unsubscribe cb (world_of (onMessage cb w))) = w)
  /\ messageCallbacks (this (world_of (unsubscribe cb w)))
     = filter (fun c => c ≠ cb) (messageCallbacks (this w))
  /\ (cb ∉ messageCallbacks (this (world_of (unsubscribe cb w))))
  /\ unsubscribe cb (world_of (unsubscribe cb w))
     = (tt, world_of (unsubscribe cb w), []).
Proof.
  destruct w as [[s cbs st ra mra ms ty] sks tms ps ck su ns nt np].
  unfold unsubscribe, onMessage, modify, world_of, with_this. cbn.
  assert (Hid : forall l : list nat,
            cb ∉ l -> filter (fun c => c ≠ cb) l = l).
  { induction l as [|c l IH]; intros Hnot; [done|].
    apply not_elem_of_cons in Hnot as [Hne Hnot].
    rewrite filter_cons_True by done. by rewrite IH. }
  assert (Hout : cb ∉ filter (fun c => c ≠ cb) cbs).
  { intros Hin. by apply list_elem_of_filter in Hin as [Hne _]. }
  split; [|split; [done|split; [done|]]].
  - intros Hnot. rewrite bool_decide_eq_false_2 by done. cbn.
    rewrite filter_app, Hid by done.
    rewrite filter_cons_False by (intros Hne; by apply Hne).
    by rewrite filter_nil, app_nil_r.
  - by rewrite (Hid _ Hout).
Qed.


(** ** What goes out on the wire *)

Lemma emitted_is_ok sid channel m o w :
  Forall (effect_ok w) o -> (sid, channel, m) ∈ emissions o ->
  socket (this w) = Some sid /\ channel = type_string (type m).
Proof.
  induction 1 as [|x o Hx Ho IH]; intros Hin.
  - by apply elem_of_nil in Hin.
  - destruct x; cbn in Hin; try (by apply IH).
    apply elem_of_cons in Hin as [[= <- <- <-]|Hin]; [exact Hx|by apply IH].
Qed.

Lemma effect_ok_elem w o x :
  Forall (effect_ok w) o -> x ∈ o -> effect_ok w x.
Proof.
  induction 1 as [|y o Hy Ho IH]; intros Hin.
  - by apply elem_of_nil in Hin.
  - apply elem_of_cons in Hin as [->|Hin]; [exact Hy|by apply IH].
Qed.

(** X4.  Whatever the event, the service emits only on the socket that
    [this.socket] refers to when the event starts, and always on the
    channel named after the type of the emitted event; the only socket it
    ever closes is [this.socket], and the only socket it opens is a new
    one, configured as lines 66-76 say. *)
Theorem wire_output_is_local env e w :
  (forall sid channel m,
     (sid, channel, m) ∈ emissions (effects_of (step env e w)) ->
     socket (this w) = Some sid /\ channel = type_string (type m))
  /\ (forall sid, Close sid ∈ effects_of (step env e w) ->
        socket (this w) = Some sid)
  /\ (forall sid opts, Open sid opts ∈ effects_of (step env e w) ->
        sid = nextSocket w
        /\ reconnection opts = true
        /\ reconnectionAttempts opts = maxReconnectAttempts (this w)
        /\ reconnectionDelay opts = 1000%N /\ timeout opts = 10000%N
        /\ transports opts = ["websocket"]).
Proof.
  pose proof (step_effects_ok env e w) as Hok.
  split; [|split].
  - intros sid channel m. by apply emitted_is_ok.
  - intros sid Hin. exact (effect_ok_elem w _ _ Hok Hin).
  - intros sid opts Hin.
    destruct (effect_ok_elem w _ _ Hok Hin) as (Hsid & tok & uid & ->).
    by split.
Qed.

(** ** [close], the transport events and the start of a connection *)


Lemma step_disconnect env sid sk w :
  sockets w !! sid = Some sk ->
  step env (TransportDisconnect sid) w
  = on_disconnect (with_sockets (alter (set_connected false) sid) w).
Proof.
  intros Hsk. unfold step, on_socket. run_M. rewrite Hsk.
  by destruct (on_disconnect _) as [[[] w1] o1].
Qed.

Lemma step_connect_error env sid sk w :
  sockets w !! sid = Some sk ->
  step env (TransportConnectError sid) w = on_connect_error w.
Proof.
  intros Hsk. unfold step, on_socket. run_M. rewrite Hsk.
  by destruct (on_connect_error _) as [[[] w1] o1].
Qed.

(** X6.  A [disconnect] or a [connect_error] of a live socket sets the
    state to [Disconnected] and sends every subscriber one status event
    that carries that state and the current time.  Nothing else moves: the
    dedup cache, the subscribers, [this.socket] and the pending timers are
    kept, the socket object stays (a [disconnect] only lowers its
    [connected] flag), and nothing is emitted. *)
Theorem transport_loss_is_broadcast env sid sk w :
  sockets w !! sid = Some sk ->
  let lost := statusMessage Disconnected (clock w) in
  let r1 := step env (TransportDisconnect sid) w in
  let r2 := step env (TransportConnectError sid) w in
  connectionStatus lost = Some Disconnected
  /\ notifications (effects_of r1) = fan_out lost w
  /\ notifications (effects_of r2) = fan_out lost w
  /\ emissions (effects_of r1) = [] /\ emissions (effects_of r2) = []
  /\ this (world_of r1) = set_connectionState Disconnected (this w)
  /\ world_of r2 = with_this (set_connectionState Disconnected) w
  /\ sockets (world_of r1) = <[sid := set_connected false sk]> (sockets w)
  /\ timers (world_of r1) = timers w
  /\ promises (world_of r1) = promises w.
Proof.
  intros Hsk. cbn zeta.
  rewrite (step_disconnect env sid sk w Hsk),
    (step_connect_error env sid sk w Hsk).
  rewrite on_disconnect_spec, on_connect_error_spec. run_M.
  assert (Hn : forall w0 : World,
            notifications
              (Console "x"
               :: map (fun cb => Notify cb
                         (statusMessage Disconnected (clock w)))
                      (messageCallbacks (this w0)))
            = map (fun cb => (cb, statusMessage Disconnected (clock w)))
                  (messageCallbacks (this w0))).
  { intros w0. cbn.
    induction (messageCallbacks (this w0)) as [|cb cbs IH]; [done|].
    cbn. by rewrite <- IH. }
  split; [done|]. split; [exact (Hn w)|]. split; [exact (Hn w)|].
  split; [apply (emissions_notify _ (messageCallbacks (this w)))|].
  split; [apply (emissions_notify _ (messageCallbacks (this w)))|].
  split; [done|]. split; [done|]. split; [|done].
  cbn. apply map_eq. intros i.
  destruct (decide (sid = i)) as [<-|Hne].
  - by rewrite lookup_alter_eq, lookup_insert_eq, Hsk.
  - by rewrite lookup_alter_ne, lookup_insert_ne.
Qed.

(** X7.  The [connect] of a live socket sets the state to [Connected],
    resets the reconnect counter, raises the [connected] flag of that
    socket and sends every subscriber one [Connected] status event.  When a
    user is signed in it announces presence: one [user_connected] event
    carrying the uid and the current time, emitted on the socket
    [this.socket] refers to (which need not be the socket that connected);
    with nobody signed in, no [this.socket] or a raising [emit], nothing is
    emitted. *)
Theorem connect_announces_presence env sid sk w :
  sockets w !! sid = Some sk ->
  let r := step env (TransportConnect sid) w in
  notifications (effects_of r)
  = fan_out (statusMessage Connected (clock w)) w
  /\ emissions (effects_of r)
     = match currentUser env, socket (this w), emitRaises env with
       | Some uid, Some s, None =>
           [(s, "user_connected", user_connected_message uid (clock w))]
       | _, _, _ => []
       end
  /\ connectionState (this (world_of r)) = Connected
  /\ reconnectAttempts (this (world_of r)) = 0
  /\ sockets (world_of r) = <[sid := set_connected true sk]> (sockets w)
  /\ messageCallbacks (this (world_of r)) = messageCallbacks (this w)
  /\ socket (this (world_of r)) = socket (this w).
Proof.
  intros Hsk. cbn zeta. rewrite (step_connect env sid sk w Hsk).
  rewrite on_connect_spec. run_M.
  set (w1 := with_sockets (alter (set_connected true) sid) w).
  assert (Hp : notifications (presence env w1) = []).
  { unfold presence. by repeat case_match. }
  assert (He : emissions (presence env w1)
               = match currentUser env, socket (this w), emitRaises env with
                 | Some uid, Some s, None =>
                     [(s, "user_connected",
                       user_connected_message uid (clock w))]
                 | _, _, _ => []
                 end).
  { unfold presence. cbn. by repeat case_match. }
  split; [|split; [|split; [done|split; [done|split; [|done]]]]].
  - change (notifications (Console ?t :: ?o)) with (notifications o).
    rewrite notifications_app, Hp, app_nil_r.
    apply (notifications_fan_out _ w).
  - change (emissions (Console ?t :: ?o)) with (emissions o).
    rewrite emissions_app, He.
    by rewrite (emissions_notify _ (messageCallbacks (this w1))).
  - cbn. apply map_eq. intros i.
    destruct (decide (sid = i)) as [<-|Hne].
    + by rewrite lookup_alter_eq, lookup_insert_eq, Hsk.
    + by rewrite lookup_alter_ne, lookup_insert_ne.
Qed.

Lemma release_world_this w :
  this (release_world w) = set_socket None (this w).
Proof.
  destruct w as [[s cbs st ra mra ms ty] sks tms ps ck su ns nt np].
  unfold release_world. cbn. by destruct s.
Qed.

Lemma release_world_sockets w :
  sockets (release_world w) = drop_key (socket (this w)) (sockets w).
Proof. unfold release_world. by destruct (socket (this w)). Qed.

(** X8.  With a user signed in and the socket not connected,
    [initializeConnection] does start: the state becomes [Connecting],
    every subscriber is told so, the previous socket object, if any, is
    closed and forgotten, and the call suspends.  When the token arrives
    and a user is still signed in, one new socket is opened, with that
    token and uid and the reconnection settings of the class; it becomes
    [this.socket], is not connected yet and carries no transient listener;
    the state stays [Connecting] and the dedup cache and the subscribers
    are untouched. *)
Theorem initialize_opens_socket env env' uid uid' token w :
  currentUser env = Some uid -> socket_connected w = false ->
  currentUser env' = Some uid' ->
  let r1 := initializeConnection env w in
  let r2 := initializeConnection_resume env' (Ok token) (world_of r1) in
  value_of r1 = Awaiting
  /\ notifications (effects_of r1)
     = fan_out (statusMessage Connecting (clock w)) w
  /\ (forall sid, socket (this w) = Some sid ->
        Close sid ∈ effects_of r1 /\ sockets (world_of r1) !! sid = None)
  /\ socket (this (world_of r1)) = None
  /\ connectionState (this (world_of r1)) = Connecting
  /\ value_of r2 = Ok tt
  /\ effects_of r2
     = [Open (nextSocket w)
          (ioOptions token uid' (maxReconnectAttempts (this w)))]
  /\ socket (this (world_of r2)) = Some (nextSocket w)
  /\ sockets (world_of r2) !! nextSocket w = Some (mkSocket false [])
  /\ connectionState (this (world_of r2)) = Connecting
  /\ cache (world_of r2) = cache w
  /\ messageCallbacks (this (world_of r2)) = messageCallbacks (this w).
Proof.
  intros Hu Hc Hu'. cbn zeta.
  assert (Hw1 : world_of (initializeConnection env w)
                = with_suspended S
                    (release_world
                       (with_this (set_connectionState Connecting) w))).
  { rewrite initializeConnection_world_spec.
    unfold initializeConnection_world. by rewrite Hu, Hc. }
  assert (He1 : effects_of (initializeConnection env w)
                = map (fun cb => Notify cb (statusMessage Connecting (clock w)))
                      (messageCallbacks (this w))
                  ++ match socket (this w) with
                     | Some sid => [Close sid]
                     | None => []
                     end).
  { rewrite initializeConnection_spec, Hu, Hc. unfold effects_of at 1.
    cbn [snd]. f_equal. rewrite release_socket_spec.
    change (socket (this (with_this (set_connectionState Connecting) w)))
      with (socket (this w)).
    by destruct (socket (this w)). }
  assert (Hv1 : value_of (initializeConnection env w) = Awaiting).
  { by rewrite initializeConnection_spec, Hu, Hc. }
  rewrite Hv1, He1, Hw1.
  set (w1 := with_suspended S
               (release_world (with_this (set_connectionState Connecting) w))).
  assert (Ht1 : this w1
                = set_socket None (set_connectionState Connecting (this w))).
  { unfold w1. cbn [this with_suspended]. by rewrite release_world_this. }
  assert (Hk1 : sockets w1 = drop_key (socket (this w)) (sockets w)).
  { unfold w1. cbn [sockets with_suspended].
    by rewrite release_world_sockets. }
  assert (Hn1 : nextSocket w1 = nextSocket w).
  { unfold w1, release_world.
    by destruct (socket (this (with_this _ w))). }
  rewrite (initializeConnection_resume_success env' token uid' w1 Hu').
  unfold value_of, world_of, effects_of. cbn [fst snd].
  cbn [this sockets with_this with_sockets with_nextSocket].
  rewrite Hn1, !Ht1.
  split; [done|]. split.
  { rewrite notifications_app.
    assert (Hr : notifications
              match socket (this w) with
              | Some sid => [Close sid]
              | None => []
              end = []) by (by destruct (socket (this w))).
    rewrite Hr, app_nil_r. apply notifications_fan_out. }
  split.
  { intros sid Hs. rewrite Hs. split.
    - apply elem_of_app. right. by left.
    - rewrite Hk1, Hs. apply lookup_delete_eq. }
  repeat split; try done; try apply lookup_insert_eq.
  unfold cache. cbn [this with_this with_sockets with_nextSocket].
  by rewrite Ht1.
Qed.

(** ** Socket objects that are no longer [this.socket] *)

Section Unreferenced.

Context (sid : nat).

Lemma unreferenced_view w w' :
  socket_view w' = socket_view w -> unreferenced sid w -> unreferenced sid w'.
Proof. unfold socket_view, unreferenced. by intros [= -> -> ->]. Qed.

Lemma unreferenced_alter g s w :
  unreferenced sid w -> unreferenced sid (with_sockets (alter g s) w).
Proof.
  intros (Hl & Hs & Hn). split; [|done]. cbn.
  destruct (decide (s = sid)) as [->|Hne].
  - rewrite lookup_alter_eq. destruct Hl as [sk ->]. by eexists.
  - by rewrite lookup_alter_ne.
Qed.

Lemma unreferenced_release w :
  unreferenced sid w -> unreferenced sid (release_world w).
Proof.
  intros Hu. pose proof Hu as (Hl & Hs & Hn). unfold release_world.
  destruct (socket (this w)) as [s|] eqn:E; [|exact Hu].
  split; [|split]; cbn.
  - rewrite lookup_delete_ne; [done|congruence].
  - done.
  - done.
Qed.

Lemma unreferenced_initializeConnection env w :
  unreferenced sid w -> unreferenced sid (initializeConnection_world env w).
Proof.
  intros Hu. unfold initializeConnection_world.
  destruct (currentUser env); [|done].
  destruct (socket_connected w); [done|].
  eapply unreferenced_view;
    [|apply unreferenced_release,
        (unreferenced_view w (with_this (set_connectionState Connecting) w));
      [reflexivity|exact Hu]].
  reflexivity.
Qed.

Lemma unreferenced_resume env token w :
  unreferenced sid w -> unreferenced sid (resume_world env token w).
Proof.
  intros (Hl & Hs & Hn). unfold resume_world.
  destruct token; [destruct (currentUser env)|]; try (by split).
  split; [|split]; cbn.
  - rewrite lookup_insert_ne; [done|lia].
  - intros [= Heq]. lia.
  - lia.
Qed.

Lemma unreferenced_handleMessage env m w :
  unreferenced sid w -> unreferenced sid (handleMessage_world env m w).
Proof.
  apply unreferenced_view. unfold handleMessage_world.
  destruct (self_sent env m); [done|]. by case_bool_decide.
Qed.

Lemma unreferenced_handleOffer p s m w :
  unreferenced sid w -> unreferenced sid (handleOffer_world p s m w).
Proof.
  intros Hu. unfold handleOffer_world. destruct (qualifying s m); [|done].
  apply (unreferenced_view (off_world p w)); [reflexivity|].
  unfold off_world. destruct (socket (this w)); [|done].
  by apply unreferenced_alter.
Qed.

Lemma unreferenced_listeners ls m w :
  unreferenced sid w -> unreferenced sid (listeners_world ls m w).
Proof.
  revert w. induction ls as [|[p s] ls IH]; intros w Hu; [done|].
  cbn [listeners_world]. by apply IH, unreferenced_handleOffer.
Qed.

Lemma unreferenced_sendMessage env m w :
  unreferenced sid w -> unreferenced sid (sendMessage_world env m w).
Proof.
  intros Hu. unfold sendMessage_world. destruct (socket_connected w).
  - destruct (_ || _); [|done].
    eapply unreferenced_view; [|exact Hu].
    unfold recorded. by case_bool_decide.
  - by apply unreferenced_initializeConnection.
Qed.

Lemma unreferenced_sendTypingIndicator env receiver flag w :
  unreferenced sid w ->
  unreferenced sid (sendTypingIndicator_world env receiver flag w).
Proof.
  intros Hu. unfold sendTypingIndicator_world. cbn zeta.
  rewrite sendMessage_world_spec.
  assert (Hu1 : unreferenced sid (clear_typing_timer w)).
  { eapply unreferenced_view; [|exact Hu].
    unfold clear_typing_timer. by destruct (typingTimeoutId (this w)). }
  pose proof (unreferenced_sendMessage env
    (typing_message (currentUser env) receiver flag
       (clock (clear_typing_timer w))) _ Hu1) as Hu2.
  destruct flag; [|done].
  eapply unreferenced_view; [|exact Hu2]. reflexivity.
Qed.

Lemma unreferenced_fire env tid w :
  unreferenced sid w -> unreferenced sid (fire_world env tid w).
Proof.
  intros Hu. unfold fire_world.
  destruct (timers w !! tid) as [[deadline action]|]; [|done].
  case_bool_decide; [|done].
  assert (Hu1 : unreferenced sid (with_timers (delete tid) w)).
  { by eapply unreferenced_view; [|exact Hu]. }
  destruct action as [receiver|p].
  - by apply unreferenced_sendTypingIndicator.
  - unfold offer_timeout_world.
    apply (unreferenced_view (off_world p (with_timers (delete tid) w)));
      [reflexivity|].
    unfold off_world.
    destruct (socket (this (with_timers (delete tid) w))); [|done].
    by apply unreferenced_alter.
Qed.

Lemma unreferenced_step env e w :
  unreferenced sid w -> unreferenced sid (step_world env e w).
Proof.
  intros Hu. destruct e; unfold step_world.
  - by apply unreferenced_initializeConnection.
  - destruct (suspended w); [done|]. apply unreferenced_resume.
    by eapply unreferenced_view; [|exact Hu].
  - destruct (sockets w !! sid0); [|done].
    apply (unreferenced_view (with_sockets (alter (set_connected true) sid0) w));
      [reflexivity|]. by apply unreferenced_alter.
  - destruct (sockets w !! sid0); [|done].
    apply (unreferenced_view
             (with_sockets (alter (set_connected false) sid0) w));
      [reflexivity|]. by apply unreferenced_alter.
  - destruct (sockets w !! sid0); [|done].
    by eapply unreferenced_view; [|exact Hu].
  - destruct (sockets w !! sid0); [|done]. unfold dispatch_world.
    case_bool_decide.
    + by apply unreferenced_listeners, unreferenced_handleMessage.
    + destruct (routed channel); [by apply unreferenced_handleMessage|done].
  - eapply unreferenced_view; [|exact Hu].
    unfold onMessage, modify, world_of, socket_view. cbn.
    by case_bool_decide.
  - by eapply unreferenced_view; [|exact Hu].
  - by apply unreferenced_sendMessage.
  - by apply unreferenced_sendTypingIndicator.
  - unfold getLastOffer_world. cbn zeta.
    destruct (socket_connected w);
      [|by eapply unreferenced_view; [|exact Hu]].
    destruct (socket (this w)) as [s|] eqn:E.
    + apply (unreferenced_view
               (with_sockets (alter (add_listener (nextPromise w) sender) s)
                  (with_nextPromise S w))); [reflexivity|].
      apply unreferenced_alter.
      by eapply unreferenced_view; [|exact Hu].
    + by eapply unreferenced_view; [|exact Hu].
  - destruct Hu as (Hl & Hs & Hn). split; [|done]. cbn.
    destruct (socket (this w)) as [s|]; [|done]. cbn.
    rewrite lookup_delete_ne; [done|congruence].
  - by eapply unreferenced_view; [|exact Hu].
  - by apply unreferenced_fire.
Qed.

Lemma unreferenced_run tr w :
  unreferenced sid w -> unreferenced sid (run_world tr w).
Proof.
  revert w. induction tr as [|[env e] tr IH]; intros w Hu; [done|].
  rewrite run_world_cons. by apply IH, unreferenced_step.
Qed.

End Unreferenced.

Lemma step_token_world env uid t n w :
  currentUser env = Some uid -> suspended w = S n ->
  step_world env (TokenSettled (Ok t)) w
  = with_this (set_socket (Some (nextSocket w)))
      (with_sockets (insert (nextSocket w) (mkSocket false []))
         (with_nextSocket S (with_suspended pred w))).
Proof.
  intros Hu Hs. unfold step_world. rewrite Hs. unfold resume_world.
  by rewrite Hu.
Qed.

Lemma overlapping_initialize_world env uid t1 t2 w :
  currentUser env = Some uid -> socket_connected w = false ->
  let n := nextSocket w in
  let w4 := run_world (overlapping_initialize env t1 t2) w in
  socket_view w4
  = (<[S n := mkSocket false []]>
       (<[n := mkSocket false []]> (drop_key (socket (this w)) (sockets w))),
     Some (S n), S (S n))
  /\ cache w4 = cache w
  /\ connectionState (this w4) = Connecting.
Proof.
  intros Hu Hc. cbn zeta. unfold overlapping_initialize.
  rewrite !run_world_cons, run_world_nil.
  assert (H1 : step_world env Initialize w
               = with_suspended S
                   (release_world
                      (with_this (set_connectionState Connecting) w))).
  { unfold step_world, initializeConnection_world. by rewrite Hu, Hc. }
  rewrite H1. clear H1.
  set (w1 := with_suspended S
               (release_world (with_this (set_connectionState Connecting) w))).
  assert (Ht1 : this w1
                = set_socket None (set_connectionState Connecting (this w))).
  { unfold w1. cbn [this with_suspended]. by rewrite release_world_this. }
  assert (Hk1 : sockets w1 = drop_key (socket (this w)) (sockets w)).
  { unfold w1. cbn [sockets with_suspended].
    by rewrite release_world_sockets. }
  assert (Hn1 : nextSocket w1 = nextSocket w).
  { unfold w1, release_world.
    by destruct (socket (this (with_this _ w))). }
  assert (Hp1 : suspended w1 = S (suspended w)).
  { unfold w1, release_world.
    by destruct (socket (this (with_this _ w))). }
  clearbody w1.
  assert (H2 : step_world env Initialize w1
               = with_suspended S
                   (with_this (set_connectionState Connecting) w1)).
  { unfold step_world, initializeConnection_world, socket_connected,
      release_world. rewrite Hu.
    cbn [this with_this socket set_connectionState]. by rewrite Ht1. }
  rewrite H2. clear H2.
  rewrite (step_token_world env uid t1 (suspended w1)) by done.
  rewrite (step_token_world env uid t2 (suspended w)) by done.
  unfold socket_view, cache.
  cbn [this sockets nextSocket with_suspended with_this with_sockets
       with_nextSocket].
  by rewrite !Ht1, Hk1, Hn1.
Qed.

(** X9.  Two overlapping calls of [initializeConnection] by a signed-in
    user open two sockets.  The second becomes [this.socket]; the first is
    left open: no event ever closes it or makes it [this.socket] again, it
    stays live whatever happens afterwards, and its own [connect] still
    drives the session: the state becomes [Connected] and the dedup cache
    is emptied although the socket [this.socket] refers to is not
    connected. *)
Theorem overlapping_initialize_leaks_socket env uid t1 t2 w :
  currentUser env = Some uid -> socket_connected w = false ->
  let first := nextSocket w in
  let w4 := run_world (overlapping_initialize env t1 t2) w in
  socket (this w4) = Some (S first)
  /\ sockets w4 !! first = Some (mkSocket false [])
  /\ sockets w4 !! S first = Some (mkSocket false [])
  /\ (forall tr env' e,
        unreferenced first (run_world tr w4)
        /\ Close first ∉ effects_of (step env' e (run_world tr w4)))
  /\ (let r := step env (TransportConnect first) w4 in
      connectionState (this (world_of r)) = Connected
      /\ cache (world_of r) = ∅
      /\ socket_connected (world_of r) = false).
Proof.
  intros Hu Hc. cbn zeta.
  destruct (overlapping_initialize_world env uid t1 t2 w Hu Hc)
    as (Hv & _ & _). cbn zeta in Hv.
  set (w4 := run_world (overlapping_initialize env t1 t2) w) in *.
  clearbody w4. unfold socket_view in Hv. injection Hv as Hsk Hs Hn.
  assert (H1 : sockets w4 !! nextSocket w = Some (mkSocket false [])).
  { rewrite Hsk, lookup_insert_ne by lia. apply lookup_insert_eq. }
  assert (H2 : sockets w4 !! S (nextSocket w) = Some (mkSocket false [])).
  { rewrite Hsk. apply lookup_insert_eq. }
  assert (Hun : unreferenced (nextSocket w) w4).
  { split; [by rewrite H1|]. split; [rewrite Hs; intros [=]; lia|lia]. }
  split; [exact Hs|]. split; [exact H1|]. split; [exact H2|]. split.
  - intros tr env' e.
    pose proof (unreferenced_run _ tr _ Hun) as Hun'.
    split; [exact Hun'|]. intros Hin.
    pose proof (effect_ok_elem _ _ _ (step_effects_ok env' e _) Hin) as Hok.
    cbn in Hok. by destruct Hun' as (_ & Hne & _).
  - rewrite step_world_spec. unfold step_world. rewrite H1.
    split; [done|]. split; [done|].
    unfold socket_connected. cbn. rewrite Hs.
    rewrite lookup_alter_ne by lia. by rewrite H2.
Qed.

(** ** The dedup key *)

Lemma append_assoc (a b c : string) : (a +:+ b) +:+ c = a +:+ b +:+ c.
Proof.
  induction a as [|x a IH]; [done|].
  change (String x ((a +:+ b) +:+ c) = String x (a +:+ b +:+ c)).
  by rewrite IH.
Qed.

Lemma same_dedup_fields_key m m' :
  same_dedup_fields m m' -> generateMessageId m = generateMessageId m'.
Proof.
  intros (Ht & Hs & Hr & Hts & Hcd). unfold generateMessageId.
  by rewrite Ht, Hs, Hr, Hts, Hcd.
Qed.

Lemma key_determines_type m m' :
  generateMessageId m = generateMessageId m' -> type m = type m'.
Proof.
  unfold generateMessageId.
  destruct (type m), (type m'); cbn; intros H; try done; discriminate H.
Qed.

(** After a content event has passed the self-sender rule, an event with
    the same key is notified to nobody. *)
Lemma same_key_suppressed env sid m m' w :
  generateMessageId m' = generateMessageId m ->
  content_type (type m) = true -> self_sent env m = false ->
  notifications
    (effects_of (receive env sid m' (world_of (receive env sid m w)))) = [].
Proof.
  intros Hk Hc Hs.
  assert (Hty : type m' = type m) by (by apply key_determines_type).
  apply cached_key_not_delivered.
  - rewrite Hty. by destruct (type m).
  - rewrite Hk. by apply received_key_cached.
Qed.

(** X11.  The dedup key does not look at [content] (nor at [isTyping],
    [userId], [connectionStatus]): two events that agree on type, sender,
    receiver, timestamp and call data have the same key, whatever else
    they carry.  So, for every type but [Typing], the second of two such
    events is notified to nobody: two different texts from the same sender
    with the same timestamp are one message for the subscribers. *)
Theorem dedup_ignores_content env sid m m' w :
  same_dedup_fields m m' -> type m ≠ Typing ->
  generateMessageId m = generateMessageId m'
  /\ notifications
       (effects_of (receive env sid m' (world_of (receive env sid m w))))
     = [].
Proof.
  intros Hsame Ht.
  pose proof (same_dedup_fields_key m m' Hsame) as Hk.
  split; [exact Hk|].
  destruct Hsame as (Hty & Hsd & _).
  destruct (content_type (type m)) eqn:Hc.
  - destruct (self_sent env m) eqn:Hs.
    + assert (Hs' : self_sent env m' = true).
      { unfold self_sent in *. by rewrite <- Hty, <- Hsd. }
      unfold receive at 1.
      assert (Hr : routed (type_string (type m')) = true).
      { by rewrite routed_type_string, <- Hty. }
      destruct (dispatch_routed env sid _ m'
                  (world_of (receive env sid m w)) Hr) as (sk & ps & ->).
      by rewrite handleMessage_spec, Hs'.
    + by apply same_key_suppressed.
  - unfold receive at 1. rewrite dispatch_unrouted; [done| |].
    + by rewrite routed_type_string, <- Hty.
    + rewrite <- Hty. by destruct (type m).
Qed.

(** X12.  The dedup key never confuses event types: equal keys have equal
    types.  So an event is not suppressed by an earlier event of another
    type, even when sender, receiver, timestamp and call data are the
    same: if its own key is new, it is fanned out. *)
Theorem dedup_separates_types env sid m m' w :
  (generateMessageId m = generateMessageId m' -> type m = type m')
  /\ (type m ≠ type m' ->
      content_type (type m') = true -> senderId m' ≠ currentUser env ->
      generateMessageId m' ∉ cache w ->
      notifications
        (effects_of (receive env sid m' (world_of (receive env sid m w))))
      = fan_out m' w)
  /\ messageCallbacks (this (world_of (receive env sid m w)))
     = messageCallbacks (this w).
Proof.
  assert (Hcbs : messageCallbacks (this (world_of (receive env sid m w)))
                 = messageCallbacks (this w)).
  { unfold receive. rewrite dispatch_world_spec.
    apply (frame_dispatch messageCallbacks); done. }
  split; [apply key_determines_type|]. split; [|exact Hcbs].
  intros Hne Hc Hs Hfresh.
  rewrite fresh_key_delivered; [by unfold fan_out; rewrite Hcbs|done..|].
  intros Hin. apply Hfresh.
  unfold receive in Hin. rewrite dispatch_world_spec in Hin.
  unfold dispatch_world in Hin.
  assert (Hh : generateMessageId m'
               ∈ messageSet (this (handleMessage_world env m w))).
  { revert Hin. case_bool_decide; [by rewrite this_listeners|].
    by destruct (routed (type_string (type m))). }
  clear Hin. unfold handleMessage_world in Hh.
  destruct (self_sent env m); [done|].
  revert Hh. case_bool_decide; [done|]. cbn. intros Hin.
  apply elem_of_union in Hin as [Hin|Hin]; [|done].
  apply elem_of_singleton in Hin. exfalso. apply Hne.
  symmetry. by apply key_determines_type.
Qed.


(** ** The timeout of [getLastOffer] is never cancelled *)

Lemma reachable_run tr w : reachable w -> reachable (run_world tr w).
Proof.
  revert w. induction tr as [|[env e] tr IH]; intros w Hr; [done|].
  rewrite run_world_cons. apply IH. rewrite <- step_world_spec.
  by apply reachable_step.
Qed.

Lemma typing_handle_typed_view w w' :
  timer_view w' = timer_view w ->
  typing_handle_typed w -> typing_handle_typed w'.
Proof.
  intros Hv. apply timer_view_fields in Hv as (Ht & _ & Hy & _).
  unfold typing_handle_typed. by rewrite Ht, Hy.
Qed.

Lemma typing_handle_typed_step env e w :
  wf_offers w -> typing_handle_typed w ->
  typing_handle_typed (step_world env e w).
Proof.
  intros (_ & _ & _ & Hold) HJ.
  pose proof (timer_view_step env e w) as Hv.
  destruct e; try (by eapply typing_handle_typed_view; [exact Hv|]);
    clear Hv; cbn [step_world]; intros t dl a Hy Hp.
  - pose proof (timer_view_sendTypingIndicator env receiver flag w) as Hv.
    apply timer_view_fields in Hv as (Ht & _ & Hy' & _).
    rewrite Hy' in Hy. rewrite Ht in Hp. destruct flag; [|done].
    injection Hy as <-. cbn in Hp. rewrite lookup_insert_eq in Hp.
    injection Hp as _ <-. by eauto.
  - pose proof (timer_view_getLastOffer sender w) as Hv.
    apply timer_view_fields in Hv as (Ht & _ & Hy' & _).
    rewrite Hy' in Hy. rewrite Ht in Hp.
    destruct (socket_connected w); cbn in Hp; [|by eapply HJ].
    rewrite lookup_insert_ne in Hp; [by eapply HJ|].
    specialize (Hold _ Hy). lia.
  - done.
  - by eapply HJ.
  - pose proof (timer_view_fire env tid w) as Hv.
    destruct (timers w !! tid) as [[deadline action]|] eqn:E.
    + destruct (bool_decide (deadline ≤ clock w)%N).
      * destruct action as [receiver|pid];
          apply timer_view_fields in Hv as (Ht & _ & Hy' & _);
          rewrite Hy' in Hy; [done|].
        rewrite Ht in Hp.
        apply (drop_key_lookup (Some tid)) in Hp. by eapply HJ.
      * eapply (typing_handle_typed_view w); [exact Hv|exact HJ|exact Hy|exact Hp].
    + eapply (typing_handle_typed_view w); [exact Hv|exact HJ|exact Hy|exact Hp].
Qed.

Lemma typing_handle_typed_reachable w :
  reachable w -> typing_handle_typed w.
Proof.
  induction 1 as [env now|env e w Hr IH].
  - unfold constructor. cbn [fst]. rewrite initializeConnection_world_spec.
    eapply typing_handle_typed_view;
      [apply timer_view_initializeConnection|].
    intros t d a Hy. discriminate Hy.
  - rewrite step_world_spec.
    by apply typing_handle_typed_step; [apply wf_offers_reachable|].
Qed.

Lemma drop_key_lookup_ne {A} (o : option nat) (tm : gmap nat A) tid :
  o ≠ Some tid -> drop_key o tm !! tid = tm !! tid.
Proof.
  intros Hne. destruct o as [k|]; [|done]. cbn.
  rewrite lookup_delete_ne; [done|congruence].
Qed.

Lemma offer_timeout_kept env e w tid d p :
  reachable w ->
  timers w !! tid = Some (d, OfferTimeout p) ->
  e ≠ TimerFires tid \/ (clock w < d)%N ->
  timers (step_world env e w) !! tid = Some (d, OfferTimeout p).
Proof.
  intros Hr Hp He.
  pose proof (typing_handle_typed_reachable w Hr) as HJ.
  pose proof (timers_fresh_reachable w Hr) as Hf.
  assert (Hty : typingTimeoutId (this w) ≠ Some tid).
  { intros Hy. destruct (HJ _ _ _ Hy Hp) as [r Hr']. discriminate Hr'. }
  assert (Hnt : nextTimer w ≠ tid).
  { intros <-. rewrite Hf in Hp by lia. discriminate Hp. }
  pose proof (timer_view_step env e w) as Hv.
  assert (Hsame : timer_view (step_world env e w) = timer_view w ->
            timers (step_world env e w) !! tid = Some (d, OfferTimeout p)).
  { intros H. apply timer_view_fields in H as (-> & _). exact Hp. }
  destruct e; try (by apply Hsame); clear Hv Hsame; cbn [step_world].
  - pose proof (timer_view_sendTypingIndicator env receiver flag w) as Hv.
    apply timer_view_fields in Hv as (-> & _).
    destruct flag; cbn; rewrite ?lookup_insert_ne by done;
      by rewrite drop_key_lookup_ne.
  - pose proof (timer_view_getLastOffer sender w) as Hv.
    apply timer_view_fields in Hv as (-> & _).
    destruct (socket_connected w); cbn; by rewrite ?lookup_insert_ne.
  - cbn. by rewrite drop_key_lookup_ne.
  - exact Hp.
  - pose proof (timer_view_fire env tid0 w) as Hv.
    destruct (decide (tid0 = tid)) as [->|Hne].
    + destruct He as [He|He]; [done|].
      rewrite Hp in Hv. rewrite bool_decide_eq_false_2 in Hv by lia.
      apply timer_view_fields in Hv as (-> & _). exact Hp.
    + destruct (timers w !! tid0) as [[deadline action]|] eqn:E.
      * destruct (bool_decide (deadline ≤ clock w)%N).
        -- destruct action as [receiver|pid];
             apply timer_view_fields in Hv as (-> & _).
           ++ rewrite drop_key_lookup_ne by done.
              by rewrite lookup_delete_ne.
           ++ by rewrite lookup_delete_ne.
        -- apply timer_view_fields in Hv as (-> & _). exact Hp.
      * apply timer_view_fields in Hv as (-> & _). exact Hp.
Qed.

(** X14.  Nothing cancels the timeout of a [getLastOffer]: in a reachable
    world a pending timeout stays pending, with its deadline, through every
    event except its own firing when due; the match path does not clear
    it, [close] does not clear it, [sendTypingIndicator] does not clear it.
    It therefore still fires after the call has been answered or the
    session closed, and then only finds the promise settled or settles it
    with [null]. *)
Theorem offer_timeout_is_never_cancelled w tid d p :
  reachable w ->
  timers w !! tid = Some (d, OfferTimeout p) ->
  (forall env e,
     e ≠ TimerFires tid \/ (clock w < d)%N ->
     timers (world_of (step env e w)) !! tid = Some (d, OfferTimeout p))
  /\ (forall tr,
        never_fires tid tr ->
        timers (run_world tr w) !! tid = Some (d, OfferTimeout p))
  /\ (forall env,
        (d ≤ clock w)%N ->
        let w' := world_of (step env (TimerFires tid) w) in
        timers w' !! tid = None
        /\ promises w' !! p = Some (default None (promises w !! p))).
Proof.
  intros Hr Hp. split; [|split].
  - intros env e He. rewrite step_world_spec.
    by apply offer_timeout_kept.
  - intros tr. revert w Hr Hp.
    induction tr as [|[env e] tr IH]; intros w Hr Hp Htr; [done|].
    apply Forall_cons in Htr as [He Htr]. cbn [snd] in He.
    rewrite run_world_cons. apply IH; [|by apply offer_timeout_kept; auto|done].
    rewrite <- step_world_spec. by apply reachable_step.
  - intros env Hdue. cbn zeta. rewrite step_world_spec.
    unfold step_world, fire_world. rewrite Hp.
    rewrite bool_decide_eq_true_2 by done. split.
    + assert (Hv : timers (offer_timeout_world p (with_timers (delete tid) w))
                   = delete tid (timers w)).
      { unfold offer_timeout_world, resolve_world, off_world. cbn.
        by destruct (socket (this w)). }
      rewrite Hv. apply lookup_delete_eq.
    + rewrite promises_offer_timeout. cbn. apply settle_lookup.
Qed.

(** ** The reconnect settings, typing events on the wire, lost sends *)

(** X10.  The reconnect counter is never incremented and the attempt limit
    is never changed: in every reachable world [reconnectAttempts] is 0 and
    [maxReconnectAttempts] is 5, so that every socket the service opens is
    given 5 reconnection attempts. *)
Theorem reconnect_settings_never_change w :
  reachable w ->
  reconnectAttempts (this w) = 0 /\ maxReconnectAttempts (this w) = 5
  /\ (forall env e sid opts,
        Open sid opts ∈ effects_of (step env e w) ->
        reconnectionAttempts opts = 5).
Proof.
  intros Hr.
  assert (Hinv : (reconnectAttempts (this w), maxReconnectAttempts (this w))
                 = (0, 5)).
  { induction Hr as [env now|env e w Hr IH].
    - unfold constructor. cbn [fst]. rewrite initializeConnection_world_spec.
      by rewrite (frame_initializeConnection
                    (fun s => (reconnectAttempts s, maxReconnectAttempts s))
                    ltac:(done) ltac:(done)).
    - rewrite step_world_spec.
      pose proof (frame_step
        (fun s => (reconnectAttempts s, maxReconnectAttempts s))
        ltac:(done) ltac:(done) ltac:(done) ltac:(done) env e w) as Hf.
      destruct e; try (cbn beta in Hf; by rewrite Hf).
      + injection IH as IH0 IHm. unfold step_world.
        destruct (sockets w !! sid); [|by rewrite IH0, IHm].
        cbn. by rewrite IHm.
      + unfold step_world, onMessage, modify, world_of. cbn.
        by case_bool_decide.
      + exact IH.
      + exact IH. }
  injection Hinv as H0 H5. split; [exact H0|]. split; [exact H5|].
  intros env e sid opts Hin.
  destruct (effect_ok_elem _ _ _ (step_effects_ok env e w) Hin)
    as (_ & tok & uid & ->).
  exact H5.
Qed.


Lemma socket_connected_clear_typing_timer w :
  socket_connected (clear_typing_timer w) = socket_connected w.
Proof. unfold clear_typing_timer. by destruct (typingTimeoutId (this w)). Qed.

Lemma sendTypingIndicator_connected env receiver flag sid w :
  socket_connected w = true -> socket (this w) = Some sid ->
  emitRaises env = None ->
  sendTypingIndicator env receiver flag w
  = (tt,
     (if flag
      then with_this (set_typingTimeoutId (Some (nextTimer w)))
             (arm (AutoClearTyping receiver) 3000 (clear_typing_timer w))
      else clear_typing_timer w),
     [Emit sid "typing"
        (typing_message (currentUser env) receiver flag (clock w))]).
Proof.
  intros Hc Hs Hr.
  pose proof (sendTypingIndicator_spec env receiver flag w) as Hspec.
  cbn zeta in Hspec. rewrite Hspec. clear Hspec.
  unfold sendTypingIndicator_world. cbn zeta.
  assert (Hc1 : socket_connected (clear_typing_timer w) = true).
  { by rewrite socket_connected_clear_typing_timer. }
  assert (Hs1 : socket (this (clear_typing_timer w)) = Some sid).
  { unfold clear_typing_timer. by destruct (typingTimeoutId (this w)). }
  assert (Hn1 : nextTimer (clear_typing_timer w) = nextTimer w).
  { unfold clear_typing_timer. by destruct (typingTimeoutId (this w)). }
  rewrite (sendMessage_connected env _ sid _ Hc1 Hs1), Hr.
  rewrite clock_clear_typing_timer.
  cbn [type typing_message]. rewrite (bool_decide_eq_true_2 (Typing = Typing))
    by done.
  rewrite orb_true_r. unfold recorded. cbn [type typing_message].
  rewrite (bool_decide_eq_true_2 (Typing = Typing)) by done.
  unfold world_of, effects_of. cbn [fst snd]. by rewrite Hn1.
Qed.

(** X15.  While the transport is connected and [emit] does not raise,
    [sendTypingIndicator receiver true] puts exactly one [typing] event on
    the wire, from the user signed in at that moment, stamped with the
    current time and with [isTyping] set; 3000 ms later its timer is due,
    and firing it puts exactly one [typing] event with [isTyping] unset on
    the wire, from the user signed in at the time of firing and stamped
    with the time of firing.  Afterwards [typingTimeoutId] is null, the
    timer is gone, and the dedup cache is what it was: typing events never
    enter it. *)
Theorem typing_indicator_auto_clears env env' receiver sid w :
  socket_connected w = true -> socket (this w) = Some sid ->
  emitRaises env = None -> emitRaises env' = None ->
  let T1 := nextTimer w in
  let r1 := sendTypingIndicator env receiver true w in
  let w2 := world_of (step env' (Tick 3000) (world_of r1)) in
  let r2 := step env' (TimerFires T1) w2 in
  effects_of r1
  = [Emit sid "typing"
       (typing_message (currentUser env) receiver true (clock w))]
  /\ effects_of r2
     = [Emit sid "typing"
          (typing_message (currentUser env') receiver false
             (clock w + 3000)%N)]
  /\ typingTimeoutId (this (world_of r2)) = None
  /\ timers (world_of r2) !! T1 = None
  /\ cache (world_of r2) = cache w.
Proof.
  intros Hc Hs Hr Hr'. cbn zeta.
  pose proof (sendTypingIndicator_connected env receiver true sid w Hc Hs Hr)
    as H1.
  set (w1 := with_this (set_typingTimeoutId (Some (nextTimer w)))
               (arm (AutoClearTyping receiver) 3000 (clear_typing_timer w)))
    in *.
  assert (Hw1 : world_of (sendTypingIndicator env receiver true w) = w1)
    by (by rewrite H1).
  assert (He1 : effects_of (sendTypingIndicator env receiver true w)
                = [Emit sid "typing"
                     (typing_message (currentUser env) receiver true
                        (clock w))])
    by (by rewrite H1).
  rewrite Hw1, He1. clear H1 Hw1 He1. split; [done|].
  rewrite step_world_spec. cbn [step_world].
  set (w2 := with_clock (fun t => (t + 3000)%N) w1).
  assert (Hck : clock w2 = (clock w + 3000)%N).
  { unfold w2, w1, arm. cbn. by rewrite clock_clear_typing_timer. }
  assert (Htm : timers w2 !! nextTimer w
                = Some ((clock w + 3000)%N, AutoClearTyping receiver)).
  { unfold w2, w1, arm. cbn.
    assert (Hn1 : nextTimer (clear_typing_timer w) = nextTimer w).
    { unfold clear_typing_timer. by destruct (typingTimeoutId (this w)). }
    rewrite Hn1, clock_clear_typing_timer. apply lookup_insert_eq. }
  assert (Hty : typingTimeoutId (this w2) = Some (nextTimer w)) by done.
  assert (Hc2 : socket_connected w2 = true).
  { unfold w2, w1, arm, socket_connected. cbn.
    fold (socket_connected (clear_typing_timer w)).
    by rewrite socket_connected_clear_typing_timer. }
  assert (Hs2 : socket (this w2) = Some sid).
  { unfold w2, w1, arm. cbn. unfold clear_typing_timer.
    by destruct (typingTimeoutId (this w)). }
  assert (Hca : cache w2 = cache w).
  { unfold w2, w1, arm, cache. cbn. unfold clear_typing_timer.
    by destruct (typingTimeoutId (this w)). }
  clearbody w2. clear w1.
  change (step env' (TimerFires (nextTimer w)) w2)
    with (fire env' (nextTimer w) w2).
  rewrite (fire_due env' _ _ _ w2 Htm) by lia.
  rewrite (sendTypingIndicator_connected env' receiver false sid
             (with_timers (delete (nextTimer w)) w2) Hc2 Hs2 Hr').
  unfold world_of, effects_of. cbn [fst snd].
  change (clock (with_timers (delete (nextTimer w)) w2)) with (clock w2).
  rewrite Hck. split; [done|].
  unfold clear_typing_timer.
  change (typingTimeoutId (this (with_timers (delete (nextTimer w)) w2)))
    with (typingTimeoutId (this w2)).
  rewrite Hty. cbn. split; [done|]. split; [|exact Hca].
  apply lookup_delete_eq.
Qed.

(** X16.  A send that failed is lost for good.  When [emit] raises for a
    non-typing event sent while connected, [sendMessage] still completes
    normally and nothing has been emitted, but the key was recorded before
    the transmission: every later [sendMessage] of that event, after any
    events that are neither a [connect] nor a [close], emits nothing. *)
Theorem failed_send_is_lost env e m w tr env' :
  socket_connected w = true -> emitRaises env = Some e ->
  type m ≠ Typing ->
  Forall (fun x => clearing x.2 = false) tr ->
  let r := sendMessage env m w in
  let w' := run_world tr (world_of r) in
  value_of r = Ok tt
  /\ emissions (effects_of r) = []
  /\ generateMessageId m ∈ cache w'
  /\ emissions (effects_of (sendMessage env' m w')) = [].
Proof.
  intros Hc Hr Ht Htr. cbn zeta.
  assert (Hk : generateMessageId m
               ∈ cache (run_world tr (world_of (sendMessage env m w)))).
  { eapply cache_run; [done|]. by apply sent_key_cached. }
  destruct (socket_connected_Some w Hc) as [sid Hs].
  split; [|split; [|split; [exact Hk|by apply cached_key_not_sent]]].
  - rewrite (sendMessage_connected env m sid w Hc Hs), Hr.
    by destruct (_ || _).
  - rewrite (sendMessage_connected env m sid w Hc Hs), Hr.
    destruct (_ || _); [|done].
    unfold effects_of at 1. cbn [snd emissions omap].
    case_bool_decide; [done|]. apply initializeConnection_emissions.
Qed.

End Properties.

(** * The scenario of the specification, run on the model *)

#[local] Existing Instance sample_builtins.

Example connected_session_state :
  this connected_session
  = {| socket := Some 1; messageCallbacks := [7; 8];
       connectionState := Connected; reconnectAttempts := 0;
       maxReconnectAttempts := 5; messageSet := ∅;
       typingTimeoutId := None |}.
Proof. vm_compute. reflexivity. Qed.

Example connected_session_reachable : reachable connected_session.
Proof.
  unfold connected_session, connecting_trace, run_world. cbn [run fst].
  do 5 apply reachable_step.
  exact (reachable_new nobody 0).
Qed.

(** The scenario of the specification: "A" receives the same message from
    "B" twice, then the same typing event from "B" twice.  The message is
    notified once to each subscriber, the typing event twice. *)
Example scenario_of_the_specification :
  let m := text_from "B" "T1" in
  let t := typing_from "B" in
  notifications
    (run [(alice, Inbound 1 "message" m); (alice, Inbound 1 "message" m);
          (alice, Inbound 1 "typing" t); (alice, Inbound 1 "typing" t)]
       connected_session).2
  = [(7, m); (8, m); (7, t); (8, t); (7, t); (8, t)].
Proof. vm_compute. reflexivity. Qed.

(** C1 as stated fails on a self-sent event: "A" receives, twice, a message
    whose sender is "A".  Subscriber 7 is never notified, and the key is
    not even recorded. *)
Lemma self_sent_duplicate_never_notified :
  let m := text_from "A" "T1" in
  let r1 := receive alice 1 m connected_session in
  let r2 := receive alice 1 m (world_of r1) in
  type m ≠ Typing
  /\ 7 ∈ messageCallbacks (this connected_session)
  /\ times_notified 7 m (effects_of r1 ++ effects_of r2) = 0
  /\ times_notified 7 m (effects_of r1 ++ effects_of r2) ≠ 1
  /\ generateMessageId m ∉ messageSet (this (world_of r1)).
Proof.
  cbn zeta. split; [done|]. split; [|split; [|split]].
  - apply (bool_decide_unpack _). vm_compute. exact I.
  - vm_compute. reflexivity.
  - vm_compute. discriminate.
  - apply (bool_decide_unpack _). vm_compute. exact I.
Qed.

Lemma duplicate_delivered_once_witness :
  let m := text_from "B" "T1" in
  let r1 := receive alice 1 m connected_session in
  let r2 := receive alice 1 m (world_of r1) in
  content_type (type m) = true
  /\ senderId m ≠ currentUser alice
  /\ (generateMessageId m ∉ messageSet (this connected_session))
  /\ times_notified 7 m (effects_of r1 ++ effects_of r2) = 1
  /\ times_notified 8 m (effects_of r1 ++ effects_of r2) = 1.
Proof.
  cbn zeta.
  assert (Hf : generateMessageId (text_from "B" "T1")
               ∉ messageSet (this connected_session)).
  { apply (bool_decide_unpack _). vm_compute. exact I. }
  assert (Hnd : NoDup (messageCallbacks (this connected_session))).
  { apply (bool_decide_unpack _). vm_compute. exact I. }
  split; [reflexivity|]. split; [discriminate|]. split; [exact Hf|].
  destruct (duplicate_delivered_once alice 1 (text_from "B" "T1")
              connected_session eq_refl ltac:(discriminate) Hf)
    as (_ & _ & _ & _ & Hn).
  split; apply (Hn Hnd); apply (bool_decide_unpack _); vm_compute; exact I.
Defined.

Lemma self_sent_events_dropped_witness :
  let m := text_from "A" "T1" in
  senderId m = currentUser alice
  /\ notifications (effects_of (receive alice 1 m connected_session)) = [].
Proof.
  cbn zeta. split; [reflexivity|].
  destruct (self_sent_events_dropped alice 1 (text_from "A" "T1")
              connected_session eq_refl) as [Hdrop _].
  destruct (Hdrop ltac:(discriminate)) as (_ & Hn & _). exact Hn.
Defined.

Lemma typing_bypasses_dedup_witness :
  let m := typing_from "B" in
  let r1 := dispatch alice 1 "typing" m connected_session in
  let r2 := dispatch alice 1 "typing" m (world_of r1) in
  times_notified 7 m (effects_of r1 ++ effects_of r2) = 2.
Proof.
  cbn zeta.
  destruct (typing_bypasses_dedup alice 1 (typing_from "B")
              connected_session) as (_ & _ & _ & _ & _ & Hn).
  apply Hn; [reflexivity| |];
    apply (bool_decide_unpack _); vm_compute; exact I.
Defined.

Lemma connect_clears_dedup_cache_witness :
  let m := text_from "B" "T1" in
  let w := world_of (receive alice 1 m connected_session) in
  let w' := world_of (step alice (TransportConnect 1) w) in
  sockets w !! 1 = Some (mkSocket true [])
  /\ (generateMessageId m ∈ messageSet (this w))
  /\ messageSet (this w') = ∅
  /\ notifications (effects_of (receive alice 1 m w')) = fan_out m w'.
Proof.
  cbn zeta.
  assert (Hsk : sockets (world_of (receive alice 1 (text_from "B" "T1")
                           connected_session)) !! 1
                = Some (mkSocket true [])).
  { vm_compute. reflexivity. }
  split; [exact Hsk|].
  split; [apply (bool_decide_unpack _); vm_compute; exact I|].
  destruct (connect_clears_dedup_cache alice 1 _ _ Hsk)
    as (Hempty & _ & _ & Hagain & _).
  split; [exact Hempty|]. apply Hagain; [reflexivity|discriminate].
Defined.


Lemma typing_timer_debounced_witness :
  let w1 := world_of (sendTypingIndicator alice "B" true connected_session) in
  typing_timer_inv connected_session
  /\ timers w1 !! nextTimer connected_session
     = Some ((clock connected_session + 3000)%N, AutoClearTyping "B").
Proof.
  cbn zeta.
  assert (Hinv : typing_timer_inv connected_session).
  { apply typing_timer_inv_run, typing_timer_inv_fresh_world. }
  split; [exact Hinv|].
  destruct (typing_timer_debounced alice "B" connected_session Hinv)
    as (_ & Harmed & _).
  exact Harmed.
Defined.

Lemma sendMessage_transmits_once_witness :
  let m := text_from "B" "T1" in
  let r1 := sendMessage alice m connected_session in
  let r2 := sendMessage alice m (world_of r1) in
  effects_of r1 = [Emit 1 "message" m]
  /\ effects_of r2 = [] /\ value_of r2 = Ok tt.
Proof.
  cbn zeta.
  destruct (sendMessage_transmits_once alice (text_from "B" "T1")
              connected_session) as (_ & _ & H1).
  destruct H1 as (sid & Hs & Hfirst & _); [vm_compute; reflexivity|].
  assert (sid = 1) as ->.
  { vm_compute in Hs. congruence. }
  destruct (Hfirst eq_refl ltac:(discriminate)) as [Hfresh _].
  destruct Hfresh as [Hemit _].
  { apply (bool_decide_unpack _). vm_compute. exact I. }
  split; [exact Hemit|].
  destruct (sendMessage_transmits_once alice (text_from "B" "T1")
              (world_of (sendMessage alice (text_from "B" "T1")
                           connected_session))) as (Hok & _ & H2).
  destruct H2 as (sid & _ & Hsecond & _); [vm_compute; reflexivity|].
  destruct (Hsecond eq_refl ltac:(discriminate)) as [_ Hseen].
  destruct Hseen as [Hnone _].
  { apply (bool_decide_unpack _). vm_compute. exact I. }
  split; [exact Hnone|exact Hok].
Defined.

Lemma initialize_noop_or_failure_witness :
  world_of (initializeConnection nobody connected_session)
  = connected_session
  /\ value_of (initializeConnection_resume alice
                 (Throw (TokenRejected "expired")) connected_session)
     = Throw (TokenRejected "expired").
Proof.
  destruct (initialize_noop_or_failure nobody connected_session)
    as (Hnoop & _).
  destruct (Hnoop (or_introl eq_refl)) as (_ & Hsame & _).
  split; [exact Hsame|].
  destruct (initialize_noop_or_failure alice connected_session)
    as (_ & Hfail & _).
  destruct (Hfail (TokenRejected "expired")) as (Hthrow & _).
  exact Hthrow.
Defined.

Lemma close_idempotent_witness :
  let w1 := world_of (close connected_session) in
  close w1 = (tt, w1, []) /\ connectionState (this w1) = Disconnected.
Proof.
  cbn zeta.
  destruct (close_idempotent connected_session) as (Hidem & Hthis & _).
  split; [exact Hidem|]. by rewrite Hthis.
Defined.

Lemma dedup_cache_shared_witness :
  let m := text_from "B" "T1" in
  let w := world_of (sendMessage alice m connected_session) in
  notifications (effects_of (receive alice 1 m (run_world [] w))) = [].
Proof.
  cbn zeta.
  destruct dedup_cache_shared as (Hout & _).
  destruct (Hout alice (text_from "B" "T1") connected_session []
              alice 1 (text_from "B" "T1")) as (_ & Hn);
    [vm_compute; reflexivity|discriminate|constructor|reflexivity
    |discriminate|].
  exact Hn.
Defined.


(** * The further properties on the scenario *)

Lemma subscribers_have_no_duplicates_witness :
  let w1 := world_of (onMessage 7 connected_session) in
  NoDup (messageCallbacks (this connected_session))
  /\ onMessage 7 w1 = (tt, w1, []).
Proof.
  cbn zeta.
  destruct (subscribers_have_no_duplicates connected_session
              connected_session_reachable) as (Hn & Hs & _).
  split; [exact Hn|]. exact (proj2 (Hs 7)).
Defined.

Lemma unsubscribe_undoes_subscribe_witness :
  world_of (unsubscribe 9 (world_of (onMessage 9 connected_session)))
  = connected_session.
Proof.
  apply (proj1 (unsubscribe_undoes_subscribe 9 connected_session)).
  apply (bool_decide_unpack _). vm_compute. exact I.
Defined.


Lemma wire_output_is_local_witness :
  let m := text_from "A" "T1" in
  socket (this connected_session) = Some 1
  /\ "message" = type_string (type m).
Proof.
  cbn zeta.
  apply (proj1 (wire_output_is_local alice (Send (text_from "A" "T1"))
                  connected_session) 1 "message" (text_from "A" "T1")).
  assert (E : emissions
                (effects_of (step alice (Send (text_from "A" "T1"))
                               connected_session))
              = [(1, "message", text_from "A" "T1")])
    by (vm_compute; reflexivity).
  rewrite E. by left.
Defined.


Lemma transport_loss_is_broadcast_witness :
  sockets connected_session !! 1 = Some (mkSocket true [])
  /\ notifications
       (effects_of (step alice (TransportDisconnect 1) connected_session))
     = fan_out (statusMessage Disconnected (clock connected_session))
         connected_session.
Proof.
  assert (Hsk : sockets connected_session !! 1 = Some (mkSocket true []))
    by (vm_compute; reflexivity).
  split; [exact Hsk|].
  destruct (transport_loss_is_broadcast alice 1 _ _ Hsk) as (_ & Hn & _).
  exact Hn.
Defined.

Lemma connect_announces_presence_witness :
  let r := step alice (TransportConnect 1) connected_session in
  sockets connected_session !! 1 = Some (mkSocket true [])
  /\ notifications (effects_of r)
     = fan_out (statusMessage Connected (clock connected_session))
         connected_session
  /\ connectionState (this (world_of r)) = Connected.
Proof.
  cbn zeta.
  assert (Hsk : sockets connected_session !! 1 = Some (mkSocket true []))
    by (vm_compute; reflexivity).
  split; [exact Hsk|].
  destruct (connect_announces_presence alice 1 _ _ Hsk)
    as (Hn & _ & Hst & _).
  by split.
Defined.

Lemma initialize_opens_socket_witness :
  let r1 := initializeConnection alice (fresh_world 0) in
  let r2 := initializeConnection_resume alice (Ok "token") (world_of r1) in
  currentUser alice = Some "A"
  /\ socket_connected (fresh_world 0) = false
  /\ value_of r1 = Awaiting
  /\ socket (this (world_of r2)) = Some 1.
Proof.
  cbn zeta.
  assert (Hu : currentUser alice = Some "A") by reflexivity.
  assert (Hc : socket_connected (fresh_world 0) = false) by reflexivity.
  split; [exact Hu|]. split; [exact Hc|].
  destruct (initialize_opens_socket alice alice "A" "A" "token"
              (fresh_world 0) Hu Hc Hu)
    as (Hv & _ & _ & _ & _ & _ & _ & Hs & _).
  by split.
Defined.

Lemma overlapping_initialize_leaks_socket_witness :
  let w4 := run_world (overlapping_initialize alice "t1" "t2")
              (fresh_world 0) in
  currentUser alice = Some "A"
  /\ socket_connected (fresh_world 0) = false
  /\ socket (this w4) = Some 2
  /\ sockets w4 !! 1 = Some (mkSocket false []).
Proof.
  cbn zeta.
  assert (Hu : currentUser alice = Some "A") by reflexivity.
  assert (Hc : socket_connected (fresh_world 0) = false) by reflexivity.
  split; [exact Hu|]. split; [exact Hc|].
  destruct (overlapping_initialize_leaks_socket alice "A" "t1" "t2"
              (fresh_world 0) Hu Hc) as (Hs & H1 & _).
  by split.
Defined.

Lemma reconnect_settings_never_change_witness :
  reconnectAttempts (this connected_session) = 0
  /\ maxReconnectAttempts (this connected_session) = 5.
Proof.
  destruct (reconnect_settings_never_change connected_session
              connected_session_reachable) as (H0 & H5 & _).
  by split.
Defined.

Lemma dedup_ignores_content_witness :
  let m := text_from "B" "T1" in
  let m' := other_text_from "B" "T1" in
  same_dedup_fields m m'
  /\ generateMessageId m = generateMessageId m'
  /\ notifications
       (effects_of (receive alice 1 m'
                      (world_of (receive alice 1 m connected_session))))
     = [].
Proof.
  cbn zeta.
  assert (Hs : same_dedup_fields (text_from "B" "T1")
                 (other_text_from "B" "T1")) by (by repeat split).
  split; [exact Hs|].
  apply (dedup_ignores_content alice 1 _ _ connected_session Hs).
  discriminate.
Defined.

Lemma dedup_separates_types_witness :
  let m := text_from "B" "T1" in
  let m' := call_from "B" in
  notifications
    (effects_of (receive alice 1 m'
                   (world_of (receive alice 1 m connected_session))))
  = fan_out m' connected_session.
Proof.
  cbn zeta.
  apply (proj1 (proj2 (dedup_separates_types alice 1 (text_from "B" "T1")
                         (call_from "B") connected_session))).
  - discriminate.
  - reflexivity.
  - discriminate.
  - apply (bool_decide_unpack _). vm_compute. exact I.
Defined.


Lemma offer_timeout_is_never_cancelled_witness :
  let w := world_of (step alice (GetLastOffer "B") connected_session) in
  reachable w
  /\ timers w !! 1 = Some (5000%N, OfferTimeout 1)
  /\ timers (world_of (step alice CloseSession w)) !! 1
     = Some (5000%N, OfferTimeout 1).
Proof.
  cbn zeta.
  assert (Hr : reachable
                 (world_of (step alice (GetLastOffer "B") connected_session)))
    by (apply reachable_step, connected_session_reachable).
  assert (Hp : timers (world_of (step alice (GetLastOffer "B")
                                   connected_session)) !! 1
               = Some (5000%N, OfferTimeout 1))
    by (vm_compute; reflexivity).
  split; [exact Hr|]. split; [exact Hp|].
  destruct (offer_timeout_is_never_cancelled _ 1 5000%N 1 Hr Hp)
    as (Hstep & _).
  apply Hstep. left. discriminate.
Defined.

Lemma typing_indicator_auto_clears_witness :
  let r1 := sendTypingIndicator alice "B" true connected_session in
  let w2 := world_of (step alice (Tick 3000) (world_of r1)) in
  let r2 := step alice (TimerFires 1) w2 in
  socket_connected connected_session = true
  /\ effects_of r1 = [Emit 1 "typing" (typing_message (Some "A") "B" true 0)]
  /\ effects_of r2
     = [Emit 1 "typing" (typing_message (Some "A") "B" false 3000)]
  /\ typingTimeoutId (this (world_of r2)) = None.
Proof.
  cbn zeta.
  assert (Hc : socket_connected connected_session = true)
    by (vm_compute; reflexivity).
  assert (Hs : socket (this connected_session) = Some 1)
    by (vm_compute; reflexivity).
  split; [exact Hc|].
  destruct (typing_indicator_auto_clears alice alice "B" 1 connected_session
              Hc Hs eq_refl eq_refl) as (H1 & H2 & H3 & _).
  split; [exact H1|]. split; [exact H2|exact H3].
Defined.

Lemma failed_send_is_lost_witness :
  let m := text_from "A" "T1" in
  let r := sendMessage offline m connected_session in
  socket_connected connected_session = true
  /\ value_of r = Ok tt
  /\ emissions (effects_of r) = []
  /\ emissions (effects_of (sendMessage alice m (run_world [] (world_of r))))
     = [].
Proof.
  cbn zeta.
  assert (Hc : socket_connected connected_session = true)
    by (vm_compute; reflexivity).
  split; [exact Hc|].
  destruct (failed_send_is_lost offline (EmitError "offline")
              (text_from "A" "T1") connected_session [] alice Hc eq_refl)
    as (Hv & He & _ & Hagain); [discriminate|constructor|].
  split; [exact Hv|]. split; [exact He|exact Hagain].
Defined.
